(** * lazyflow generic operators: ROI translation and metadata bookkeeping

    A shallow embedding of [lazyflow/operators/generic.py].  Operators are
    modelled as records holding the metadata of their slots; [setupOutputs],
    [execute] and [propagateDirty] become functions over these records.
    Python exceptions are results of an error monad. *)

From Stdlib Require Import ZArith Lia.
From stdpp Require Import base option list strings.

Open Scope Z_scope.

(** ** Exceptions *)

Inductive Exn :=
  | ValueError | IndexError | KeyError | TypeError | NameError
  | AssertionError | InvalidRoiException.

Inductive res (A : Type) : Type :=
  | Ok (a : A)
  | Raise (e : Exn).
Arguments Ok {A} a.
Arguments Raise {A} e.

#[global] Instance res_ret : MRet res := λ A a, Ok a.
#[global] Instance res_bind : MBind res := λ A B k m,
  match m with
  | Ok a => k a
  | Raise e => Raise e
  end.

Definition assert (b : bool) : res unit :=
  if b then Ok tt else Raise AssertionError.

Definition or_raise {A} (e : Exn) (o : option A) : res A :=
  match o with
  | Some a => Ok a
  | None => Raise e
  end.

(** ** Python list operations *)

(** [l.pop(i)] for [i] in range; the removed element is not needed here. *)
Definition py_pop {A} (i : nat) (l : list A) : list A :=
  take i l ++ drop (S i) l.

(** [l.insert(i, x)]; positions past the end append. *)
Definition py_insert {A} (i : nat) (x : A) (l : list A) : list A :=
  take i l ++ x :: drop i l.

(** [l[i] = x], raising [IndexError] out of range. *)
Definition py_setitem {A} (i : nat) (x : A) (l : list A) : res (list A) :=
  if decide (i < length l)%nat then Ok (<[i := x]> l) else Raise IndexError.

(** [l[-1]], raising [IndexError] on the empty list. *)
Definition py_last {A} (l : list A) : res A := or_raise IndexError (last l).

(** [l[:-1]] *)
Definition py_init {A} (l : list A) : list A := take (length l - 1)%nat l.

(** [range(a, b)] *)
Definition py_range (a b : Z) : list Z :=
  (λ k : nat, a + Z.of_nat k) <$> seq 0 (Z.to_nat (b - a)).

(** ** Coordinates, ROIs and keys *)

(** A [TinyVector]: elementwise arithmetic over the zipped entries. *)
Abbreviation Coord := (list Z).

Definition tv_sub (a b : Coord) : Coord := zip_with Z.sub a b.
Definition tv_add (a b : Coord) : Coord := zip_with Z.add a b.
Definition tv_ge_any (a b : Coord) : bool :=
  existsb (λ p : Z * Z, p.2 <=? p.1) (zip a b).
Definition tv_le_all (a b : Coord) : bool :=
  forallb (λ p : Z * Z, p.1 <=? p.2) (zip a b).

Record Roi := mkRoi { start : Coord; stop : Coord }.

(** One entry of an indexing key: [slice(None)], [slice(lo, hi)] or an
    integer. *)
Inductive SliceItem :=
  | SliceAll
  | Slice (lo hi : Z)
  | Index (i : Z).

Abbreviation Key := (list SliceItem).

(** ** Metadata *)

Inductive Dtype := uint8 | uint32 | int32 | int64 | float32 | float64.

Record MetaDict := mkMeta {
  shape : option (list Z);
  axistags : list string;
  dtype : option Dtype;
  drange : option (list Z);
  ideal_blockshape : option (list Z);
  max_blockshape : option (list Z);
  NOTREADY : bool
}.

Definition empty_meta : MetaDict := mkMeta None [] None None None None false.

Definition set_shape (s : option (list Z)) (m : MetaDict) : MetaDict :=
  mkMeta s (axistags m) (dtype m) (drange m) (ideal_blockshape m)
    (max_blockshape m) (NOTREADY m).
Definition set_axistags (t : list string) (m : MetaDict) : MetaDict :=
  mkMeta (shape m) t (dtype m) (drange m) (ideal_blockshape m)
    (max_blockshape m) (NOTREADY m).
Definition set_dtype (d : option Dtype) (m : MetaDict) : MetaDict :=
  mkMeta (shape m) (axistags m) d (drange m) (ideal_blockshape m)
    (max_blockshape m) (NOTREADY m).
Definition set_drange (d : option (list Z)) (m : MetaDict) : MetaDict :=
  mkMeta (shape m) (axistags m) (dtype m) d (ideal_blockshape m)
    (max_blockshape m) (NOTREADY m).
Definition set_ideal_blockshape (b : option (list Z)) (m : MetaDict) : MetaDict :=
  mkMeta (shape m) (axistags m) (dtype m) (drange m) b
    (max_blockshape m) (NOTREADY m).
Definition set_max_blockshape (b : option (list Z)) (m : MetaDict) : MetaDict :=
  mkMeta (shape m) (axistags m) (dtype m) (drange m) (ideal_blockshape m)
    b (NOTREADY m).
Definition set_NOTREADY (b : bool) (m : MetaDict) : MetaDict :=
  mkMeta (shape m) (axistags m) (dtype m) (drange m) (ideal_blockshape m)
    (max_blockshape m) b.

(** Modelled from the spec: [MetaDict.assignFrom] lives in the graph engine.
    Output metadata is "a modified copy of the input's metadata": the call
    replaces every entry of the target by the source's entry (operators read
    the optional block-shape hints back from the target right after it). *)
Definition assignFrom (target other : MetaDict) : MetaDict := other.

(** [meta.shape], a [TypeError] where the code would index or measure [None]. *)
Definition get_shape (m : MetaDict) : res (list Z) :=
  or_raise TypeError (shape m).

(** Modelled from the spec: [axistags.index(key)], the position of the axis
    with that key; a missing key is reported as [ValueError]. *)
Fixpoint index_of (key : string) (tags : list string) : option nat :=
  match tags with
  | [] => None
  | t :: tags' => if decide (t = key) then Some 0%nat else S <$> index_of key tags'
  end.
Definition axis_index (key : string) (tags : list string) : res nat :=
  or_raise ValueError (index_of key tags).

(** [key in tags] *)
Definition has_axis (key : string) (tags : list string) : bool :=
  bool_decide (key ∈ tags).

(** Modelled from the spec: [[ax.key for ax in meta.axistags]].  The engine's
    [MetaDict] answers a missing entry with [None], and iterating over [None]
    is a [TypeError]: this is what the loop meets on metadata that was never
    assigned, or that was set from a value without axis tags.  The record
    keeps the keys as a list, the empty list standing for the missing
    entry. *)
Definition tag_keys (m : MetaDict) : res (list string) :=
  match axistags m with
  | [] => Raise TypeError
  | tags => Ok tags
  end.

(** Modelled from the spec: [meta.getTaggedShape()], the dictionary built from
    the zipped axis keys and extents; a later duplicate key overwrites an
    earlier one. *)
Fixpoint tagged_lookup (key : string) (kv : list (string * Z)) : option Z :=
  match kv with
  | [] => None
  | (k, v) :: kv' =>
      match tagged_lookup key kv' with
      | Some v' => Some v'
      | None => if decide (k = key) then Some v else None
      end
  end.
Definition getTaggedShape (m : MetaDict) (key : string) : res Z :=
  shp ← get_shape m;
  or_raise KeyError (tagged_lookup key (zip (axistags m) shp)).

(** ** Arrays, views and slots *)

(** An n-dimensional buffer: its shape and its cells.  A cell that was never
    written (freshly allocated memory) is [None]. *)
Record ndarray := mkArr { arr_shape : list Z; arr_at : Coord → option Z }.

Definition np_empty (shp : list Z) : ndarray := mkArr shp (λ _, None).

(** [q] addresses a cell of an array of shape [shp]. *)
Fixpoint in_box (shp : list Z) (q : Coord) : bool :=
  match shp, q with
  | [], [] => true
  | n :: shp', x :: q' => (0 <=? x) && (x <? n) && in_box shp' q'
  | _, _ => false
  end.

(** [numpy.ndindex(shp)]: every index of the array, last axis fastest. *)
Fixpoint ndindex (shp : list Z) : list Coord :=
  match shp with
  | [] => [[]]
  | n :: shp' => x ← py_range 0 n; (λ q, x :: q) <$> ndindex shp'
  end.

(** Python's normalisation of a slice bound against an extent [n]. *)
Definition norm_bound (n x : Z) : Z :=
  if x <? 0 then Z.max 0 (x + n) else Z.min x n.

(** A key entry resolved against the extent of its axis. *)
Inductive ritem :=
  | RSlice (lo len : Z)
  | RIndex (i : Z).

Definition resolve_item (n : Z) (it : SliceItem) : res ritem :=
  match it with
  | SliceAll => Ok (RSlice 0 n)
  | Slice lo hi =>
      let lo' := norm_bound n lo in
      let hi' := norm_bound n hi in
      Ok (RSlice lo' (Z.max 0 (hi' - lo')))
  | Index i =>
      let i' := if i <? 0 then i + n else i in
      if (0 <=? i') && (i' <? n) then Ok (RIndex i') else Raise IndexError
  end.

(** Basic indexing [a[key]]: missing trailing entries are full slices, too
    many entries are an [IndexError]. *)
Fixpoint resolve_key (shp : list Z) (key : Key) : res (list ritem) :=
  match shp with
  | [] => match key with [] => Ok [] | _ :: _ => Raise IndexError end
  | n :: shp' =>
      match key with
      | [] => r ← resolve_key shp' []; Ok (RSlice 0 n :: r)
      | it :: key' =>
          i ← resolve_item n it;
          r ← resolve_key shp' key';
          Ok (i :: r)
      end
  end.

(** Shape of the view [a[key]]: integer entries drop their axis. *)
Fixpoint view_shape (rk : list ritem) : list Z :=
  match rk with
  | [] => []
  | RSlice _ len :: rk' => len :: view_shape rk'
  | RIndex _ :: rk' => view_shape rk'
  end.

(** The view-local index of the cell [q] of the underlying array, if the view
    contains that cell. *)
Fixpoint view_local (rk : list ritem) (q : Coord) : option Coord :=
  match rk, q with
  | [], [] => Some []
  | RSlice lo len :: rk', x :: q' =>
      if (lo <=? x) && (x <? lo + len)
      then (λ l, (x - lo) :: l) <$> view_local rk' q'
      else None
  | RIndex i :: rk', x :: q' =>
      if x =? i then view_local rk' q' else None
  | _, _ => None
  end.

(** Modelled from the spec: [request.writeInto(dest)] followed by the wait.
    The destination is the view [result[key]]; it must have the shape of the
    requested block, and on completion each of its cells holds the block's
    cell.  Cells of [result] outside the view are left alone. *)
Definition writeInto (blk : ndarray) (key : Key) (result : ndarray) : res ndarray :=
  rk ← resolve_key (arr_shape result) key;
  _ ← assert (bool_decide (view_shape rk = arr_shape blk));
  Ok (mkArr (arr_shape result)
        (λ q, match view_local rk q with
              | Some l => arr_at blk l
              | None => arr_at result q
              end)).

(** [result[:] = value] for an array value of the same shape. *)
Definition assign_all (value result : ndarray) : res ndarray :=
  if bool_decide (arr_shape value = arr_shape result)
  then Ok (mkArr (arr_shape result)
             (λ q, if in_box (arr_shape result) q then arr_at value q
                   else arr_at result q))
  else Raise ValueError.

(** [result[:] = v] for a scalar. *)
Definition fill_all (v : Z) (result : ndarray) : ndarray :=
  mkArr (arr_shape result)
    (λ q, if in_box (arr_shape result) q then Some v else arr_at result q).

(** Modelled from the spec: [roiToSlice] and [sliceToRoi] of [lazyflow.roi],
    the conversions between a start/stop pair and a tuple of slices. *)
Definition roiToSlice (start stop : Coord) : Key := zip_with Slice start stop.

Fixpoint sliceToRoi (key : Key) (shp : list Z) : res (Coord * Coord) :=
  match shp with
  | [] => match key with [] => Ok ([], []) | _ :: _ => Raise IndexError end
  | n :: shp' =>
      match key with
      | [] => '(a, b) ← sliceToRoi [] shp'; Ok (0 :: a, n :: b)
      | it :: key' =>
          '(a, b) ← sliceToRoi key' shp';
          match it with
          | SliceAll => Ok (0 :: a, n :: b)
          | Slice lo hi => Ok (lo :: a, hi :: b)
          | Index i => Ok (i :: a, (i + 1) :: b)
          end
      end
  end.

(** Modelled from the spec: a slot of the graph engine.  It carries the
    metadata of the connection, whether an upstream slot is connected, and the
    request interface: [get start stop] is the block obtained by waiting for
    the request of that ROI. *)
Record Slot := mkSlot {
  meta : MetaDict;
  upstream_slot : bool;
  get : Coord → Coord → res ndarray
}.

(** [slot[key]] *)
Definition slot_getitem (s : Slot) (key : Key) : res ndarray :=
  shp ← get_shape (meta s);
  '(a, b) ← sliceToRoi key shp;
  get s a b.

(** The ROI [start, stop) is a box of an array of shape [shp]. *)
Fixpoint roi_within (a b shp : list Z) : bool :=
  match a, b, shp with
  | [], [], [] => true
  | x :: a', y :: b', n :: shp' =>
      (0 <=? x) && (x <=? y) && (y <=? n) && roi_within a' b' shp'
  | _, _, _ => false
  end.

(** The block of the conceptual array [A] over [start, stop). *)
Definition block_of (A : Coord → Z) (a b : Coord) : ndarray :=
  let shp := tv_sub b a in
  mkArr shp (λ l, if in_box shp l then Some (A (tv_add a l)) else None).

(** Modelled from the spec: a slot serving a fixed array [A]; a ROI that is
    not a box of the array ("dimensionality must match the array it
    addresses") is an error. *)
Definition array_slot (m : MetaDict) (A : Coord → Z) : Slot :=
  mkSlot m true
    (λ a b, shp ← get_shape m;
            if roi_within a b shp then Ok (block_of A a b)
            else Raise AssertionError).
#[global] Arguments array_slot : simpl never.

(** A dirty notification on a slot: [setDirty(slice(None))] or
    [setDirty(roi)]. *)
Inductive Dirty :=
  | DirtyAll
  | DirtyRoi (r : Roi).

(** The box a notification denotes on a slot of shape [shp]. *)
Definition dirty_box (shp : list Z) (d : Dirty) : Roi :=
  match d with
  | DirtyAll => mkRoi (const 0 <$> shp) shp
  | DirtyRoi r => r
  end.

(** Modelled from the spec: [slot.ready()], whether the output can currently
    be queried. *)
Definition ready (m : MetaDict) : bool :=
  bool_decide (is_Some (shape m)) && negb (NOTREADY m).

(** Modelled from the spec: the output slot of an operator seen from
    downstream.  A request allocates a buffer of the ROI's shape and runs the
    operator's [execute] on it. *)
Definition output_slot (m : MetaDict) (exec : Roi → ndarray → res ndarray) : Slot :=
  mkSlot m true
    (λ a b, shp ← get_shape m;
            if roi_within a b shp then exec (mkRoi a b) (np_empty (tv_sub b a))
            else Raise AssertionError).
#[global] Arguments output_slot : simpl never.

(** A [for] loop whose body may raise. *)
Fixpoint foldlM {A B} (f : B → A → res B) (b : B) (l : list A) : res B :=
  match l with
  | [] => Ok b
  | x :: l' => b' ← f b x; foldlM f b' l'
  end.

(** [numpy.any(a)] *)
Definition np_any (a : ndarray) : bool :=
  existsb (λ l, match arr_at a l with
                | Some v => negb (v =? 0)
                | None => false
                end)
          (ndindex (arr_shape a)).

(** Position of the first maximum of a non-empty sequence. *)
Fixpoint argmax_from (best_i best i : Z) (l : list Z) : Z :=
  match l with
  | [] => best_i
  | x :: l' =>
      if best <? x then argmax_from i x (i + 1) l'
      else argmax_from best_i best (i + 1) l'
  end.
Definition argmax (l : list Z) : option Z :=
  match l with
  | [] => None
  | x :: l' => Some (argmax_from 0 x 1 l')
  end.

(** [numpy.argmax(data, axis=-1)] *)
Definition np_argmax_last (data : ndarray) : res ndarray :=
  let kshape := py_init (arr_shape data) in
  nch ← py_last (arr_shape data);
  if nch <=? 0 then Raise ValueError else
  Ok (mkArr kshape
        (λ px, if in_box kshape px
               then vals ← mapM (λ c, arr_at data (px ++ [c])) (py_range 0 nch);
                    argmax vals
               else None)).

(** [numpy.uint8(am == c)[..., numpy.newaxis]] *)
Definition np_eq_uint8_newaxis (am : ndarray) (c : Z) : ndarray :=
  mkArr (arr_shape am ++ [1])
    (λ q, match last q with
          | Some 0 => v ← arr_at am (py_init q); Some (if v =? c then 1 else 0)
          | _ => None
          end).

(** ** OpSubRegion *)

Module OpSubRegion.

Record t := mk {
  Input : MetaDict;           (* metadata of the Input slot *)
  Roi : Coord * Coord;        (* value of the Roi slot: (start, stop) *)
  Output : MetaDict;          (* metadata of the Output slot *)
  _roi : option (Coord * Coord)
}.

Definition setupOutputs (op : t) : res t :=
  let _roi' := Roi op in
  let '(start, stop) := _roi' in
  shp ← get_shape (Input op);
  if negb (bool_decide (length start = length stop)
           && bool_decide (length stop = length shp)) then
    (* Roi dimensionality must match shape dimensionality *)
    Ok (mk (Input op) (Roi op) (set_NOTREADY true (Output op)) (Some _roi'))
  else if tv_ge_any start stop then
    (* start/stop not compatible *)
    Ok (mk (Input op) (Roi op) (set_NOTREADY true (Output op)) (Some _roi'))
  else
    let out := assignFrom (Output op) (Input op) in
    Ok (mk (Input op) (Roi op) (set_shape (Some (tv_sub stop start)) out)
          (Some _roi')).

End OpSubRegion.

(** ** OpMultiChannelSelector: configuration *)

Module OpMultiChannelSelector.

Record t := mk {
  Input : Slot;
  SelectedChannels : list Z;
  Output : MetaDict
}.

Definition with_Output (o : MetaDict) (op : t) : t :=
  mk (Input op) (SelectedChannels op) o.

Definition setupOutputs (op : t) : res t :=
  lastkey ← py_last (axistags (meta (Input op)));
  if negb (bool_decide (lastkey = "c"%string)) then Raise ValueError else
  max_channel ← getTaggedShape (meta (Input op)) "c";
  let selected_channels := SelectedChannels op in
  if bool_decide (length selected_channels = 0%nat)
     || existsb (λ x, max_channel <=? x) selected_channels then
    Ok (with_Output (set_NOTREADY true (Output op)) op)
  else
    let out := assignFrom (Output op) (meta (Input op)) in
    in_shape ← get_shape (meta (Input op));
    let nsel := Z.of_nat (length selected_channels) in
    let out := set_shape (Some (py_init in_shape ++ [nsel])) out in
    out ← match ideal_blockshape out with
           | Some ideal =>
               _ ← assert (bool_decide (length ideal = length in_shape));
               ideal' ← py_setitem (length ideal - 1)%nat 1 ideal;
               Ok (set_ideal_blockshape (Some ideal') out)
           | None => Ok out
           end;
    out ← match max_blockshape out with
           | Some mb =>
               _ ← assert (bool_decide (length mb = length in_shape));
               mb' ← py_setitem (length mb - 1)%nat nsel mb;
               Ok (set_max_blockshape (Some mb') out)
           | None => Ok out
           end;
    Ok (with_Output out op).

(** Body of the loop over [enumerate(channel_indexes)]; the requests of the
    pool are completed in submission order. *)
Fixpoint execute_loop (inp : Slot) (i : Z) (chs : list Z)
    (input_roi : Roi) (result : ndarray) : res ndarray :=
  match chs with
  | [] => Ok result
  | channel :: chs' =>
      a ← py_setitem (length (start input_roi) - 1)%nat channel (start input_roi);
      b ← py_setitem (length (stop input_roi) - 1)%nat (channel + 1) (stop input_roi);
      let dest_key := replicate (length (py_init a)) SliceAll ++ [Slice i (i + 1)] in
      blk ← get inp a b;
      result' ← writeInto blk dest_key result;
      execute_loop inp (i + 1) chs' (mkRoi a b) result'
  end.

Definition execute (op : t) (roi : Roi) (result : ndarray) : res ndarray :=
  let channel_indexes := SelectedChannels op in
  let input_roi := roi in
  if bool_decide (length channel_indexes = 1%nat) then
    (* Fetch in-place *)
    channel_index ← or_raise IndexError (channel_indexes !! 0%nat);
    a ← py_setitem (length (start input_roi) - 1)%nat channel_index (start input_roi);
    b ← py_setitem (length (stop input_roi) - 1)%nat (channel_index + 1) (stop input_roi);
    blk ← get (Input op) a b;
    writeInto blk [] result
  else
    execute_loop (Input op) 0 channel_indexes input_roi result.

End OpMultiChannelSelector.

(** ** OpMaxChannelIndicatorOperator *)

Module OpMaxChannelIndicatorOperator.

Record t := mk {
  Input : Slot;
  Output : MetaDict
}.

Definition setupOutputs (op : t) : res t :=
  lastkey ← py_last (axistags (meta (Input op)));
  _ ← assert (bool_decide (lastkey = "c"%string));
  let out := assignFrom (Output op) (meta (Input op)) in
  Ok (mk (Input op) (set_drange (Some [0; 1]) (set_dtype (Some uint8) out))).

Definition toSlice (roi : Roi) : Key := roiToSlice (start roi) (stop roi).

(** The first component is the list of keys requested from [Input], in
    order; the second is the outcome. *)
Definition execute (op : t) (roi : Roi) (result : ndarray)
    : list Key * res ndarray :=
  let sl := toSlice roi in
  match last sl with
  | None => ([], Raise ValueError)
  | Some c =>
      let key := py_init sl in
      match c with
      | Slice cstart cstop =>
          let n_channels_requested := cstop - cstart in
          if negb (n_channels_requested =? 1) then
            ([], Raise InvalidRoiException)
          else
            let k := key ++ [SliceAll] in
            ([k],
             data ← slot_getitem (Input op) k;
             (* special case, when data is all zeros *)
             if negb (np_any data) then Ok (fill_all 0 result)
             else
               am ← np_argmax_last data;
               assign_all (np_eq_uint8_newaxis am cstart) result)
      | _ => ([], Raise TypeError)
      end
  end.

End OpMaxChannelIndicatorOperator.

(** ** OpMultiArrayMerger: configuration *)

Module OpMultiArrayMerger.

Record t := mk {
  Inputs : list MetaDict;
  MergingFunction : list (list Z) → list Z;
  Output : MetaDict
}.

(** The loop collecting the inputs' ranges: the first missing range empties
    the collection and leaves the loop. *)
Fixpoint collect_dranges (dranges : list (list Z)) (slots : list MetaDict)
    : list (list Z) :=
  match slots with
  | [] => dranges
  | slot :: slots' =>
      match drange slot with
      | Some dr => collect_dranges (dranges ++ [dr]) slots'
      | None => []
      end
  end.

Definition setupOutputs (op : t) : res t :=
  first_meta ← or_raise IndexError (Inputs op !! 0%nat);
  let out := assignFrom (Output op) first_meta in
  let out := set_dtype (dtype first_meta) out in
  _ ← foldlM (λ _ input,
         _ ← assert (bool_decide (shape input = shape first_meta));
         assert (bool_decide (axistags input = axistags first_meta)))
       tt (Inputs op);
  (* If *all* inputs have a drange, then provide a drange for the output. *)
  let dranges := collect_dranges [] (Inputs op) in
  let out :=
    if bool_decide (0 < length dranges)%nat then
      let fun_ := MergingFunction op in
      let outRange := fun_ dranges in
      set_drange (Some outRange) out
    else out in
  Ok (mk (Inputs op) (MergingFunction op) out).

End OpMultiArrayMerger.

(** ** OpMultiArraySlicer2 *)

(** Which input slot a dirty notification arrives on. *)
Inductive SlicerInput := SlicerAxisFlag | SlicerSliceIndexes | SlicerInputSlot | SlicerOther.

(** [l[i]] for a Python integer [i]: negative positions count from the end. *)
Definition py_position (i : Z) (n : nat) : res nat :=
  let i' := if i <? 0 then i + Z.of_nat n else i in
  if (0 <=? i') && (i' <? Z.of_nat n) then Ok (Z.to_nat i') else Raise IndexError.

Module OpMultiArraySlicer2.

Record t := mk {
  Input : Slot;
  AxisFlag : string;
  SliceIndexes : option (list Z);   (* [None]: the optional slot is not ready *)
  Slices : list MetaDict            (* metadata of the sub-outputs *)
}.

Definition getSliceIndexes (op : t) : res (list Z) :=
  match SliceIndexes op with
  | Some v => Ok v
  | None =>
      (* Default is all indexes of the sliced axis *)
      let flag := AxisFlag op in
      let axistags_ := axistags (meta (Input op)) in
      indexAxis ← axis_index flag axistags_;
      inshape ← get_shape (meta (Input op));
      n ← or_raise IndexError (inshape !! indexAxis);
      Ok (py_range 0 n)
  end.

Definition setupOutputs (op : t) : res t :=
  let flag := AxisFlag op in
  indexAxis ← axis_index flag (axistags (meta (Input op)));
  inshape ← get_shape (meta (Input op));
  _ ← (if decide (indexAxis < length inshape)%nat then Ok tt else Raise IndexError);
  let outshape := py_insert indexAxis 1 (py_pop indexAxis inshape) in
  let outaxistags := axistags (meta (Input op)) in
  sliceIndexes ← getSliceIndexes op;
  let oslot :=
    let m := assignFrom empty_meta (meta (Input op)) in
    let m := set_axistags outaxistags m in
    let m := set_shape (Some outshape) m in
    match drange (meta (Input op)) with
    | Some dr => set_drange (Some dr) m
    | None => m
    end in
  Ok (mk (Input op) (AxisFlag op) (SliceIndexes op)
        (replicate (length sliceIndexes) oslot)).

Definition execute (op : t) (subindex : nat) (rroi : Roi) (result : ndarray)
    : res ndarray :=
  let key := roiToSlice (start rroi) (stop rroi) in
  let index := subindex in
  (* Index of the input slice this data will come from. *)
  idxs ← getSliceIndexes op;
  sliceIndex ← or_raise IndexError (idxs !! index);
  om ← or_raise IndexError (Slices op !! index);
  outshape ← get_shape om;
  '(start, stop) ← sliceToRoi key outshape;
  let flag := AxisFlag op in
  indexAxis ← axis_index flag (axistags (meta (Input op)));
  _ ← (if decide (indexAxis < length start)%nat then Ok tt else Raise IndexError);
  _ ← (if decide (indexAxis < length stop)%nat then Ok tt else Raise IndexError);
  let start := py_insert indexAxis sliceIndex (py_pop indexAxis start) in
  let stop := py_insert indexAxis (sliceIndex + 1) (py_pop indexAxis stop) in
  let newKey := roiToSlice start stop in
  blk ← slot_getitem (Input op) newKey;
  writeInto blk [] result.

(** The sub-output [Slices[index]] as seen by a downstream operator. *)
Definition Slices_slot (op : t) (index : nat) : Slot :=
  output_slot (default empty_meta (Slices op !! index)) (execute op index).

(** The notifications sent downstream: pairs of the position of the notified
    sub-output in [Slices] and the region passed to its [setDirty]. *)
Definition propagateDirty (op : t) (inputSlot : SlicerInput) (roi : Roi)
    : res (list (nat * Dirty)) :=
  match inputSlot with
  | SlicerAxisFlag | SlicerSliceIndexes =>
      (* AxisFlag or slice set changed.  Everything is dirty *)
      Ok ((λ i, (i, DirtyAll)) <$> seq 0 (length (Slices op)))
  | SlicerInputSlot =>
      (* Mark each of the intersected slices as dirty *)
      sliced_axis ← axis_index (AxisFlag op) (axistags (meta (Input op)));
      dirty_slice_indexes ←
        or_raise IndexError (zip (start roi) (stop roi) !! sliced_axis);
      all_output_slices_indexes ← getSliceIndexes op;
      foldlM (λ marked i,
          if bool_decide (i ∈ all_output_slices_indexes) then
            if i <? Z.of_nat (length (Slices op)) then
              slot ← py_position i (length (Slices op));
              a ← py_setitem sliced_axis 0 (start roi);
              b ← py_setitem sliced_axis 1 (stop roi);
              Ok (marked ++ [(slot, DirtyRoi (mkRoi a b))])
            else Ok marked
          else Ok marked)
        [] (py_range dirty_slice_indexes.1 dirty_slice_indexes.2)
  | SlicerOther => Raise AssertionError
  end.

End OpMultiArraySlicer2.

(** ** OpMultiArrayStacker *)

Inductive StackerInput := StackerImages | StackerAxisFlag | StackerAxisIndex | StackerOther.

Module OpMultiArrayStacker.

Record t := mk {
  Images : list Slot;
  AxisFlag : string;
  AxisIndex : option nat;       (* [None]: the optional slot is not ready *)
  Output : MetaDict;
  intervals : list (Z * Z)
}.

(** Loop state of [setRightShape]: [c], [self.intervals], [inTagKeys], the
    local [axisindex] (unbound until first assigned) and the output
    metadata. *)
Definition shape_state : Type :=
  Z * list (Z * Z) * list string * option nat * MetaDict.

Definition setRightShape_step (flag : string) (AxisIndex_ : option nat)
    (st : shape_state) (inSlot : Slot) : res shape_state :=
  let '(c, ivs, _, axisindex, out) := st in
  inTagKeys ← tag_keys (meta inSlot);
  if upstream_slot inSlot then
    let out := assignFrom out (meta inSlot) in
    let outTagKeys := axistags out in
    let '(axisindex, out) :=
      if negb (has_axis flag outTagKeys) then
        let ai := match AxisIndex_ with
                  | Some v => v
                  | None => length outTagKeys
                  end in
        (Some ai, set_axistags (py_insert ai flag outTagKeys) out)
      else (axisindex, out) in
    let old_c := c in
    c' ← (if has_axis flag inTagKeys then
             shp ← get_shape (meta inSlot);
             k ← axis_index flag (axistags (meta inSlot));
             n ← or_raise IndexError (shp !! k);
             Ok (c + n)
           else Ok (c + 1));
    Ok (c', ivs ++ [(old_c, c')], inTagKeys, axisindex, out)
  else Ok (c, ivs, inTagKeys, axisindex, out).

Definition setRightShape (op : t) : res t :=
  let flag := AxisFlag op in
  '(c, ivs, inTagKeys, axisindex, out) ←
    foldlM (setRightShape_step flag (AxisIndex op))
      (0, [], [], None, Output op) (Images op);
  out ← match Images op with
        | first :: _ =>
            newshape ← get_shape (meta first);
            if has_axis flag inTagKeys then
              (* here we assume that all axis are present *)
              axisindex ← axis_index flag (axistags out);
              newshape ← py_setitem axisindex c newshape;
              Ok (set_shape (Some newshape) out)
            else
              axisindex ← or_raise NameError axisindex;
              let newshape := py_insert axisindex c newshape in
              let out := match ideal_blockshape out with
                         | Some b => set_ideal_blockshape (Some (py_insert axisindex 1 b)) out
                         | None => out
                         end in
              let out := match max_blockshape out with
                         | Some b => set_max_blockshape (Some (py_insert axisindex 1 b)) out
                         | None => out
                         end in
              Ok (set_shape (Some newshape) out)
        | [] => Ok (set_shape None out)
        end;
  Ok (mk (Images op) (AxisFlag op) (AxisIndex op) out ivs).

Definition setupOutputs (op : t) : res t := setRightShape op.

(** Loop state of [execute]: [cnt], [written] and the result buffer. *)
Definition execute_step (flag : string) (axisindex : nat) (start_a stop_a : Z)
    (oldkey : Key) (st : Z * Z * ndarray) (inSlot : Slot)
    : res (Z * Z * ndarray) :=
  let '(cnt, written, result) := st in
  inTagKeys ← tag_keys (meta inSlot);
  if has_axis flag inTagKeys then
    ishape ← get_shape (meta inSlot);
    slices ← or_raise IndexError (ishape !! axisindex);
    if (start_a <=? cnt + slices) && (start_a - cnt <? slices)
       && (start_a + written <? stop_a) then
      let begin_ := if cnt <? start_a then start_a - cnt else 0 in
      let end_ := slices in
      let end_ := if stop_a <? cnt + end_ then end_ - (cnt + end_ - stop_a)
                  else end_ in
      let key_ := py_insert axisindex (Slice begin_ end_) oldkey in
      reskey ← py_setitem axisindex (Slice written (written + end_ - begin_))
                 (replicate (length (arr_shape result)) SliceAll);
      blk ← slot_getitem inSlot key_;
      result' ← writeInto blk reskey result;
      Ok (cnt + slices, written + (end_ - begin_), result')
    else Ok (cnt + slices, written, result)
  else
    if (start_a <=? cnt) && (start_a + written <? stop_a) then
      let reskey := py_insert axisindex (Index written)
                      (replicate (length oldkey) SliceAll) in
      blk ← slot_getitem inSlot oldkey;
      result' ← writeInto blk reskey result;
      Ok (cnt + 1, written + 1, result')
    else Ok (cnt + 1, written, result).

Definition execute (op : t) (rroi : Roi) (result : ndarray) : res ndarray :=
  let key := roiToSlice (start rroi) (stop rroi) in
  oshape ← get_shape (Output op);
  '(start, stop) ← sliceToRoi key oshape;
  _ ← assert (tv_le_all stop oshape);
  let flag := AxisFlag op in
  axisindex ← axis_index flag (axistags (Output op));
  _ ← (if decide (axisindex < length key)%nat then Ok tt else Raise IndexError);
  let oldkey := py_pop axisindex key in
  (* [start[axisindex]] and [stop[axisindex]]: in range once the pop above
     succeeded *)
  start_a ← or_raise IndexError (start !! axisindex);
  stop_a ← or_raise IndexError (stop !! axisindex);
  '(_, _, result') ←
    foldlM (execute_step flag axisindex start_a stop_a oldkey)
      (0, 0, result) (Images op);
  Ok result'.

(** [propagateDirty], with the engine's [propagateDirtyIfNewModTime] as a
    parameter.  The method is called without arguments: it sees the operator,
    not the notification.  The result is the list of notifications sent to
    [Output]. *)
Definition propagateDirty_with (propagateDirtyIfNewModTime_ : t → list Dirty)
    (op : t) (inputSlot : StackerInput) (subindex : nat) (roi : Roi)
    : res (list Dirty) :=
  if negb (ready (Output op)) then Ok []
  else
    match inputSlot with
    | StackerAxisFlag | StackerAxisIndex | StackerImages =>
        (* Any upstream change will cause the whole output to be set dirty *)
        Ok (propagateDirtyIfNewModTime_ op)
    | StackerOther => Raise AssertionError
    end.

(** Modelled from the spec: [Operator.propagateDirtyIfNewModTime] of the
    graph engine, which marks the entire output dirty. *)
Definition propagateDirtyIfNewModTime (op : t) : list Dirty := [DirtyAll].

Definition propagateDirty : t → StackerInput → nat → Roi → res (list Dirty) :=
  propagateDirty_with propagateDirtyIfNewModTime.

End OpMultiArrayStacker.

(** ** Reference regions and concrete configurations *)

(** The region the dirty-propagation property predicts for a stacker whose
    sources own the stacking axis: the source's dirty box moved along that
    axis by the source's recorded offset. *)
Definition shifted_dirty_box (axisindex : nat) (offset : Z) (roi : Roi) : Roi :=
  mkRoi (alter (Z.add offset) axisindex (start roi))
        (alter (Z.add offset) axisindex (stop roi)).


Definition meta_of (shp : list Z) (tags : list string) (dr : option (list Z))
    : MetaDict :=
  mkMeta (Some shp) tags (Some uint8) dr None None false.

(** A merger of two images, the first with a value range and the second
    without; the merging function adds its arguments up. *)
Definition merger_mixed_ranges : OpMultiArrayMerger.t :=
  OpMultiArrayMerger.mk
    [meta_of [4; 4] ["x"; "y"]%string (Some [0; 255]);
     meta_of [4; 4] ["x"; "y"]%string None]
    (λ ds, foldr (zip_with Z.add) [0; 0] ds)
    empty_meta.

(** A slicer along ["t"] of an 8x3 volume exposing the slices 2, 4 and 6,
    the example of the operator's own comment. *)
Definition slicer_246 : OpMultiArraySlicer2.t :=
  OpMultiArraySlicer2.mk
    (array_slot (meta_of [8; 3] ["t"; "x"]%string None) (λ q, default 0 (q !! 0%nat)))
    "t" (Some [2; 4; 6]) [].

(** A stacker along ["x"] of two 2x2 images. *)
Definition stacker_two_sources : OpMultiArrayStacker.t :=
  OpMultiArrayStacker.mk
    [array_slot (meta_of [2; 2] ["x"; "y"]%string None) (λ _, 1);
     array_slot (meta_of [2; 2] ["x"; "y"]%string None) (λ _, 2)]
    "x" None empty_meta [].

(** ** Reference semantics of stacking *)

(** The interval table the stacker is specified to record: each source's
    half-open interval starts where the previous one stops. *)
Fixpoint offsets (c : Z) (ns : list Z) : list (Z * Z) :=
  match ns with
  | [] => []
  | n :: ns' => (c, c + n) :: offsets (c + n) ns'
  end.

(** A source's contribution to the stacking axis: its extent along the axis
    if it has the axis, else 1. *)
Definition contribution (flag : string) (src : Slot) : Z :=
  if has_axis flag (axistags (meta src)) then
    default 0 (k ← index_of flag (axistags (meta src));
               shp ← shape (meta src);
               shp !! k)
  else 1.

(** The slot delivers the conceptual array [A]: a request for a box of the
    slot's shape yields a block of the box's shape holding [A]'s cells. *)
Definition serves (src : Slot) (A : Coord → Z) : Prop :=
  ∀ shp a b, shape (meta src) = Some shp → roi_within a b shp = true →
    ∃ blk, get src a b = Ok blk ∧
      arr_shape blk = tv_sub b a ∧
      ∀ l, in_box (tv_sub b a) l = true → arr_at blk l = Some (A (tv_add a l)).

(** [p] lies in the box [a, b). *)
Fixpoint in_roi (a b p : Coord) : bool :=
  match a, b, p with
  | [], [], [] => true
  | x :: a', y :: b', z :: p' => (x <=? z) && (z <? y) && in_roi a' b' p'
  | _, _, _ => false
  end.

(** Rows of the result filled once the sources below axis position [cnt] have
    been visited, for a request of the axis range [sa, ea). *)
Definition rows_written (sa ea cnt : Z) : Z := Z.max 0 (Z.min cnt ea - sa).

(** The cell of a source holding output position [p1 ++ k' :: p2], where [k]
    is [k'] minus the source's offset: sources that own the axis are read at
    [k], the others have no such axis. *)
Definition source_cell (native : bool) (A : Coord → Z)
    (p1 : Coord) (k : Z) (p2 : Coord) : Z :=
  if native then A (p1 ++ k :: p2) else A (p1 ++ p2).

(** What [execute] relies on from one source, for a request of the box
    [s1 ++ _ :: s2, e1 ++ _ :: e2): the source answers the requests the loop
    can issue with blocks of its conceptual array [A].  [n] is the source's
    contribution. *)
Definition source_ok (flag : string) (a : nat) (s1 e1 s2 e2 : Coord)
    (src : Slot) (d : bool * Z * (Coord → Z)) : Prop :=
  let '(native, n, A) := d in
  has_axis flag (axistags (meta src)) = native ∧
  if native then
    0 ≤ n ∧
    (∃ shp, shape (meta src) = Some shp ∧ shp !! a = Some n) ∧
    ∀ b e, 0 ≤ b → b ≤ e → e ≤ n → (0 < n → b < e) →
      ∃ blk,
        slot_getitem src (roiToSlice s1 e1 ++ Slice b e :: roiToSlice s2 e2)
        = Ok blk ∧
        arr_shape blk = tv_sub e1 s1 ++ (e - b) :: tv_sub e2 s2 ∧
        ∀ l1 x l2, in_box (tv_sub e1 s1) l1 = true → 0 ≤ x < e - b →
          in_box (tv_sub e2 s2) l2 = true →
          arr_at blk (l1 ++ x :: l2)
          = Some (A (tv_add s1 l1 ++ (b + x) :: tv_add s2 l2))
  else
    n = 1 ∧
    axistags (meta src) ≠ [] ∧
    ∃ blk,
      slot_getitem src (roiToSlice s1 e1 ++ roiToSlice s2 e2) = Ok blk ∧
      arr_shape blk = tv_sub e1 s1 ++ tv_sub e2 s2 ∧
      ∀ l1 l2, in_box (tv_sub e1 s1) l1 = true →
        in_box (tv_sub e2 s2) l2 = true →
        arr_at blk (l1 ++ l2) = Some (A (tv_add s1 l1 ++ tv_add s2 l2)).

(** ** Well-formed stacker configurations *)

(** A source of a well-formed stack: connected and tagged, with the extents
    [o1] before and [o2] after the stacking axis.  [native] says whether the
    source owns the stacking axis, which is then its axis number [a]; [n] is
    the source's contribution.  Sources of either kind may be mixed. *)
Definition stack_source (flag : string) (a : nat) (o1 o2 : list Z)
    (src : Slot) (d : bool * Z) : Prop :=
  let '(native, n) := d in
  upstream_slot src = true ∧
  axistags (meta src) ≠ [] ∧
  has_axis flag (axistags (meta src)) = native ∧
  shape (meta src) = Some (if native then o1 ++ n :: o2 else o1 ++ o2) ∧
  0 ≤ n ∧
  if native then index_of flag (axistags (meta src)) = Some a else n = 1.

(** Where [setRightShape] inserts the stacking axis for a source that lacks
    it: at [AxisIndex], by default behind the source's last axis. *)
Definition insertion_index (AxisIndex_ : option nat) (src : Slot) : nat :=
  match AxisIndex_ with
  | Some v => v
  | None => length (axistags (meta src))
  end.

(** The output shape is the first source's shape with the extent along the
    stacking axis set or inserted, and which of the two is decided by the tags
    of the last source ("here we assume that all axis are present"): the
    first and the last source are of the same kind.  [a] is the position of
    the stacking axis in the output: where the sources have it, or where it is
    inserted for the last source. *)
Definition stack_config (flag : string) (AxisIndex_ : option nat) (a : nat)
    (o1 : list Z) (srcs : list Slot) : Prop :=
  length o1 = a ∧
  ∃ first lst,
    head srcs = Some first ∧ last srcs = Some lst ∧
    has_axis flag (axistags (meta first)) = has_axis flag (axistags (meta lst)) ∧
    (has_axis flag (axistags (meta lst)) = false →
       a = insertion_index AxisIndex_ lst ∧
       (a ≤ length (axistags (meta lst)))%nat).

(** A stack along ["c"] of a 2x3 image with channels, a 2-pixel image without
    and a 2x2 image with channels. *)
Definition stacker_mixed : OpMultiArrayStacker.t :=
  OpMultiArrayStacker.mk
    [array_slot (meta_of [2; 3] ["x"; "c"]%string None)
       (λ q, 100 + 10 * default 0 (q !! 0%nat) + default 0 (q !! 1%nat));
     array_slot (meta_of [2] ["x"]%string None)
       (λ q, 200 + 10 * default 0 (q !! 0%nat));
     array_slot (meta_of [2; 2] ["x"; "c"]%string None)
       (λ q, 300 + 10 * default 0 (q !! 0%nat) + default 0 (q !! 1%nat))]
    "c" None empty_meta [].


(** The two sources in the other order. *)
Definition stacker_mixed_ends_swapped : OpMultiArrayStacker.t :=
  OpMultiArrayStacker.mk
    [array_slot (meta_of [2] ["x"]%string None)
       (λ q, 200 + 10 * default 0 (q !! 0%nat));
     array_slot (meta_of [2; 3] ["x"; "c"]%string None)
       (λ q, 100 + 10 * default 0 (q !! 0%nat) + default 0 (q !! 1%nat))]
    "c" None empty_meta [].

(** A stack along ["x"] of a 2x2 and a 3x3 image: the sources disagree on the
    extent off the stacking axis. *)
Definition stacker_ragged : OpMultiArrayStacker.t :=
  OpMultiArrayStacker.mk
    [array_slot (meta_of [2; 2] ["x"; "y"]%string None) (λ _, 1);
     array_slot (meta_of [3; 3] ["x"; "y"]%string None) (λ _, 2)]
    "x" None empty_meta [].

(** ** The slicer configured on an array *)

(** Metadata the slicer gives each sub-output of an input with metadata [mA]:
    a copy with the sliced extent set to 1. *)
Definition slice_meta (mA : MetaDict) (outshape : list Z) : MetaDict :=
  match drange mA with
  | Some dr => set_drange (Some dr)
                 (set_shape (Some outshape) (set_axistags (axistags mA) mA))
  | None => set_shape (Some outshape) (set_axistags (axistags mA) mA)
  end.

(** The slicer of the array [A] along [flag] with the default [SliceIndexes],
    once configured: [N] sub-outputs. *)
Definition default_slicer (A : Coord → Z) (mA : MetaDict) (flag : string)
    (outshape : list Z) (N : Z) : OpMultiArraySlicer2.t :=
  OpMultiArraySlicer2.mk (array_slot mA A) flag None
    (replicate (Z.to_nat N) (slice_meta mA outshape)).

(** ** Utility functions *)

(** An axis tag is represented by its key; the loop collects the keys in
    order. *)
Definition axisTagsToString (axistags : list string) : list string :=
  foldl (λ res axistag, res ++ [axistag]) [] axistags.

(** [d[key]] for the dictionary [d = dict(pairs)]: a later pair with the same
    key replaces an earlier one; [None] stands for the [KeyError]. *)
Fixpoint dict_get {A} (key : string) (pairs : list (string * A)) : option A :=
  match pairs with
  | [] => None
  | (k, v) :: pairs' =>
      match dict_get key pairs' with
      | Some v' => Some v'
      | None => if decide (k = key) then Some v else None
      end
  end.

Definition popFlagsFromTheKey {A} (key : list A) (axistags flags : list string)
    : res (list A) :=
  let d := zip (axisTagsToString axistags) key in
  foldlM (λ newKey flag,
            if bool_decide (flag ∉ flags) then
              slice ← or_raise KeyError (dict_get flag d);
              Ok (newKey ++ [slice])
            else Ok newKey)
    [] (axisTagsToString axistags).

(** ** OpSingleChannelSelector *)

(** Modelled from the spec: [axistags.channelIndex], the position of the
    channel axis, or the number of axes when there is none. *)
Definition channelIndex (tags : list string) : nat :=
  default (length tags) (index_of "c" tags).

Module OpSingleChannelSelector.

Record t := mk {
  Input : Slot;
  Index : Z;
  Output : MetaDict
}.

Definition setupOutputs (op : t) : res t :=
  let channelAxis := channelIndex (axistags (meta (Input op))) in
  inshape ← get_shape (meta (Input op));
  _ ← (if decide (channelAxis < length inshape)%nat then Ok tt else Raise IndexError);
  let outshape := py_insert channelAxis 1 (py_pop channelAxis inshape) in
  let out := assignFrom (Output op) (meta (Input op)) in
  let out := set_shape (Some outshape) out in
  out ← match ideal_blockshape out with
         | Some ideal =>
             if bool_decide (length ideal = length inshape) then
               ideal' ← py_setitem channelAxis 1 ideal;
               Ok (set_ideal_blockshape (Some ideal') out)
             else Ok out
         | None => Ok out
         end;
  out ← match max_blockshape out with
         | Some mb =>
             if bool_decide (length mb = length inshape) then
               mb' ← py_setitem channelAxis 1 mb;
               Ok (set_max_blockshape (Some mb') out)
             else Ok out
         | None => Ok out
         end;
  (* Output can't be accessed unless the input has enough channels *)
  nch ← getTaggedShape (meta (Input op)) "c";
  if nch <=? Index op then Ok (mk (Input op) (Index op) (set_NOTREADY true out))
  else Ok (mk (Input op) (Index op) out).

Definition execute (op : t) (roi : Roi) (result : ndarray) : res ndarray :=
  let index := Index op in
  let channelIndex_ := channelIndex (axistags (meta (Input op))) in
  ishape ← get_shape (meta (Input op));
  nch ← or_raise IndexError (ishape !! channelIndex_);
  _ ← assert (index <? nch);
  (* Only ask for the channel we need *)
  let key := roiToSlice (start roi) (stop roi) in
  newKey ← py_setitem channelIndex_ (Slice index (index + 1)) key;
  blk ← slot_getitem (Input op) newKey;
  writeInto blk [] result.

(** The key handed to [Output.setDirty] for a notification on [Input]
    ([from_Input]), or [None] for [setDirty(slice(None))]. *)
Definition propagateDirty (op : t) (from_Input : bool) (roi : Roi)
    : res (option Key) :=
  let key := roiToSlice (start roi) (stop roi) in
  if from_Input then
    let channelIndex_ := channelIndex (axistags (meta (Input op))) in
    newKey ← py_setitem channelIndex_ (Slice 0 1) key;
    Ok (Some newKey)
  else Ok None.

End OpSingleChannelSelector.

(** ** OpSubRegion: requests and dirty propagation *)

(** [numpy.array((start, stop))]: the two rows must be equally long. *)
Definition np_array_rows (rows : Coord * Coord) : res (Coord * Coord) :=
  if bool_decide (length rows.1 = length rows.2) then Ok rows
  else Raise ValueError.

(** [rows += v] and [rows -= v] on a two-row array: [v] is applied to each
    row, a one-element [v] to every entry; other lengths do not broadcast. *)
Definition np_rows_inplace (f : Z → Z → Z) (rows : Coord * Coord) (v : Coord)
    : res (Coord * Coord) :=
  if bool_decide (length v = length rows.1) then
    Ok (zip_with f rows.1 v, zip_with f rows.2 v)
  else
    match v with
    | [x] => Ok ((λ y, f y x) <$> rows.1, (λ y, f y x) <$> rows.2)
    | _ => Raise ValueError
    end.

(** Modelled from the spec: [getIntersection(roiA, roiB, False)] of
    [lazyflow.roi] for ROIs of equal rank, the box from the larger start to
    the smaller stop, or [None] when that box has no point. *)
Definition getIntersection (roiA roiB : Coord * Coord) : option (Coord * Coord) :=
  let start := zip_with Z.max roiA.1 roiB.1 in
  let stop := zip_with Z.min roiA.2 roiB.2 in
  if existsb (λ d, d <=? 0) (tv_sub stop start) then None
  else Some (start, stop).

Module OpSubRegionRequests.

(** [Input_] is the slot whose metadata the operator record carries. *)
Definition execute (op : OpSubRegion.t) (Input_ : Slot) (output_roi : Roi)
    (result : ndarray) : res ndarray :=
  input_roi ← np_array_rows (start output_roi, stop output_roi);
  _roi ← or_raise TypeError (OpSubRegion._roi op);
  input_roi ← np_rows_inplace Z.add input_roi _roi.1;
  blk ← get Input_ input_roi.1 input_roi.2;
  writeInto blk [] result.

(** The notifications sent to [Output]. *)
Definition propagateDirty (op : OpSubRegion.t) (input_dirty_roi : Roi)
    : res (list Dirty) :=
  let input_dirty_roi := (start input_dirty_roi, stop input_dirty_roi) in
  _roi ← or_raise TypeError (OpSubRegion._roi op);
  if negb (bool_decide (length input_dirty_roi.1 = length _roi.1)) then
    (* The dimensionality of the data is changing. *)
    Ok []
  else
    match getIntersection input_dirty_roi _roi with
    | Some intersection =>
        output_dirty_roi ← np_array_rows intersection;
        output_dirty_roi ← np_rows_inplace Z.sub output_dirty_roi _roi.1;
        Ok [DirtyRoi (mkRoi output_dirty_roi.1 output_dirty_roi.2)]
    | None => Ok []
    end.

End OpSubRegionRequests.

(** ** OpMultiInputConcatenater *)

Module OpMultiInputConcatenater.

(** Modelled from the spec: a multi-port of the graph engine, an ordered
    container of sub-slots with stable identities.  A multi-slot of [Inputs]
    is its identity and the identities of its sub-slots, in order. *)
Record MultiSlot := mkMulti { ms_id : nat; ms_slots : list nat }.

(** [Output] lists, for each output sub-slot, the input sub-slot it is
    connected to ([None]: not connected); [subscribed] logs the multi-slots
    whose insert and remove notifications the operator has subscribed to. *)
Record t := mk {
  Inputs : list MultiSlot;
  Output : list (option nat);
  _numInputLists : nat;
  subscribed : list nat
}.

Fixpoint getOutputIndex_loop (inputMultiSlot : nat) (inputIndex : nat)
    (outputIndex : nat) (multislots : list MultiSlot) : res nat :=
  match multislots with
  | [] => Raise AssertionError
  | multislot :: rest =>
      if bool_decide (inputMultiSlot ≠ ms_id multislot) then
        (* Not the resized slot.  Skip all its subslots *)
        getOutputIndex_loop inputMultiSlot inputIndex
          (outputIndex + length (ms_slots multislot))%nat rest
      else
        (* Found the resized slot.  Add the offset and stop here. *)
        Ok (outputIndex + inputIndex)%nat
  end.

Definition getOutputIndex (op : t) (inputMultiSlot : nat) (inputIndex : nat)
    : res nat :=
  getOutputIndex_loop inputMultiSlot inputIndex 0 (Inputs op).

(** [resizedSlot[inputPosition]]: the multi-slot is found by its identity. *)
Definition subslot (op : t) (resizedSlot : nat) (inputPosition : nat) : res nat :=
  multislot ← or_raise KeyError
    (list_find (λ m, ms_id m = resizedSlot) (Inputs op));
  or_raise IndexError (ms_slots multislot.2 !! inputPosition).

(** Modelled from the spec: of the engine's multi-slot, [insertSlot(i, n)]
    puts a new, unconnected sub-slot at position [i], [removeSlot(i, n)] takes
    the sub-slot at position [i] out, and [connect] records the upstream
    sub-slot. *)
Definition handleInputInserted (op : t) (resizedSlot : nat) (inputPosition : nat)
    : res t :=
  (* Determine which output slot this corresponds to *)
  outputIndex ← getOutputIndex op resizedSlot inputPosition;
  (* Insert new output slot and connect it up. *)
  let output := py_insert outputIndex None (Output op) in
  s ← subslot op resizedSlot inputPosition;
  output ← py_setitem outputIndex (Some s) output;
  Ok (mk (Inputs op) output (_numInputLists op) (subscribed op)).

Definition handleInputRemoved (op : t) (resizedSlot : nat) (inputPosition : nat)
    : res t :=
  (* Determine which output slot this corresponds to *)
  outputIndex ← getOutputIndex op resizedSlot inputPosition;
  (* Remove the corresponding output slot *)
  _ ← (if decide (outputIndex < length (Output op))%nat then Ok tt
       else Raise IndexError);
  Ok (mk (Inputs op) (py_pop outputIndex (Output op)) (_numInputLists op)
        (subscribed op)).

(** Modelled from the spec: [Output.resize(n)] of the engine's multi-slot;
    surplus sub-slots are dropped, missing ones are added unconnected. *)
Definition resize (n : nat) (output : list (option nat)) : list (option nat) :=
  take n output ++ replicate (n - length output) None.

Definition setupOutputs (op : t) : res t :=
  if bool_decide (_numInputLists op = length (Inputs op)) then Ok op
  else
    let numInputLists := length (Inputs op) in
    (* First pass to determine output length *)
    let totalOutputLength :=
      foldl (λ total slot, total + length (ms_slots slot))%nat 0%nat (Inputs op) in
    let output := resize totalOutputLength (Output op) in
    (* Second pass to make connections and subscribe to future changes *)
    '(_, output, subs) ←
      foldlM (λ '(outputIndex, output, subs) slot,
                '(outputIndex, output) ←
                  foldlM (λ '(outputIndex, output) s,
                            output ← py_setitem outputIndex (Some s) output;
                            Ok (S outputIndex, output))
                    (outputIndex, output) (ms_slots slot);
                Ok (outputIndex, output, subs ++ [ms_id slot]))
        (0%nat, output, subscribed op) (Inputs op);
    Ok (mk (Inputs op) output numInputLists subs).

End OpMultiInputConcatenater.

(** ** OpPixelOperator *)

(** [numpy.array(values)] for a flat sequence of integers. *)
Definition np_array_1d (values : list Z) : ndarray :=
  mkArr [Z.of_nat (length values)]
    (λ q, match q with
          | [i] => if 0 <=? i then values !! Z.to_nat i else None
          | _ => None
          end).

(** [tuple(a)] for a one-dimensional array of integers. *)
Definition np_tuple_1d (a : ndarray) : res (list Z) :=
  match arr_shape a with
  | [n] => or_raise ValueError (mapM (λ i, arr_at a [i]) (py_range 0 n))
  | _ => Raise TypeError
  end.

(** [f(a)] for the array value [a] and an elementwise [f]. *)
Definition np_map (f : Z → Z) (a : ndarray) : ndarray :=
  mkArr (arr_shape a) (λ q, f <$> arr_at a q).

#[global] Instance Dtype_eq_dec : EqDecision Dtype.
Proof. solve_decision. Defined.

(** Which input slot a dirty notification arrives on. *)
Inductive PixelInput := PixelInputSlot | PixelFunction | PixelOther.

Module OpPixelOperator.

(** The value of the [Function] slot: a callable on arrays.  It sees the
    array's dtype and cells and returns those of its result, or raises. *)
Definition callable : Type := option Dtype → ndarray → res (option Dtype * ndarray).

(** [function] is the attribute [self.function] that [setupOutputs] stores
    and [execute] reads. *)
Record t := mk {
  Input : Slot;
  Function : callable;
  Output : MetaDict;
  function : callable
}.

Definition setupOutputs (op : t) : res t :=
  let function_ := Function op in
  let out := assignFrom (Output op) (meta (Input op)) in
  (* To determine the output dtype, we'll test the function on a tiny array. *)
  let testInputData := np_array_1d [1] in
  let testDtype := match dtype (meta (Input op)) with
                   | Some d => Some d
                   | None => Some int64
                   end in
  '(out_dtype, _) ← function_ testDtype testInputData;
  let out := set_dtype out_dtype out in
  (* Provide a default drange. *)
  out ← match drange (meta (Input op)) with
         | Some drange_in =>
             '(_, drange_out) ← function_ (Some int64) (np_array_1d drange_in);
             drange_out ← np_tuple_1d drange_out;
             Ok (set_drange (Some drange_out) out)
         | None => Ok out
         end;
  Ok (mk (Input op) (Function op) out function_).

Definition execute (op : t) (roi : Roi) (result : ndarray) : res ndarray :=
  let key := roiToSlice (start roi) (stop roi) in
  blk ← slot_getitem (Input op) key;
  (* Re-use the result array as a temporary variable (if possible) *)
  if bool_decide (dtype (meta (Input op)) = dtype (Output op)) then
    matrix ← writeInto blk [] result;
    '(_, value) ← function op (dtype (meta (Input op))) matrix;
    assign_all value matrix
  else
    let matrix := blk in
    '(_, value) ← function op (dtype (meta (Input op))) matrix;
    assign_all value result.

(** The argument of [Output.setDirty]: the notified ROI's key, or [None] for
    [slice(None)]. *)
Definition propagateDirty (op : t) (slot : PixelInput) (roi : Roi)
    : res (option Key) :=
  let key := roiToSlice (start roi) (stop roi) in
  match slot with
  | PixelInputSlot => Ok (Some key)
  | PixelFunction => Ok None
  | PixelOther => Raise AssertionError
  end.

End OpPixelOperator.

(** ** Reference notions and concrete configurations of the further operators *)

(** [k] is the position of the first maximum of [vals]. *)
Definition first_max (vals : list Z) (k : Z) : Prop :=
  0 ≤ k ∧
  ∃ v, vals !! Z.to_nat k = Some v ∧
    (∀ (j : nat) w, vals !! j = Some w → w ≤ v) ∧
    (∀ (j : nat) w, (j < Z.to_nat k)%nat → vals !! j = Some w → w < v).

(** The slicer of the array [A] along [flag] once configured with the index
    list [idxs]: one sub-output per listed index. *)
Definition indexed_slicer (A : Coord → Z) (mA : MetaDict) (flag : string)
    (outshape : list Z) (idxs : list Z) : OpMultiArraySlicer2.t :=
  OpMultiArraySlicer2.mk (array_slot mA A) flag (Some idxs)
    (replicate (length idxs) (slice_meta mA outshape)).

(** A selector of channel 1 of a 2x3x2 volume whose channel axis is in the
    middle; cell [(x, c, y)] holds [100 x + 10 c + y]. *)
Definition selector_channel_1 : OpSingleChannelSelector.t :=
  OpSingleChannelSelector.mk
    (array_slot
       (mkMeta (Some [2; 3; 2]) ["x"; "c"; "y"]%string (Some uint8) None
          (Some [1; 3; 2]) None false)
       (λ q, 100 * default 0 (q !! 0%nat) + 10 * default 0 (q !! 1%nat)
             + default 0 (q !! 2%nat)))
    1 empty_meta.

(** A 100x100 image whose cell [(x, y)] holds [1000 x + y], and the crop of
    its box from [(10, 20)] to [(20, 40)], before and after configuration. *)
Definition crop_input : Slot :=
  array_slot (meta_of [100; 100] ["x"; "y"]%string None)
    (λ q, 1000 * default 0 (q !! 0%nat) + default 0 (q !! 1%nat)).

Definition crop_10_20 : OpSubRegion.t :=
  OpSubRegion.mk (meta_of [100; 100] ["x"; "y"]%string None)
    ([10; 20], [20; 40]) empty_meta None.

Definition crop_10_20_configured : OpSubRegion.t :=
  OpSubRegion.mk (meta_of [100; 100] ["x"; "y"]%string None)
    ([10; 20], [20; 40])
    (meta_of [10; 20] ["x"; "y"]%string None)
    (Some ([10; 20], [20; 40])).

(** A 2x3 probability-like image with the channel axis last: at pixel [x] the
    channel [x + 1] holds the largest value. *)
Definition indicator_input : Slot :=
  array_slot (mkMeta (Some [2; 3]) ["x"; "c"]%string (Some float32) None None None false)
    (λ q, 10 - (default 0 (q !! 1%nat) - default 0 (q !! 0%nat) - 1)
               * (default 0 (q !! 1%nat) - default 0 (q !! 0%nat) - 1)).

(** A channel selector exposing the channels 2, 0 and 0 of a 5x4 image with
    block-shape hints. *)
Definition selector_2_0_0 : OpMultiChannelSelector.t :=
  OpMultiChannelSelector.mk
    (array_slot
       (mkMeta (Some [5; 4]) ["x"; "c"]%string (Some uint8) None
          (Some [5; 4]) (Some [5; 4]) false)
       (λ q, 10 * default 0 (q !! 0%nat) + default 0 (q !! 1%nat)))
    [2; 0; 0] empty_meta.

(** A concatenater of two input lists, multi-slot 0 with the sub-slots 10, 11
    and multi-slot 1 with the sub-slots 20, 21, 22: freshly created, with its
    output connected, and with an output that does not list sub-slot 21
    yet. *)
Definition concatenater_two_lists : OpMultiInputConcatenater.t :=
  OpMultiInputConcatenater.mk
    [OpMultiInputConcatenater.mkMulti 0 [10; 11]%nat;
     OpMultiInputConcatenater.mkMulti 1 [20; 21; 22]%nat]
    [] 0 [].

Definition concatenater_connected : OpMultiInputConcatenater.t :=
  OpMultiInputConcatenater.mk
    [OpMultiInputConcatenater.mkMulti 0 [10; 11]%nat;
     OpMultiInputConcatenater.mkMulti 1 [20; 21; 22]%nat]
    (Some <$> [10; 11; 20; 21; 22]%nat) 2 [0; 1]%nat.

Definition concatenater_before_insert : OpMultiInputConcatenater.t :=
  OpMultiInputConcatenater.mk
    [OpMultiInputConcatenater.mkMulti 0 [10; 11]%nat;
     OpMultiInputConcatenater.mkMulti 1 [20; 21; 22]%nat]
    (Some <$> [10; 11; 20; 22]%nat) 2 [0; 1]%nat.

(** The slicer of the operator's comment once configured: three sub-outputs
    of shape 1x3 for the slices 2, 4 and 6. *)
Definition slicer_246_configured : OpMultiArraySlicer2.t :=
  indexed_slicer (λ q, default 0 (q !! 0%nat))
    (meta_of [8; 3] ["t"; "x"]%string None) "t" [1; 3] [2; 4; 6].

(** Modelled from the spec: a slot that was given a value ([setValue]) instead
    of a connection.  It has metadata and answers requests with the value,
    and its [upstream_slot] is [None]. *)
Definition value_slot (m : MetaDict) (A : Coord → Z) : Slot :=
  mkSlot m false (get (array_slot m A)).

(** A stacker along ["x"] of three images, the second of which holds a value
    and has no upstream connection. *)
Definition stacker_with_gap : OpMultiArrayStacker.t :=
  OpMultiArrayStacker.mk
    [array_slot (meta_of [2; 2] ["x"; "y"]%string None) (λ _, 1);
     value_slot (meta_of [2; 2] ["x"; "y"]%string None) (λ _, 7);
     array_slot (meta_of [3; 2] ["x"; "y"]%string None) (λ _, 2)]
    "x" None empty_meta [].

(** The same with a second source whose metadata was never assigned. *)
Definition stacker_with_unassigned : OpMultiArrayStacker.t :=
  OpMultiArrayStacker.mk
    [array_slot (meta_of [2; 2] ["x"; "y"]%string None) (λ _, 1);
     mkSlot empty_meta false (λ _ _, Raise AssertionError);
     array_slot (meta_of [3; 2] ["x"; "y"]%string None) (λ _, 2)]
    "x" None empty_meta [].

(** [lambda x: numpy.minimum(x, 50)]: values above 50 are clipped.  The
    result keeps the array's dtype, and 50 is a value of every dtype, so that
    no cell leaves the dtype's range. *)
Definition clip_at_50 : OpPixelOperator.callable :=
  λ d a, Ok (d, np_map (λ x, Z.min x 50) a).

(** A pixel operator clipping a 4x4 image whose cell [(x, y)] holds
    [30 x + y] and whose value range is (0, 100). *)
Definition pixel_clipper : OpPixelOperator.t :=
  OpPixelOperator.mk
    (array_slot (meta_of [4; 4] ["x"; "y"]%string (Some [0; 100]))
       (λ q, 30 * default 0 (q !! 0%nat) + default 0 (q !! 1%nat)))
    clip_at_50 empty_meta clip_at_50.

(** * Properties *)

(** ** The error monad and list helpers *)

Lemma bind_Ok {A B} (m : res A) (k : A → res B) (b : B) :
  m ≫= k = Ok b ↔ ∃ a, m = Ok a ∧ k a = Ok b.
Proof.
  destruct m as [a|e]; simpl.
  - split; [intros H; by exists a|intros (a' & [= <-] & H); done].
  - split; [done|intros (a' & [=] & _)].
Qed.

Lemma tv_ge_any_true (a b : Coord) :
  tv_ge_any a b = true ↔ ∃ i x y, a !! i = Some x ∧ b !! i = Some y ∧ y ≤ x.
Proof.
  unfold tv_ge_any. revert b. induction a as [|x a IH]; intros [|y b]; simpl.
  - split; [done|]. intros (i & ? & ? & H & _). by destruct i.
  - split; [done|]. intros (i & ? & ? & H & _). by destruct i.
  - split; [done|]. intros (i & ? & ? & _ & H & _). by destruct i.
  - rewrite orb_true_iff, IH, Z.leb_le. split.
    + intros [H|(i & x' & y' & H1 & H2 & H3)].
      * by exists 0%nat, x, y.
      * by exists (S i), x', y'.
    + intros (i & x' & y' & H1 & H2 & H3). destruct i as [|i]; simpl in *.
      * left. congruence.
      * right. by exists i, x', y'.
Qed.

Lemma tv_sub_lookup (a b : Coord) (i : nat) (x y : Z) :
  a !! i = Some x → b !! i = Some y → tv_sub b a !! i = Some (y - x).
Proof.
  intros Ha Hb. unfold tv_sub. rewrite lookup_zip_with, Hb. simpl. by rewrite Ha.
Qed.

Lemma tv_sub_length (a b : Coord) :
  length a = length b → length (tv_sub b a) = length a.
Proof. intros H. unfold tv_sub. rewrite length_zip_with. lia. Qed.

(** ** OpSubRegion *)

(** C5: a Roi whose dimensionality differs from the Input shape's, or with
    [start >= stop] on some axis, leaves the Output marked not-ready and
    writes no shape; otherwise the output shape is [stop - start],
    componentwise. *)
Theorem subregion_setupOutputs_spec
    (op : OpSubRegion.t) (a b shp : list Z) :
  OpSubRegion.Roi op = (a, b) →
  shape (OpSubRegion.Input op) = Some shp →
  ∃ op', OpSubRegion.setupOutputs op = Ok op' ∧
    ((length a ≠ length shp ∨ length b ≠ length shp ∨
      (∃ i x y, a !! i = Some x ∧ b !! i = Some y ∧ y ≤ x)) →
       NOTREADY (OpSubRegion.Output op') = true ∧
       ready (OpSubRegion.Output op') = false ∧
       shape (OpSubRegion.Output op') = shape (OpSubRegion.Output op)) ∧
    (length a = length shp → length b = length shp →
     (∀ i x y, a !! i = Some x → b !! i = Some y → x < y) →
       NOTREADY (OpSubRegion.Output op') = NOTREADY (OpSubRegion.Input op) ∧
       shape (OpSubRegion.Output op') = Some (tv_sub b a) ∧
       length (tv_sub b a) = length shp ∧
       ∀ i x y, a !! i = Some x → b !! i = Some y →
                tv_sub b a !! i = Some (y - x)).
Proof.
  intros HR Hs. unfold OpSubRegion.setupOutputs, get_shape.
  rewrite HR, Hs. simpl.
  destruct (bool_decide (length a = length b)) eqn:E1;
    [apply bool_decide_eq_true in E1|apply bool_decide_eq_false in E1];
  (destruct (bool_decide (length b = length shp)) eqn:E2;
    [apply bool_decide_eq_true in E2|apply bool_decide_eq_false in E2]); simpl;
  try (eexists; split; [reflexivity|]; simpl; split;
       [intros _; unfold ready; simpl; by rewrite andb_false_r
       |intros; exfalso; lia]).
  destruct (tv_ge_any a b) eqn:E3.
  - eexists; split; [reflexivity|]; simpl. split.
    + intros _. unfold ready; simpl. by rewrite andb_false_r.
    + intros _ _ Hlt. apply tv_ge_any_true in E3 as (i & x & y & H1 & H2 & H3).
      specialize (Hlt i x y H1 H2). lia.
  - eexists; split; [reflexivity|]; simpl. split.
    + intros [H|[H|H]]; [lia|lia|].
      apply tv_ge_any_true in H. congruence.
    + intros _ _ _. repeat split; auto using tv_sub_lookup.
      rewrite tv_sub_length; lia.
Qed.

Lemma subregion_setupOutputs_witness :
  ∃ op', OpSubRegion.setupOutputs
           (OpSubRegion.mk (mkMeta (Some [100; 100]) ["x"; "y"]%string (Some uint8)
                              None None None false)
              ([10; 20], [10; 30]) empty_meta None) = Ok op' ∧
    ((length [10; 20] ≠ length [100; 100] ∨ length [10; 30] ≠ length [100; 100] ∨
      (∃ i x y, [10; 20] !! i = Some x ∧ [10; 30] !! i = Some y ∧ y ≤ x)) →
       NOTREADY (OpSubRegion.Output op') = true ∧
       ready (OpSubRegion.Output op') = false ∧
       shape (OpSubRegion.Output op') = shape empty_meta) ∧
    (length [10; 20] = length [100; 100] → length [10; 30] = length [100; 100] →
     (∀ i x y, [10; 20] !! i = Some x → [10; 30] !! i = Some y → x < y) →
       NOTREADY (OpSubRegion.Output op') = false ∧
       shape (OpSubRegion.Output op') = Some (tv_sub [10; 30] [10; 20]) ∧
       length (tv_sub [10; 30] [10; 20]) = length [100; 100] ∧
       ∀ i x y, [10; 20] !! i = Some x → [10; 30] !! i = Some y →
                tv_sub [10; 30] [10; 20] !! i = Some (y - x)).
Proof.
  apply (subregion_setupOutputs_spec
           (OpSubRegion.mk (mkMeta (Some [100; 100]) ["x"; "y"]%string (Some uint8)
                              None None None false)
              ([10; 20], [10; 30]) empty_meta None)
           [10; 20] [10; 30] [100; 100]); reflexivity.
Defined.

(** ** OpMultiChannelSelector: configuration *)

Lemma existsb_elem_of {A} (f : A → bool) (l : list A) :
  existsb f l = true ↔ ∃ x, x ∈ l ∧ f x = true.
Proof.
  rewrite existsb_exists. split; intros (x & H1 & H2); exists x; split; auto;
    by apply list_elem_of_In.
Qed.

(** An empty selection never produces a ready output, whatever the input. *)
Lemma selector_empty_never_ready (op op' : OpMultiChannelSelector.t) :
  OpMultiChannelSelector.SelectedChannels op = [] →
  OpMultiChannelSelector.setupOutputs op = Ok op' →
  NOTREADY (OpMultiChannelSelector.Output op') = true.
Proof.
  intros Hsel. unfold OpMultiChannelSelector.setupOutputs.
  destruct (py_last _) as [k|]; simpl; [|done].
  destruct (bool_decide (k = "c"%string)); simpl; [|done].
  destruct (getTaggedShape _ _) as [n|]; simpl; [|done].
  rewrite Hsel. simpl. by intros [= <-].
Qed.

(** C10: with the channel axis last, [setupOutputs] marks the Output
    not-ready when some selected channel is at least the input's channel
    count, and also when the selection is empty; no shape is written. *)
Theorem selector_setupOutputs_not_ready
    (op : OpMultiChannelSelector.t) (nch : Z) :
  last (axistags (meta (OpMultiChannelSelector.Input op))) = Some "c"%string →
  getTaggedShape (meta (OpMultiChannelSelector.Input op)) "c" = Ok nch →
  (OpMultiChannelSelector.SelectedChannels op = [] ∨
   ∃ x, x ∈ OpMultiChannelSelector.SelectedChannels op ∧ nch ≤ x) →
  ∃ op', OpMultiChannelSelector.setupOutputs op = Ok op' ∧
    NOTREADY (OpMultiChannelSelector.Output op') = true ∧
    ready (OpMultiChannelSelector.Output op') = false ∧
    shape (OpMultiChannelSelector.Output op') =
      shape (OpMultiChannelSelector.Output op).
Proof.
  intros Hlast Htag Hsel. unfold OpMultiChannelSelector.setupOutputs, py_last.
  rewrite Hlast. simpl. rewrite Htag. simpl.
  assert (bool_decide (length (OpMultiChannelSelector.SelectedChannels op) = 0%nat)
          || existsb (λ x, nch <=? x) (OpMultiChannelSelector.SelectedChannels op)
          = true) as ->.
  { apply orb_true_iff. destruct Hsel as [->|(x & Hx & Hle)].
    - by left.
    - right. apply existsb_elem_of. exists x. split; [done|]. by apply Z.leb_le. }
  eexists. split; [reflexivity|]. simpl. unfold ready. simpl.
  by rewrite andb_false_r.
Qed.

Lemma selector_setupOutputs_not_ready_witness :
  ∃ op', OpMultiChannelSelector.setupOutputs
           (OpMultiChannelSelector.mk
              (array_slot (mkMeta (Some [5; 4]) ["x"; "c"]%string (Some uint8)
                             None None None false) (λ _, 0))
              [] empty_meta) = Ok op' ∧
    NOTREADY (OpMultiChannelSelector.Output op') = true ∧
    ready (OpMultiChannelSelector.Output op') = false ∧
    shape (OpMultiChannelSelector.Output op') = shape empty_meta.
Proof.
  apply (selector_setupOutputs_not_ready
           (OpMultiChannelSelector.mk
              (array_slot (mkMeta (Some [5; 4]) ["x"; "c"]%string (Some uint8)
                             None None None false) (λ _, 0))
              [] empty_meta) 4).
  - reflexivity.
  - reflexivity.
  - left. reflexivity.
Defined.

(** ** OpMaxChannelIndicatorOperator *)

Lemma py_init_snoc {A} (l : list A) (x : A) : py_init (l ++ [x]) = l.
Proof.
  unfold py_init. rewrite length_app. simpl.
  replace (length l + 1 - 1)%nat with (length l) by lia.
  by rewrite take_app_length.
Qed.

Lemma toSlice_snoc (ks ke : Coord) (cs ce : Z) :
  length ks = length ke →
  roiToSlice (ks ++ [cs]) (ke ++ [ce]) = roiToSlice ks ke ++ [Slice cs ce].
Proof. intros H. unfold roiToSlice. by rewrite zip_with_app. Qed.

Lemma maxchannel_execute_unfold
    (op : OpMaxChannelIndicatorOperator.t) (ks ke : Coord) (cs ce : Z)
    (result : ndarray) :
  length ks = length ke →
  OpMaxChannelIndicatorOperator.execute op (mkRoi (ks ++ [cs]) (ke ++ [ce])) result =
    if negb (ce - cs =? 1) then ([], Raise InvalidRoiException)
    else ([roiToSlice ks ke ++ [SliceAll]],
          data ← slot_getitem (OpMaxChannelIndicatorOperator.Input op)
                   (roiToSlice ks ke ++ [SliceAll]);
          if negb (np_any data) then Ok (fill_all 0 result)
          else am ← np_argmax_last data;
               assign_all (np_eq_uint8_newaxis am cs) result).
Proof.
  intros H. unfold OpMaxChannelIndicatorOperator.execute,
    OpMaxChannelIndicatorOperator.toSlice. simpl.
  rewrite toSlice_snoc by done. rewrite last_snoc, py_init_snoc. done.
Qed.

(** C6: a ROI whose channel extent is not exactly 1 makes [execute] raise
    [InvalidRoiException] with no request issued to the input; with channel
    extent 1 the single request for all channels is issued and [execute]
    does not raise that exception once the request has delivered its block. *)
Theorem maxchannel_execute_channel_guard
    (op : OpMaxChannelIndicatorOperator.t) (ks ke : Coord) (cs ce : Z)
    (result : ndarray) :
  length ks = length ke →
  (ce - cs ≠ 1 →
     OpMaxChannelIndicatorOperator.execute op (mkRoi (ks ++ [cs]) (ke ++ [ce])) result
     = ([], Raise InvalidRoiException)) ∧
  (ce - cs = 1 →
     (OpMaxChannelIndicatorOperator.execute op (mkRoi (ks ++ [cs]) (ke ++ [ce])) result).1
     = [roiToSlice ks ke ++ [SliceAll]] ∧
     ∀ data,
       slot_getitem (OpMaxChannelIndicatorOperator.Input op)
         (roiToSlice ks ke ++ [SliceAll]) = Ok data →
       (OpMaxChannelIndicatorOperator.execute op
          (mkRoi (ks ++ [cs]) (ke ++ [ce])) result).2
       ≠ Raise InvalidRoiException).
Proof.
  intros Hlen. rewrite maxchannel_execute_unfold by done. split.
  - intros Hne. apply Z.eqb_neq in Hne. by rewrite Hne.
  - intros Heq. apply Z.eqb_eq in Heq. rewrite Heq. simpl. split; [done|].
    intros data ->. simpl. destruct (np_any data); simpl; [|done].
    unfold np_argmax_last, py_last. destruct (last (arr_shape data)); simpl; [|done].
    destruct (_ <=? 0); simpl; [done|]. unfold assign_all.
    by destruct (bool_decide _).
Qed.

Lemma maxchannel_execute_channel_guard_witness :
  (3 - 1 ≠ 1 →
     OpMaxChannelIndicatorOperator.execute
       (OpMaxChannelIndicatorOperator.mk
          (array_slot (mkMeta (Some [2; 3]) ["x"; "c"]%string (Some float32)
                         None None None false) (λ _, 0)) empty_meta)
       (mkRoi ([0] ++ [1]) ([2] ++ [3])) (np_empty [2; 2])
     = ([], Raise InvalidRoiException)) ∧
  (3 - 1 = 1 →
     (OpMaxChannelIndicatorOperator.execute
       (OpMaxChannelIndicatorOperator.mk
          (array_slot (mkMeta (Some [2; 3]) ["x"; "c"]%string (Some float32)
                         None None None false) (λ _, 0)) empty_meta)
       (mkRoi ([0] ++ [1]) ([2] ++ [3])) (np_empty [2; 2])).1
     = [roiToSlice [0] [2] ++ [SliceAll]] ∧
     ∀ data,
       slot_getitem
         (array_slot (mkMeta (Some [2; 3]) ["x"; "c"]%string (Some float32)
                        None None None false) (λ _, 0))
         (roiToSlice [0] [2] ++ [SliceAll]) = Ok data →
       (OpMaxChannelIndicatorOperator.execute
          (OpMaxChannelIndicatorOperator.mk
             (array_slot (mkMeta (Some [2; 3]) ["x"; "c"]%string (Some float32)
                            None None None false) (λ _, 0)) empty_meta)
          (mkRoi ([0] ++ [1]) ([2] ++ [3])) (np_empty [2; 2])).2
       ≠ Raise InvalidRoiException).
Proof.
  apply (maxchannel_execute_channel_guard
           (OpMaxChannelIndicatorOperator.mk
              (array_slot (mkMeta (Some [2; 3]) ["x"; "c"]%string (Some float32)
                             None None None false) (λ _, 0)) empty_meta)
           [0] [2] 1 3 (np_empty [2; 2])).
  reflexivity.
Defined.

Lemma elem_of_py_range (a b x : Z) : x ∈ py_range a b ↔ a ≤ x < b.
Proof.
  unfold py_range. rewrite list_elem_of_fmap. split.
  - intros (k & -> & Hk). apply elem_of_seq in Hk. lia.
  - intros H. exists (Z.to_nat (x - a)). split; [lia|].
    apply elem_of_seq. lia.
Qed.

Lemma ndindex_in_box (shp : list Z) (l : Coord) :
  l ∈ ndindex shp → in_box shp l = true.
Proof.
  revert l. induction shp as [|n shp IH]; intros l; simpl.
  - intros ->%list_elem_of_singleton. done.
  - intros (x & Hl & Hx)%list_elem_of_bind.
    apply list_elem_of_fmap in Hl as (q & -> & Hq).
    apply elem_of_py_range in Hx. simpl.
    rewrite IH by done.
    replace (0 <=? x) with true by (symmetry; apply Z.leb_le; lia).
    replace (x <? n) with true by (symmetry; apply Z.ltb_lt; lia). done.
Qed.

Lemma in_box_length (shp : list Z) (q : Coord) :
  in_box shp q = true → length q = length shp.
Proof.
  revert q. induction shp as [|n shp IH]; intros [|x q]; simpl; try done.
  intros (_ & H)%andb_true_iff. by rewrite (IH q H).
Qed.

Lemma in_box_app (s1 s2 : list Z) (q1 q2 : Coord) :
  length q1 = length s1 →
  in_box (s1 ++ s2) (q1 ++ q2) = in_box s1 q1 && in_box s2 q2.
Proof.
  revert q1. induction s1 as [|n s1 IH]; intros [|x q1]; simpl; try done.
  intros [= H]. rewrite IH by done. by rewrite andb_assoc.
Qed.

Lemma in_box_split (s1 s2 : list Z) (q : Coord) :
  in_box (s1 ++ s2) q = true →
  ∃ q1 q2, q = q1 ++ q2 ∧ in_box s1 q1 = true ∧ in_box s2 q2 = true.
Proof.
  intros H. exists (take (length s1) q), (drop (length s1) q).
  assert (Hl := in_box_length _ _ H). rewrite length_app in Hl.
  rewrite <- (take_drop (length s1) q) in H at 1.
  rewrite in_box_app in H by (rewrite length_take; lia).
  apply andb_true_iff in H as [? ?]. by rewrite take_drop.
Qed.

Lemma np_any_false (a : ndarray) :
  (∀ l, in_box (arr_shape a) l = true → arr_at a l = Some 0) →
  np_any a = false.
Proof.
  intros Hz. unfold np_any. destruct (existsb _ _) eqn:E; [|done].
  apply existsb_elem_of in E as (l & Hl & Hv).
  apply ndindex_in_box in Hl. by rewrite (Hz l Hl) in Hv.
Qed.

Lemma argmax_from_zeros (bi i : Z) (l : list Z) :
  Forall (λ v, v = 0) l → argmax_from bi 0 i l = bi.
Proof.
  intros H. revert i. induction H as [|x l -> _ IH]; intros i; simpl; [done|].
  apply IH.
Qed.

Lemma mapM_zero_cells (f : Z → option Z) (cs : list Z) :
  (∀ c, c ∈ cs → f c = Some 0) →
  ∃ vals, mapM f cs = Some vals ∧ length vals = length cs ∧
          Forall (λ v, v = 0) vals.
Proof.
  induction cs as [|c cs IH]; intros H; simpl.
  - by exists [].
  - destruct IH as (vals & E & Hl & Hz).
    { intros c' Hc'. apply H. by right. }
    rewrite (H c) by left. simpl. rewrite E. simpl.
    exists (0 :: vals). simpl. repeat split; auto.
Qed.

(** C9: when the block fetched for the ROI is entirely zero, [execute] fills
    the whole result with 0, for whichever channel was requested; the argmax
    rule alone would have reported 1 at every pixel for channel 0. *)
Theorem maxchannel_execute_all_zero
    (op : OpMaxChannelIndicatorOperator.t) (ks ke : Coord) (cs ce : Z)
    (result data : ndarray) :
  length ks = length ke →
  ce - cs = 1 →
  slot_getitem (OpMaxChannelIndicatorOperator.Input op)
    (roiToSlice ks ke ++ [SliceAll]) = Ok data →
  (∀ l, in_box (arr_shape data) l = true → arr_at data l = Some 0) →
  ∃ result',
    (OpMaxChannelIndicatorOperator.execute op
       (mkRoi (ks ++ [cs]) (ke ++ [ce])) result).2 = Ok result' ∧
    arr_shape result' = arr_shape result ∧
    (∀ q, in_box (arr_shape result) q = true → arr_at result' q = Some 0) ∧
    (∀ q, in_box (arr_shape result) q = false → arr_at result' q = arr_at result q) ∧
    (∀ am, np_argmax_last data = Ok am →
       ∀ q, in_box (arr_shape am ++ [1]) q = true →
            arr_at (np_eq_uint8_newaxis am 0) q = Some 1).
Proof.
  intros Hlen Hone Hget Hz. rewrite maxchannel_execute_unfold by done.
  apply Z.eqb_eq in Hone. rewrite Hone. simpl. rewrite Hget. simpl.
  rewrite np_any_false by done. simpl. eexists. split; [reflexivity|].
  simpl. split; [done|]. split; [|split].
  - intros q Hq. by rewrite Hq.
  - intros q Hq. by rewrite Hq.
  - intros am. unfold np_argmax_last, py_last.
    destruct (last (arr_shape data)) as [nch|] eqn:Elast; simpl; [|done].
    destruct (nch <=? 0) eqn:Ench; simpl; [done|]. intros [= <-]. simpl.
    apply Z.leb_gt in Ench.
    intros q Hq. apply in_box_split in Hq as (px & q2 & -> & Hpx & Hq2).
    destruct q2 as [|c [|? ?]]; simpl in Hq2; rewrite ?andb_false_r in Hq2;
      try done.
    assert (c = 0) as -> by lia.
    rewrite last_snoc, py_init_snoc. simpl. rewrite Hpx. simpl.
    assert (arr_shape data = py_init (arr_shape data) ++ [nch]) as Hshape.
    { destruct (arr_shape data) as [|s0 ss] using rev_ind; [done|].
      rewrite last_snoc in Elast. injection Elast as ->.
      by rewrite py_init_snoc. }
    destruct (mapM_zero_cells (λ c, arr_at data (px ++ [c])) (py_range 0 nch))
      as (vals & -> & Hvl & Hvz).
    { intros c Hc%elem_of_py_range. apply Hz. rewrite Hshape.
      rewrite in_box_app by (by apply in_box_length).
      rewrite Hpx. simpl.
      replace (0 <=? c) with true by (symmetry; apply Z.leb_le; lia).
      replace (c <? nch) with true by (symmetry; apply Z.ltb_lt; lia). done. }
    simpl. destruct vals as [|v vals].
    { exfalso. unfold py_range in Hvl. rewrite length_fmap, length_seq in Hvl.
      simpl in Hvl. lia. }
    apply Forall_cons in Hvz as [-> Hvz]. simpl.
    by rewrite argmax_from_zeros.
Qed.

Lemma maxchannel_execute_all_zero_witness :
  ∃ result',
    (OpMaxChannelIndicatorOperator.execute
       (OpMaxChannelIndicatorOperator.mk
          (array_slot (mkMeta (Some [2; 3]) ["x"; "c"]%string (Some float32)
                         None None None false) (λ _, 0)) empty_meta)
       (mkRoi ([0] ++ [0]) ([2] ++ [1])) (np_empty [2; 1])).2 = Ok result' ∧
    arr_shape result' = arr_shape (np_empty [2; 1]) ∧
    (∀ q, in_box (arr_shape (np_empty [2; 1])) q = true → arr_at result' q = Some 0) ∧
    (∀ q, in_box (arr_shape (np_empty [2; 1])) q = false →
          arr_at result' q = arr_at (np_empty [2; 1]) q) ∧
    (∀ am, np_argmax_last (block_of (λ _, 0) [0; 0] [2; 3]) = Ok am →
       ∀ q, in_box (arr_shape am ++ [1]) q = true →
            arr_at (np_eq_uint8_newaxis am 0) q = Some 1).
Proof.
  apply (maxchannel_execute_all_zero
           (OpMaxChannelIndicatorOperator.mk
              (array_slot (mkMeta (Some [2; 3]) ["x"; "c"]%string (Some float32)
                             None None None false) (λ _, 0)) empty_meta)
           [0] [2] 0 1 (np_empty [2; 1]) (block_of (λ _, 0) [0; 0] [2; 3])).
  - reflexivity.
  - reflexivity.
  - reflexivity.
  - intros l Hl. simpl in *. by rewrite Hl.
Defined.

(** ** OpMultiArrayMerger: value range *)

Lemma collect_dranges_spec (acc : list (list Z)) (slots : list MetaDict) :
  OpMultiArrayMerger.collect_dranges acc slots =
    match mapM drange slots with
    | Some ds => acc ++ ds
    | None => []
    end.
Proof.
  revert acc. induction slots as [|m slots IH]; intros acc; simpl.
  - by rewrite app_nil_r.
  - destruct (drange m) as [dr|]; simpl; [|done].
    rewrite IH. destruct (mapM drange slots); simpl; [|done].
    by rewrite <- app_assoc.
Qed.

(** What the configuration step leaves in the output's value range: the
    merged range when every input has one, and otherwise whatever the copy of
    the first input's metadata carried. *)
Lemma merger_setupOutputs_drange
    (op op' : OpMultiArrayMerger.t) (first_meta : MetaDict) :
  OpMultiArrayMerger.Inputs op !! 0%nat = Some first_meta →
  OpMultiArrayMerger.setupOutputs op = Ok op' →
  drange (OpMultiArrayMerger.Output op') =
    match mapM drange (OpMultiArrayMerger.Inputs op) with
    | Some ds => Some (OpMultiArrayMerger.MergingFunction op ds)
    | None => drange first_meta
    end.
Proof.
  intros Hfirst. unfold OpMultiArrayMerger.setupOutputs. rewrite Hfirst. simpl.
  destruct (foldlM _ _ _); simpl; [|done]. intros [= <-]. simpl.
  rewrite collect_dranges_spec. simpl.
  destruct (OpMultiArrayMerger.Inputs op) as [|m ms]; [done|].
  simpl in Hfirst. injection Hfirst as ->. simpl.
  destruct (drange first_meta) as [dr|] eqn:E; simpl; [|done].
  destruct (mapM drange ms); simpl; done.
Qed.

(** C7, at the configuration [merger_mixed_ranges]: the second input has no
    value range, yet the configured output carries the range [(0, 255)] that
    the copy of the first input's metadata brought along. *)
Theorem merger_drange_inherited_from_first :
  ∃ op', OpMultiArrayMerger.setupOutputs merger_mixed_ranges = Ok op' ∧
    (∃ m, OpMultiArrayMerger.Inputs merger_mixed_ranges !! 1%nat = Some m ∧
          drange m = None) ∧
    drange (OpMultiArrayMerger.Output op') = Some [0; 255].
Proof.
  eexists. split; [reflexivity|]. split; [|reflexivity].
  eexists. split; reflexivity.
Qed.

(** ** OpMultiArraySlicer2: dirty propagation *)

(** C4, at the configuration [slicer_246]: a dirty region covering position 2
    of the sliced axis is delivered to [Slices[2]], whose recorded index is 6,
    and not to [Slices[0]], whose recorded index is 2; a dirty region covering
    position 4 is delivered to no sub-output although 4 is exposed. *)
Theorem slicer_dirty_uses_position_as_slot :
  ∃ op, OpMultiArraySlicer2.setupOutputs slicer_246 = Ok op ∧
    length (OpMultiArraySlicer2.Slices op) = 3%nat ∧
    OpMultiArraySlicer2.getSliceIndexes op = Ok [2; 4; 6] ∧
    OpMultiArraySlicer2.propagateDirty op SlicerInputSlot (mkRoi [2; 0] [3; 3])
      = Ok [(2%nat, DirtyRoi (mkRoi [0; 0] [1; 3]))] ∧
    OpMultiArraySlicer2.propagateDirty op SlicerInputSlot (mkRoi [4; 0] [5; 3])
      = Ok [].
Proof.
  eexists. split; [reflexivity|]. repeat split; reflexivity.
Qed.

(** ** OpMultiArrayStacker: dirty propagation *)


(** Whatever the engine's [propagateDirtyIfNewModTime] does, the stacker's
    answer cannot depend on the notified sub-box or on the notifying source. *)
Lemma stacker_propagateDirty_ignores_roi
    (h : OpMultiArrayStacker.t → list Dirty) (op : OpMultiArrayStacker.t)
    (slot : StackerInput) (i i' : nat) (roi roi' : Roi) :
  OpMultiArrayStacker.propagateDirty_with h op slot i roi
  = OpMultiArrayStacker.propagateDirty_with h op slot i' roi'.
Proof. reflexivity. Qed.

(** Hence no behaviour of [propagateDirtyIfNewModTime] makes the reported
    region the shifted sub-box for both sources of [stacker_two_sources]. *)
Lemma stacker_dirty_not_exact_for_any_engine
    (h : OpMultiArrayStacker.t → list Dirty) (op : OpMultiArrayStacker.t) :
  OpMultiArrayStacker.setupOutputs stacker_two_sources = Ok op →
  ¬ ((∃ ds, OpMultiArrayStacker.propagateDirty_with h op StackerImages 0
              (mkRoi [0; 0] [1; 1]) = Ok ds ∧
            dirty_box [4; 2] <$> ds
            = [shifted_dirty_box 0 0 (mkRoi [0; 0] [1; 1])]) ∧
     (∃ ds, OpMultiArrayStacker.propagateDirty_with h op StackerImages 1
              (mkRoi [0; 0] [1; 1]) = Ok ds ∧
            dirty_box [4; 2] <$> ds
            = [shifted_dirty_box 0 2 (mkRoi [0; 0] [1; 1])])).
Proof.
  intros _ [(ds0 & H0 & E0) (ds1 & H1 & E1)].
  rewrite (stacker_propagateDirty_ignores_roi h op StackerImages 1 0
             (mkRoi [0; 0] [1; 1]) (mkRoi [0; 0] [1; 1])) in H1.
  rewrite H0 in H1. injection H1 as <-. rewrite E0 in E1. discriminate.
Qed.

(** ** Views *)

Lemma resolve_key_nil (shp : list Z) :
  resolve_key shp [] = Ok (RSlice 0 <$> shp).
Proof. induction shp as [|n shp IH]; simpl; [done|]. by rewrite IH. Qed.

Lemma resolve_key_app (s1 s2 : list Z) (k1 k2 : Key) :
  length s1 = length k1 →
  resolve_key (s1 ++ s2) (k1 ++ k2) =
    r1 ← resolve_key s1 k1; r2 ← resolve_key s2 k2; Ok (r1 ++ r2).
Proof.
  revert k1. induction s1 as [|n s1 IH]; intros [|it k1]; simpl; try done.
  - intros _. by destruct (resolve_key s2 k2).
  - intros [= H]. destruct (resolve_item n it); simpl; [|done].
    rewrite IH by done. destruct (resolve_key s1 k1); simpl; [|done].
    by destruct (resolve_key s2 k2).
Qed.

Lemma resolve_key_all (shp : list Z) :
  resolve_key shp (replicate (length shp) SliceAll) = Ok (RSlice 0 <$> shp).
Proof. induction shp as [|n shp IH]; simpl; [done|]. by rewrite IH. Qed.

Lemma view_shape_app (r1 r2 : list ritem) :
  view_shape (r1 ++ r2) = view_shape r1 ++ view_shape r2.
Proof.
  induction r1 as [|[lo len|i] r1 IH]; simpl; [done| |done]. by rewrite IH.
Qed.

Lemma view_shape_full (shp : list Z) : view_shape (RSlice 0 <$> shp) = shp.
Proof.
  induction shp as [|n shp IH]; [done|]. rewrite fmap_cons. simpl. by rewrite IH.
Qed.

Lemma view_local_length (rk : list ritem) (q l : Coord) :
  view_local rk q = Some l → length q = length rk.
Proof.
  revert q l. induction rk as [|[lo len|i] rk IH]; intros [|x q] l; simpl; try done.
  - destruct (_ && _); [|done]. destruct (view_local rk q) eqn:E; [|done].
    intros _. by rewrite (IH _ _ E).
  - destruct (_ =? _); [|done]. intros E. by rewrite (IH _ _ E).
Qed.

Lemma view_local_app (r1 r2 : list ritem) (q1 q2 : Coord) :
  length q1 = length r1 →
  view_local (r1 ++ r2) (q1 ++ q2) =
    l1 ← view_local r1 q1; l2 ← view_local r2 q2; Some (l1 ++ l2).
Proof.
  revert q1. induction r1 as [|[lo len|i] r1 IH]; intros [|x q1]; simpl; try done.
  - intros _. by destruct (view_local r2 q2).
  - intros [= H]. destruct (_ && _); [|done]. rewrite IH by done.
    destruct (view_local r1 q1); simpl; [|done]. by destruct (view_local r2 q2).
  - intros [= H]. destruct (_ =? _); [|done]. by rewrite IH.
Qed.

Lemma view_local_full (shp : list Z) (q : Coord) :
  view_local (RSlice 0 <$> shp) q = if in_box shp q then Some q else None.
Proof.
  revert q. induction shp as [|n shp IH]; intros [|x q]; try done.
  rewrite fmap_cons. simpl. rewrite IH, Z.add_0_l, Z.sub_0_r.
  destruct ((0 <=? x) && (x <? n)); simpl; [|done].
  by destruct (in_box shp q).
Qed.

(** Writing a block into the whole of a buffer of the same shape. *)
Lemma writeInto_whole (blk result : ndarray) :
  arr_shape blk = arr_shape result →
  ∃ r', writeInto blk [] result = Ok r' ∧
    arr_shape r' = arr_shape result ∧
    ∀ q, arr_at r' q = if in_box (arr_shape result) q then arr_at blk q
                       else arr_at result q.
Proof.
  intros Hs. unfold writeInto. rewrite resolve_key_nil. simpl.
  rewrite view_shape_full, Hs, bool_decide_eq_true_2 by done. simpl.
  eexists. split; [reflexivity|]. simpl. split; [done|].
  intros q. rewrite view_local_full. by destruct (in_box _ q).
Qed.

Lemma norm_bound_id (n x : Z) : 0 ≤ x ≤ n → norm_bound n x = x.
Proof.
  intros H. unfold norm_bound.
  destruct (x <? 0) eqn:E; [apply Z.ltb_lt in E; lia|lia].
Qed.

Lemma resolve_slab_slice (d1 d2 : list Z) (da w len : Z) :
  0 ≤ w → 0 ≤ len → w + len ≤ da →
  resolve_key (d1 ++ da :: d2)
    (replicate (length d1) SliceAll ++ Slice w (w + len)
       :: replicate (length d2) SliceAll)
  = Ok ((RSlice 0 <$> d1) ++ RSlice w len :: (RSlice 0 <$> d2)).
Proof.
  intros Hw Hl Hb. rewrite resolve_key_app by (by rewrite length_replicate).
  rewrite resolve_key_all. simpl.
  rewrite !norm_bound_id by lia. rewrite resolve_key_all. simpl.
  by replace (0 `max` (w + len - w)) with len by lia.
Qed.

Lemma resolve_slab_index (d1 d2 : list Z) (da w : Z) :
  0 ≤ w < da →
  resolve_key (d1 ++ da :: d2)
    (replicate (length d1) SliceAll ++ Index w :: replicate (length d2) SliceAll)
  = Ok ((RSlice 0 <$> d1) ++ RIndex w :: (RSlice 0 <$> d2)).
Proof.
  intros Hw. rewrite resolve_key_app by (by rewrite length_replicate).
  rewrite resolve_key_all. simpl.
  destruct (w <? 0) eqn:E; [apply Z.ltb_lt in E; lia|].
  replace (0 <=? w) with true by (symmetry; apply Z.leb_le; lia).
  replace (w <? da) with true by (symmetry; apply Z.ltb_lt; lia). simpl.
  by rewrite resolve_key_all.
Qed.

Lemma view_local_slab_slice (d1 d2 : list Z) (w len : Z) (q1 q2 : Coord) (x : Z) :
  length q1 = length d1 →
  view_local ((RSlice 0 <$> d1) ++ RSlice w len :: (RSlice 0 <$> d2))
    (q1 ++ x :: q2)
  = if in_box d1 q1 && ((w <=? x) && (x <? w + len)) && in_box d2 q2
    then Some (q1 ++ (x - w) :: q2) else None.
Proof.
  intros Hl. rewrite view_local_app by (by rewrite length_fmap).
  rewrite view_local_full. destruct (in_box d1 q1); simpl; [|done].
  destruct ((w <=? x) && (x <? w + len)); simpl; [|done].
  rewrite view_local_full. by destruct (in_box d2 q2).
Qed.

Lemma view_local_slab_index (d1 d2 : list Z) (w : Z) (q1 q2 : Coord) (x : Z) :
  length q1 = length d1 →
  view_local ((RSlice 0 <$> d1) ++ RIndex w :: (RSlice 0 <$> d2))
    (q1 ++ x :: q2)
  = if in_box d1 q1 && (x =? w) && in_box d2 q2
    then Some (q1 ++ q2) else None.
Proof.
  intros Hl. rewrite view_local_app by (by rewrite length_fmap).
  rewrite view_local_full. destruct (in_box d1 q1); simpl; [|done].
  destruct (x =? w); simpl; [|done].
  rewrite view_local_full. by destruct (in_box d2 q2).
Qed.

(** A coordinate of the right rank splits around the axis. *)
Lemma coord_split (n1 n2 : nat) (q : Coord) :
  length q = (n1 + 1 + n2)%nat →
  ∃ q1 x q2, q = q1 ++ x :: q2 ∧ length q1 = n1 ∧ length q2 = n2.
Proof.
  intros H. destruct (drop n1 q) as [|x q2] eqn:E.
  - apply (f_equal length) in E. rewrite length_drop in E. simpl in E. lia.
  - exists (take n1 q), x, q2. rewrite <- E, take_drop. split; [done|].
    rewrite length_take. apply (f_equal length) in E.
    rewrite length_drop in E. simpl in E. lia.
Qed.

Lemma in_box_mid (d1 d2 : list Z) (da : Z) (q1 q2 : Coord) (x : Z) :
  length q1 = length d1 →
  in_box (d1 ++ da :: d2) (q1 ++ x :: q2)
  = in_box d1 q1 && ((0 <=? x) && (x <? da)) && in_box d2 q2.
Proof. intros H. rewrite in_box_app by done. simpl. by rewrite !andb_assoc. Qed.

(** Completing a request into the slab [w, w + len) of the axis after [d1]. *)
Lemma writeInto_slab_slice (blk res : ndarray) (d1 d2 : list Z) (da w len : Z) :
  arr_shape res = d1 ++ da :: d2 →
  arr_shape blk = d1 ++ len :: d2 →
  0 ≤ w → 0 ≤ len → w + len ≤ da →
  ∃ r', writeInto blk
          (replicate (length d1) SliceAll ++ Slice w (w + len)
             :: replicate (length d2) SliceAll) res = Ok r' ∧
    arr_shape r' = arr_shape res ∧
    (∀ q1 x q2, length q1 = length d1 →
       arr_at r' (q1 ++ x :: q2) =
         if in_box d1 q1 && ((w <=? x) && (x <? w + len)) && in_box d2 q2
         then arr_at blk (q1 ++ (x - w) :: q2)
         else arr_at res (q1 ++ x :: q2)) ∧
    (∀ q, in_box (d1 ++ da :: d2) q = false → arr_at r' q = arr_at res q).
Proof.
  intros Hres Hblk Hw Hlen Hb. unfold writeInto.
  rewrite Hres, resolve_slab_slice by done. simpl.
  rewrite view_shape_app. simpl. rewrite !view_shape_full.
  rewrite Hblk, bool_decide_eq_true_2 by done. simpl.
  eexists. split; [reflexivity|]. simpl. split; [done|]. split.
  - intros q1 x q2 Hq1. rewrite view_local_slab_slice by done.
    by destruct (_ && _).
  - intros q Hq.
    destruct (view_local _ q) as [l|] eqn:E; [|done]. exfalso.
    assert (Hl := view_local_length _ _ _ E).
    rewrite length_app, length_cons, !length_fmap in Hl.
    destruct (coord_split (length d1) (length d2) q) as (q1 & x & q2 & -> & H1 & H2);
      [lia|].
    rewrite view_local_slab_slice in E by done.
    rewrite in_box_mid in Hq by done.
    destruct (in_box d1 q1); simpl in *; [|done].
    destruct (in_box d2 q2); simpl in *; rewrite ?andb_false_r, ?andb_true_r in *;
      [|done].
    destruct ((w <=? x) && (x <? w + len)) eqn:E2; [|done].
    apply andb_true_iff in E2 as [?%Z.leb_le ?%Z.ltb_lt].
    apply andb_false_iff in Hq as [?%Z.leb_gt|?%Z.ltb_ge]; lia.
Qed.

(** Completing a request into the hyperplane [w] of the axis after [d1]. *)
Lemma writeInto_slab_index (blk res : ndarray) (d1 d2 : list Z) (da w : Z) :
  arr_shape res = d1 ++ da :: d2 →
  arr_shape blk = d1 ++ d2 →
  0 ≤ w < da →
  ∃ r', writeInto blk
          (replicate (length d1) SliceAll ++ Index w
             :: replicate (length d2) SliceAll) res = Ok r' ∧
    arr_shape r' = arr_shape res ∧
    (∀ q1 x q2, length q1 = length d1 →
       arr_at r' (q1 ++ x :: q2) =
         if in_box d1 q1 && (x =? w) && in_box d2 q2
         then arr_at blk (q1 ++ q2)
         else arr_at res (q1 ++ x :: q2)) ∧
    (∀ q, in_box (d1 ++ da :: d2) q = false → arr_at r' q = arr_at res q).
Proof.
  intros Hres Hblk Hw. unfold writeInto.
  rewrite Hres, resolve_slab_index by done. simpl.
  rewrite view_shape_app. simpl. rewrite !view_shape_full.
  rewrite Hblk, bool_decide_eq_true_2 by done. simpl.
  eexists. split; [reflexivity|]. simpl. split; [done|]. split.
  - intros q1 x q2 Hq1. rewrite view_local_slab_index by done.
    by destruct (_ && _).
  - intros q Hq.
    destruct (view_local _ q) as [l|] eqn:E; [|done]. exfalso.
    assert (Hl := view_local_length _ _ _ E).
    rewrite length_app, length_cons, !length_fmap in Hl.
    destruct (coord_split (length d1) (length d2) q) as (q1 & x & q2 & -> & H1 & H2);
      [lia|].
    rewrite view_local_slab_index in E by done.
    rewrite in_box_mid in Hq by done.
    destruct (in_box d1 q1); simpl in *; [|done].
    destruct (in_box d2 q2); simpl in *; rewrite ?andb_false_r, ?andb_true_r in *;
      [|done].
    destruct (x =? w) eqn:E2; [|done]. apply Z.eqb_eq in E2.
    apply andb_false_iff in Hq as [?%Z.leb_gt|?%Z.ltb_ge]; lia.
Qed.

(** ** ROIs split around an axis *)

Lemma roi_within_length (a b shp : list Z) :
  roi_within a b shp = true → length a = length shp ∧ length b = length shp.
Proof.
  revert b shp. induction a as [|x a IH]; intros [|y b] [|n shp]; simpl; try done.
  intros (_ & H)%andb_true_iff. destruct (IH _ _ H). split; congruence.
Qed.

Lemma roi_within_app (a1 a2 b1 b2 s1 s2 : list Z) :
  length a1 = length s1 → length b1 = length s1 →
  roi_within (a1 ++ a2) (b1 ++ b2) (s1 ++ s2)
  = roi_within a1 b1 s1 && roi_within a2 b2 s2.
Proof.
  revert b1 s1. induction a1 as [|x a1 IH]; intros [|y b1] [|n s1]; simpl; try done.
  intros [= H1] [= H2]. rewrite IH by done. by rewrite andb_assoc.
Qed.

Lemma tv_sub_app (a1 a2 b1 b2 : Coord) :
  length a1 = length b1 →
  tv_sub (a1 ++ a2) (b1 ++ b2) = tv_sub a1 b1 ++ tv_sub a2 b2.
Proof. intros H. unfold tv_sub. by rewrite zip_with_app. Qed.

Lemma tv_add_app (a1 a2 b1 b2 : Coord) :
  length a1 = length b1 →
  tv_add (a1 ++ a2) (b1 ++ b2) = tv_add a1 b1 ++ tv_add a2 b2.
Proof. intros H. unfold tv_add. by rewrite zip_with_app. Qed.

Lemma py_setitem_last {A} (l : list A) (c x : A) :
  py_setitem (length (l ++ [c]) - 1)%nat x (l ++ [c]) = Ok (l ++ [x]).
Proof.
  unfold py_setitem. rewrite length_app. simpl.
  replace (length l + 1 - 1)%nat with (length l) by lia.
  destruct (decide _) as [_|H]; [|lia].
  rewrite insert_app_r_alt by lia. by rewrite Nat.sub_diag.
Qed.

(** ** OpMultiChannelSelector: execution *)

Section selector_execute.
Variables (A : Coord → Z) (m : MetaDict) (ishape : list Z) (nch : Z).
Variables (ks ke : Coord).
Hypothesis Hshape : shape m = Some (ishape ++ [nch]).
Hypothesis Hroi : roi_within ks ke ishape = true.

Lemma selector_fetch_channel (ch : Z) :
  0 ≤ ch < nch →
  get (array_slot m A) (ks ++ [ch]) (ke ++ [ch + 1])
  = Ok (block_of A (ks ++ [ch]) (ke ++ [ch + 1])).
Proof using Hshape Hroi.
  intros Hch. unfold array_slot. simpl. unfold get_shape. rewrite Hshape. simpl.
  destruct (roi_within_length _ _ _ Hroi) as [H1 H2].
  rewrite roi_within_app, Hroi by done. simpl.
  replace (0 <=? ch) with true by (symmetry; apply Z.leb_le; lia).
  replace (ch <=? ch + 1) with true by (symmetry; apply Z.leb_le; lia).
  replace (ch + 1 <=? nch) with true by (symmetry; apply Z.leb_le; lia).
  done.
Qed.

Lemma selector_block_shape (ch : Z) :
  arr_shape (block_of A (ks ++ [ch]) (ke ++ [ch + 1])) = tv_sub ke ks ++ [1].
Proof using Hroi.
  destruct (roi_within_length _ _ _ Hroi) as [H1 H2]. simpl.
  rewrite tv_sub_app by congruence. simpl. do 2 f_equal. lia.
Qed.

Lemma selector_block_cell (ch : Z) (qs : Coord) :
  in_box (tv_sub ke ks) qs = true →
  arr_at (block_of A (ks ++ [ch]) (ke ++ [ch + 1])) (qs ++ [0])
  = Some (A (tv_add ks qs ++ [ch])).
Proof using Hroi.
  intros Hq. destruct (roi_within_length _ _ _ Hroi) as [H1 H2].
  assert (Hl := in_box_length _ _ Hq). rewrite tv_sub_length in Hl by congruence.
  unfold block_of. simpl. rewrite tv_sub_app by congruence. simpl.
  rewrite in_box_app by (rewrite tv_sub_length; congruence).
  rewrite Hq. simpl.
  replace (0 <? ch + 1 - ch) with true by (symmetry; apply Z.ltb_lt; lia).
  simpl. rewrite tv_add_app by congruence. simpl. by rewrite Z.add_0_r.
Qed.

Lemma selector_loop_spec (chs : list Z) :
  ∀ (i c0 c1 n : Z) (result : ndarray),
    (∀ ch, ch ∈ chs → 0 ≤ ch < nch) →
    arr_shape result = tv_sub ke ks ++ [n] →
    0 ≤ i → i + Z.of_nat (length chs) ≤ n →
    ∃ r', OpMultiChannelSelector.execute_loop (array_slot m A) i chs
            (mkRoi (ks ++ [c0]) (ke ++ [c1])) result = Ok r' ∧
      arr_shape r' = arr_shape result ∧
      (∀ (j : nat) ch qs, chs !! j = Some ch →
         in_box (tv_sub ke ks) qs = true →
         arr_at r' (qs ++ [i + Z.of_nat j]) = Some (A (tv_add ks qs ++ [ch]))) ∧
      (∀ qs x, length qs = length (tv_sub ke ks) → x < i →
         arr_at r' (qs ++ [x]) = arr_at result (qs ++ [x])) ∧
      (∀ q, in_box (tv_sub ke ks ++ [n]) q = false → arr_at r' q = arr_at result q).
Proof using Hshape Hroi.
  destruct (roi_within_length _ _ _ Hroi) as [Hlks Hlke].
  induction chs as [|ch chs IH]; intros i c0 c1 n result Hch Hres Hi Hn.
  { simpl. exists result. repeat split; auto. intros j ? ? Hj. by destruct j. }
  simpl in Hn. cbn [OpMultiChannelSelector.execute_loop start stop].
  rewrite !py_setitem_last. cbn [mbind res_bind].
  rewrite selector_fetch_channel by (apply Hch; left). cbn [mbind res_bind].
  rewrite py_init_snoc.
  destruct (writeInto_slab_slice (block_of A (ks ++ [ch]) (ke ++ [ch + 1]))
              result (tv_sub ke ks) [] n i 1)
    as (r1 & Hw & Hs1 & Hcell1 & Hout1);
    [done|apply selector_block_shape|lia|lia|lia|].
  rewrite tv_sub_length in Hw by congruence. simpl in Hw.
  rewrite Hw. cbn [mbind res_bind].
  destruct (IH (i + 1) ch (ch + 1) n r1) as (r' & He & Hs' & Hcell' & Hlow' & Hout');
    [intros; apply Hch; by right|congruence|lia|lia|].
  exists r'. split; [done|]. split; [congruence|]. split; [|split].
  - intros [|j] ch' qs Hj Hq.
    + simpl in Hj. injection Hj as <-.
      assert (Hl := in_box_length _ _ Hq).
      rewrite Z.add_0_r, Hlow', Hcell1 by (done || lia).
      rewrite Hq. simpl.
      replace (i <=? i) with true by (symmetry; apply Z.leb_le; lia).
      replace (i <? i + 1) with true by (symmetry; apply Z.ltb_lt; lia).
      simpl. rewrite Z.sub_diag. by apply selector_block_cell.
    + simpl in Hj. rewrite <- (Hcell' j ch' qs Hj Hq).
      by replace (i + Z.of_nat (S j)) with (i + 1 + Z.of_nat j) by lia.
  - intros qs x Hl Hx. rewrite Hlow', Hcell1 by (done || lia).
    replace (i <=? x) with false by (symmetry; apply Z.leb_gt; lia).
    by rewrite andb_false_r.
  - intros q Hq. rewrite Hout', Hout1; done.
Qed.

End selector_execute.

(** C8: over a ROI spanning all output channels, [execute] fills output
    channel [i] with source channel [SelectedChannels[i]], for every [i] and
    with repeats allowed; cells outside the result's box are not touched.
    For [SelectedChannels = (2, 0, 0)] on a 4-channel source this gives output
    channel 0 = source channel 2 and output channels 1 and 2 = source
    channel 0. *)
Theorem selector_execute_channels
    (op : OpMultiChannelSelector.t) (A : Coord → Z) (m : MetaDict)
    (ishape : list Z) (nch : Z) (ks ke : Coord) (result : ndarray) :
  OpMultiChannelSelector.Input op = array_slot m A →
  shape m = Some (ishape ++ [nch]) →
  roi_within ks ke ishape = true →
  (∀ ch, ch ∈ OpMultiChannelSelector.SelectedChannels op → 0 ≤ ch < nch) →
  arr_shape result =
    tv_sub ke ks ++ [Z.of_nat (length (OpMultiChannelSelector.SelectedChannels op))] →
  ∃ r',
    OpMultiChannelSelector.execute op
      (mkRoi (ks ++ [0])
             (ke ++ [Z.of_nat (length (OpMultiChannelSelector.SelectedChannels op))]))
      result = Ok r' ∧
    arr_shape r' = arr_shape result ∧
    (∀ (i : nat) ch qs,
       OpMultiChannelSelector.SelectedChannels op !! i = Some ch →
       in_box (tv_sub ke ks) qs = true →
       arr_at r' (qs ++ [Z.of_nat i]) = Some (A (tv_add ks qs ++ [ch]))) ∧
    (∀ q, in_box (arr_shape result) q = false → arr_at r' q = arr_at result q).
Proof.
  intros Hin Hshape Hroi Hch Hres. unfold OpMultiChannelSelector.execute.
  rewrite Hin. case_bool_decide as Hone.
  - (* a single selected channel: fetched in place *)
    destruct (OpMultiChannelSelector.SelectedChannels op) as [|ch [|? ?]] eqn:Esel;
      try done.
    cbn [lookup list_lookup or_raise mbind res_bind start stop].
    rewrite !py_setitem_last. cbn [mbind res_bind].
    rewrite (selector_fetch_channel A m ishape nch ks ke Hshape Hroi)
      by (apply Hch; left).
    cbn [mbind res_bind].
    destruct (writeInto_whole (block_of A (ks ++ [ch]) (ke ++ [ch + 1])) result)
      as (r' & -> & Hs & Hcell).
    { rewrite Hres. by apply (selector_block_shape A ishape). }
    exists r'. split; [done|]. split; [done|]. split.
    + intros [|[|i]] ch' qs Hi Hq; simpl in Hi; try done. injection Hi as <-.
      rewrite Hcell, Hres. simpl.
      rewrite in_box_app by (by apply in_box_length). rewrite Hq. simpl.
      by apply (selector_block_cell A ishape).
    + intros q Hq. by rewrite Hcell, Hq.
  - destruct (selector_loop_spec A m ishape nch ks ke Hshape Hroi
                (OpMultiChannelSelector.SelectedChannels op) 0 0
                (Z.of_nat (length (OpMultiChannelSelector.SelectedChannels op)))
                (Z.of_nat (length (OpMultiChannelSelector.SelectedChannels op)))
                result)
      as (r' & He & Hs & Hcell & _ & Hout); [done|done|lia|lia|].
    exists r'. split; [done|]. split; [done|]. split.
    + intros i ch qs Hi Hq. by rewrite <- (Hcell i ch qs Hi Hq).
    + intros q Hq. apply Hout. by rewrite <- Hres.
Qed.

(** The scenario of C8: a 2-pixel, 4-channel source whose cell [(x, c)] holds
    [10 x + c], with selection [(2, 0, 0)]. *)
Lemma selector_execute_channels_witness :
  ∃ r',
    OpMultiChannelSelector.execute
      (OpMultiChannelSelector.mk
         (array_slot (meta_of [2; 4] ["x"; "c"]%string None)
            (λ q, 10 * default 0 (q !! 0%nat) + default 0 (q !! 1%nat)))
         [2; 0; 0] empty_meta)
      (mkRoi ([0] ++ [0]) ([2] ++ [Z.of_nat (length [2; 0; 0])]))
      (np_empty [2; 3]) = Ok r' ∧
    arr_shape r' = arr_shape (np_empty [2; 3]) ∧
    (∀ (i : nat) ch qs,
       [2; 0; 0] !! i = Some ch →
       in_box (tv_sub [2] [0]) qs = true →
       arr_at r' (qs ++ [Z.of_nat i])
       = Some (10 * default 0 ((tv_add [0] qs ++ [ch]) !! 0%nat)
               + default 0 ((tv_add [0] qs ++ [ch]) !! 1%nat))) ∧
    (∀ q, in_box (arr_shape (np_empty [2; 3])) q = false →
          arr_at r' q = arr_at (np_empty [2; 3]) q).
Proof.
  apply (selector_execute_channels
           (OpMultiChannelSelector.mk
              (array_slot (meta_of [2; 4] ["x"; "c"]%string None)
                 (λ q, 10 * default 0 (q !! 0%nat) + default 0 (q !! 1%nat)))
              [2; 0; 0] empty_meta)
           (λ q, 10 * default 0 (q !! 0%nat) + default 0 (q !! 1%nat))
           (meta_of [2; 4] ["x"; "c"]%string None) [2] 4 [0] [2] (np_empty [2; 3])).
  - reflexivity.
  - reflexivity.
  - reflexivity.
  - intros ch Hch. apply list_elem_of_In in Hch. simpl in Hch. lia.
  - reflexivity.
Defined.

(** The same scenario, evaluated: the rows of the result are
    [source[x, 2], source[x, 0], source[x, 0]]. *)
Lemma selector_execute_2_0_0_cells :
  ∃ r',
    OpMultiChannelSelector.execute
      (OpMultiChannelSelector.mk
         (array_slot (meta_of [2; 4] ["x"; "c"]%string None)
            (λ q, 10 * default 0 (q !! 0%nat) + default 0 (q !! 1%nat)))
         [2; 0; 0] empty_meta)
      (mkRoi [0; 0] [2; 3]) (np_empty [2; 3]) = Ok r' ∧
    arr_at r' <$> ndindex [2; 3]
    = [Some 2; Some 0; Some 0; Some 12; Some 10; Some 10].
Proof. eexists. split; reflexivity. Qed.

(** ** OpMultiArrayStacker: the execute loop *)

Lemma py_pop_mid {A} (k1 k2 : list A) (x : A) :
  py_pop (length k1) (k1 ++ x :: k2) = k1 ++ k2.
Proof.
  unfold py_pop. rewrite take_app_length. f_equal.
  induction k1 as [|y k1 IH]; simpl; [by rewrite drop_0|done].
Qed.

Lemma py_insert_mid {A} (k1 k2 : list A) (x : A) :
  py_insert (length k1) x (k1 ++ k2) = k1 ++ x :: k2.
Proof. unfold py_insert. by rewrite take_app_length, drop_app_length. Qed.

Lemma py_setitem_mid {A} (k1 k2 : list A) (x y : A) :
  py_setitem (length k1) y (k1 ++ x :: k2) = Ok (k1 ++ y :: k2).
Proof.
  unfold py_setitem. rewrite length_app. simpl.
  destruct (decide _) as [_|H]; [|lia].
  rewrite insert_app_r_alt by lia. by rewrite Nat.sub_diag.
Qed.

Lemma replicate_mid {A} (n1 n2 : nat) (x : A) :
  replicate (n1 + S n2) x = replicate n1 x ++ x :: replicate n2 x.
Proof. by rewrite replicate_add. Qed.

Lemma lookup_mid {A} (k1 k2 : list A) (x : A) :
  (k1 ++ x :: k2) !! length k1 = Some x.
Proof. by rewrite list_lookup_middle. Qed.

Lemma py_insert_at {A} (k1 k2 : list A) (x : A) (n : nat) :
  length k1 = n → py_insert n x (k1 ++ k2) = k1 ++ x :: k2.
Proof. intros <-. apply py_insert_mid. Qed.

Lemma py_pop_at {A} (k1 k2 : list A) (x : A) (n : nat) :
  length k1 = n → py_pop n (k1 ++ x :: k2) = k1 ++ k2.
Proof. intros <-. apply py_pop_mid. Qed.

Lemma py_setitem_replicate {A} (n1 n2 : nat) (x y : A) :
  py_setitem n1 y (replicate (n1 + S n2) x)
  = Ok (replicate n1 x ++ y :: replicate n2 x).
Proof.
  rewrite replicate_mid.
  rewrite <- (length_replicate n1 x) at 1. apply py_setitem_mid.
Qed.

Lemma py_insert_replicate {A} (n1 n2 : nat) (x y : A) :
  py_insert n1 y (replicate (n1 + n2) x)
  = replicate n1 x ++ y :: replicate n2 x.
Proof.
  rewrite replicate_add. apply py_insert_at. apply length_replicate.
Qed.

Lemma lookup_at {A} (k1 k2 : list A) (x : A) (n : nat) :
  length k1 = n → (k1 ++ x :: k2) !! n = Some x.
Proof. intros <-. apply lookup_mid. Qed.

Lemma roiToSlice_length (a b : Coord) :
  length a = length b → length (roiToSlice a b) = length a.
Proof. intros H. unfold roiToSlice. rewrite length_zip_with. lia. Qed.

Lemma offsets_lookup_lo (c : Z) (ns : list Z) (j : nat) (lo hi : Z) :
  offsets c ns !! j = Some (lo, hi) → 0 ≤ c → Forall (λ n, 0 ≤ n) ns → c ≤ lo.
Proof.
  revert c j. induction ns as [|n ns IH]; intros c [|j]; simpl; try done.
  - intros [= <- <-]. lia.
  - intros H Hc Hns. apply Forall_cons in Hns as [Hn Hns].
    specialize (IH (c + n) j H ltac:(lia) Hns). lia.
Qed.

Ltac zbool :=
  repeat match goal with
         | |- context [?x <=? ?y] => destruct (Z.leb_spec x y)
         | |- context [?x <? ?y] => destruct (Z.ltb_spec x y)
         | |- context [?x =? ?y] => destruct (Z.eqb_spec x y)
         end;
  simpl; try lia; try done.

Lemma tag_keys_Ok (m : MetaDict) :
  axistags m ≠ [] → tag_keys m = Ok (axistags m).
Proof. unfold tag_keys. by destruct (axistags m). Qed.

Lemma tag_keys_TypeError (m : MetaDict) :
  axistags m = [] → tag_keys m = Raise TypeError.
Proof. unfold tag_keys. by intros ->. Qed.

Lemma has_axis_nonempty (key : string) (tags : list string) :
  has_axis key tags = true → tags ≠ [].
Proof. intros H ->. by apply bool_decide_eq_true, elem_of_nil in H. Qed.

Section stacker_loop.
Variables (flag : string) (a : nat) (s1 e1 s2 e2 : Coord) (sa ea : Z).
Hypothesis Hs1 : length s1 = a.
Hypothesis He1 : length e1 = a.
Hypothesis Hs2 : length s2 = length e2.
Hypothesis Hsa : sa ≤ ea.

Local Abbreviation d1 := (tv_sub e1 s1) (only parsing).
Local Abbreviation d2 := (tv_sub e2 s2) (only parsing).
Local Abbreviation oldkey := (roiToSlice s1 e1 ++ roiToSlice s2 e2) (only parsing).

Lemma stacker_d1_length : length d1 = a.
Proof using Hs1 He1. rewrite tv_sub_length; congruence. Qed.

Lemma execute_step_spec (src : Slot) (native : bool) (n : Z) (A : Coord → Z)
    (cnt : Z) (res : ndarray) :
  source_ok flag a s1 e1 s2 e2 src (native, n, A) →
  arr_shape res = d1 ++ (ea - sa) :: d2 →
  ∃ res',
    OpMultiArrayStacker.execute_step flag a sa ea oldkey
      (cnt, rows_written sa ea cnt, res) src
    = Ok (cnt + n, rows_written sa ea (cnt + n), res') ∧
    arr_shape res' = arr_shape res ∧
    (∀ l1 x l2, length l1 = length d1 →
       arr_at res' (l1 ++ x :: l2) =
         if in_box d1 l1 && ((0 <=? x) && (x <? ea - sa))
            && ((cnt <=? sa + x) && (sa + x <? cnt + n)) && in_box d2 l2
         then Some (source_cell native A (tv_add s1 l1) (sa + x - cnt)
                      (tv_add s2 l2))
         else arr_at res (l1 ++ x :: l2)) ∧
    (∀ q, in_box (d1 ++ (ea - sa) :: d2) q = false → arr_at res' q = arr_at res q).
Proof using Hs1 He1 Hs2 Hsa.
  intros (Hax & Hok) Hres. unfold OpMultiArrayStacker.execute_step.
  assert (axistags (meta src) ≠ []) as Htagged.
  { destruct native; [by eapply has_axis_nonempty|]. by destruct Hok as (_ & ? & _). }
  rewrite (tag_keys_Ok _ Htagged). cbn [mbind res_bind].
  rewrite Hax. assert (Hd1 := stacker_d1_length).
  assert (length (roiToSlice s1 e1) = a) as Hk1
    by (rewrite roiToSlice_length; congruence).
  destruct native.
  - (* the source owns the axis *)
    destruct Hok as (Hn & (shp & Hshp & Hext) & Hreq).
    unfold get_shape. rewrite Hshp. cbn [or_raise mbind res_bind].
    rewrite Hext. cbn [or_raise mbind res_bind].
    destruct ((sa <=? cnt + n) && (sa - cnt <? n)
              && (sa + rows_written sa ea cnt <? ea)) eqn:Econd.
    + apply andb_true_iff in Econd as [[C1%Z.leb_le C2%Z.ltb_lt]%andb_true_iff
                                         C3%Z.ltb_lt].
      unfold rows_written in C3.
      set (begin_ := if cnt <? sa then sa - cnt else 0).
      set (end_ := if ea <? cnt + n then n - (cnt + n - ea) else n).
      assert (begin_ = Z.max 0 (sa - cnt)) as Hb by (unfold begin_; zbool).
      assert (end_ = Z.min n (ea - cnt)) as He by (unfold end_; zbool).
      rewrite (py_insert_at _ _ _ a) by done.
      rewrite Hres, length_app. simpl length. rewrite <- Hd1.
      rewrite py_setitem_replicate. cbn [mbind res_bind].
      destruct (Hreq begin_ end_) as (blk & -> & Hbs & Hbc); [lia..|].
      cbn [mbind res_bind].
      replace (rows_written sa ea cnt + end_ - begin_)
        with (rows_written sa ea cnt + (end_ - begin_)) by lia.
      destruct (writeInto_slab_slice blk res d1 d2 (ea - sa)
                  (rows_written sa ea cnt) (end_ - begin_))
        as (r' & -> & Hs' & Hcell & Hout);
        [done|done|unfold rows_written; lia..|].
      cbn [mbind res_bind].
      replace (rows_written sa ea cnt + (end_ - begin_))
        with (rows_written sa ea (cnt + n)) by (unfold rows_written; lia).
      exists r'. split; [done|]. split; [congruence|]. split; [|done].
      intros l1 x l2 Hl1. rewrite Hcell by done.
      destruct (in_box d1 l1) eqn:E1; simpl; [|done].
      destruct (in_box d2 l2) eqn:E2; simpl;
        rewrite ?andb_true_r, ?andb_false_r; [|done].
      unfold rows_written.
      destruct (Z.leb_spec (0 `max` (cnt `min` ea - sa)) x);
        destruct (Z.ltb_spec x (0 `max` (cnt `min` ea - sa) + (end_ - begin_)));
        zbool.
      rewrite Hbc by (done || lia). unfold source_cell.
      by replace (begin_ + (x - 0 `max` (cnt `min` ea - sa)))
        with (sa + x - cnt) by lia.
    + exists res. unfold rows_written.
      replace (0 `max` ((cnt + n) `min` ea - sa))
        with (0 `max` (cnt `min` ea - sa)).
      2:{ unfold rows_written in Econd.
          apply andb_false_iff in Econd as [[C%Z.leb_gt|C%Z.ltb_ge]%andb_false_iff
                                             |C%Z.ltb_ge]; lia. }
      split; [done|]. split; [done|]. split; [|done].
      intros l1 x l2 Hl1.
      destruct (in_box d1 l1); simpl; [|done].
      destruct (in_box d2 l2); simpl; rewrite ?andb_true_r, ?andb_false_r; [|done].
      unfold rows_written in Econd.
      apply andb_false_iff in Econd as [[C%Z.leb_gt|C%Z.ltb_ge]%andb_false_iff
                                         |C%Z.ltb_ge]; zbool.
  - (* the axis is synthesized for the source *)
    destruct Hok as (-> & _ & blk & Hget & Hbs & Hbc).
    destruct ((sa <=? cnt) && (sa + rows_written sa ea cnt <? ea)) eqn:Econd.
    + apply andb_true_iff in Econd as [C1%Z.leb_le C3%Z.ltb_lt].
      unfold rows_written in C3.
      rewrite Hget. cbn [mbind res_bind].
      assert (length oldkey = (length d1 + length d2)%nat) as ->.
      { rewrite length_app, !roiToSlice_length,
          !tv_sub_length; congruence. }
      rewrite <- Hd1, py_insert_replicate.
      destruct (writeInto_slab_index blk res d1 d2 (ea - sa)
                  (rows_written sa ea cnt))
        as (r' & -> & Hs' & Hcell & Hout);
        [done|done|unfold rows_written; lia|].
      cbn [mbind res_bind].
      replace (rows_written sa ea cnt + 1)
        with (rows_written sa ea (cnt + 1)) by (unfold rows_written; lia).
      exists r'. split; [done|]. split; [done|]. split; [|done].
      intros l1 x l2 Hl1. rewrite Hcell by done.
      destruct (in_box d1 l1) eqn:E1; simpl; [|done].
      destruct (in_box d2 l2) eqn:E2; simpl;
        rewrite ?andb_true_r, ?andb_false_r; [|done].
      unfold rows_written.
      destruct (Z.eqb_spec x (0 `max` (cnt `min` ea - sa))); zbool.
      rewrite Hbc by done. done.
    + exists res. unfold rows_written.
      replace (0 `max` ((cnt + 1) `min` ea - sa))
        with (0 `max` (cnt `min` ea - sa)).
      2:{ unfold rows_written in Econd.
          apply andb_false_iff in Econd as [C%Z.leb_gt|C%Z.ltb_ge]; lia. }
      split; [done|]. split; [done|]. split; [|done].
      intros l1 x l2 Hl1.
      destruct (in_box d1 l1); simpl; [|done].
      destruct (in_box d2 l2); simpl; rewrite ?andb_true_r, ?andb_false_r; [|done].
      unfold rows_written in Econd.
      apply andb_false_iff in Econd as [C%Z.leb_gt|C%Z.ltb_ge]; zbool.
Qed.

Lemma source_ok_nonneg (src : Slot) (native : bool) (n : Z) (A : Coord → Z) :
  source_ok flag a s1 e1 s2 e2 src (native, n, A) → 0 ≤ n.
Proof. intros (_ & H). destruct native; [tauto|]. destruct H as [-> _]. lia. Qed.

Lemma execute_fold_spec (srcs : list Slot)
    (descs : list (bool * Z * (Coord → Z))) :
  Forall2 (source_ok flag a s1 e1 s2 e2) srcs descs →
  ∀ (cnt : Z) (res : ndarray),
    arr_shape res = d1 ++ (ea - sa) :: d2 →
    ∃ cnt' res',
      foldlM (OpMultiArrayStacker.execute_step flag a sa ea oldkey)
        (cnt, rows_written sa ea cnt, res) srcs
      = Ok (cnt', rows_written sa ea cnt', res') ∧
      arr_shape res' = arr_shape res ∧
      (∀ (j : nat) native n A lo hi l1 x l2,
         descs !! j = Some (native, n, A) →
         offsets cnt ((λ d, d.1.2) <$> descs) !! j = Some (lo, hi) →
         in_box d1 l1 = true → in_box d2 l2 = true →
         0 ≤ x < ea - sa → lo ≤ sa + x < hi →
         arr_at res' (l1 ++ x :: l2)
         = Some (source_cell native A (tv_add s1 l1) (sa + x - lo)
                   (tv_add s2 l2))) ∧
      (∀ l1 x l2, length l1 = length d1 → sa + x < cnt →
         arr_at res' (l1 ++ x :: l2) = arr_at res (l1 ++ x :: l2)) ∧
      (∀ q, in_box (d1 ++ (ea - sa) :: d2) q = false →
         arr_at res' q = arr_at res q).
Proof using Hs1 He1 Hs2 Hsa.
  induction 1 as [|src [[native n] A] srcs descs Hok _ IH]; intros cnt res Hres.
  { exists cnt, res. simpl. repeat split; auto.
    intros j ? ? ? ? ? ? ? ? Hj. by destruct j. }
  assert (Hn := source_ok_nonneg _ _ _ _ Hok).
  destruct (execute_step_spec src native n A cnt res Hok Hres)
    as (res1 & Hstep & Hs1' & Hcell1 & Hout1).
  destruct (IH (cnt + n) res1) as (cnt' & res' & Hfold & Hs' & Hcell' & Hlow' & Hout');
    [congruence|].
  exists cnt', res'. cbn [foldlM]. rewrite Hstep. cbn [mbind res_bind].
  split; [done|]. split; [congruence|]. split; [|split].
  - intros [|j] native' n' A' lo hi l1 x l2 Hj Hoff Hl1 Hl2 Hx Hlo.
    + simpl in Hj, Hoff. injection Hj as <- <- <-. injection Hoff as <- <-.
      assert (Hl := in_box_length _ _ Hl1).
      rewrite Hlow', Hcell1 by (done || lia). rewrite Hl1, Hl2. simpl.
      by zbool.
    + simpl in Hj, Hoff. by apply (Hcell' j native' n' A' lo hi).
  - intros l1 x l2 Hl Hx. rewrite Hlow', Hcell1 by (done || lia).
    destruct (in_box d1 l1); simpl; [|done]. by zbool.
  - intros q Hq. by rewrite Hout', Hout1.
Qed.

End stacker_loop.

Lemma sliceToRoi_roiToSlice (a b shp : list Z) :
  length a = length shp → length b = length shp →
  sliceToRoi (roiToSlice a b) shp = Ok (a, b).
Proof.
  revert a b. induction shp as [|n shp IH]; intros [|x a] [|y b]; simpl; try done.
  intros [= Ha] [= Hb]. unfold roiToSlice in IH. by rewrite IH.
Qed.

Lemma roi_within_le_all (a b shp : list Z) :
  roi_within a b shp = true → tv_le_all b shp = true.
Proof.
  unfold tv_le_all.
  revert b shp. induction a as [|x a IH]; intros [|y b] [|n shp]; simpl; try done.
  intros [[[_ _]%andb_true_iff H1]%andb_true_iff H2]%andb_true_iff.
  by rewrite H1, (IH _ _ H2).
Qed.

Lemma roi_within_mid (s1 s2 e1 e2 o1 o2 : list Z) (sa ea oa : Z) :
  length s1 = length o1 → length e1 = length o1 →
  roi_within (s1 ++ sa :: s2) (e1 ++ ea :: e2) (o1 ++ oa :: o2) = true ↔
  roi_within s1 e1 o1 = true ∧ (0 ≤ sa ∧ sa ≤ ea ∧ ea ≤ oa) ∧
  roi_within s2 e2 o2 = true.
Proof.
  intros H1 H2. rewrite roi_within_app by done. simpl.
  rewrite !andb_true_iff, !Z.leb_le. tauto.
Qed.

(** [execute] of a stacker whose output metadata is in place, in terms of the
    offsets accumulated over the sources. *)
Lemma stacker_execute_spec (op : OpMultiArrayStacker.t) (a : nat)
    (o1 o2 : list Z) (oa : Z) (s1 e1 s2 e2 : Coord) (sa ea : Z)
    (descs : list (bool * Z * (Coord → Z))) (res : ndarray) :
  shape (OpMultiArrayStacker.Output op) = Some (o1 ++ oa :: o2) →
  index_of (OpMultiArrayStacker.AxisFlag op)
    (axistags (OpMultiArrayStacker.Output op)) = Some a →
  length o1 = a →
  roi_within (s1 ++ sa :: s2) (e1 ++ ea :: e2) (o1 ++ oa :: o2) = true →
  length s1 = a → length e1 = a →
  Forall2 (source_ok (OpMultiArrayStacker.AxisFlag op) a s1 e1 s2 e2)
    (OpMultiArrayStacker.Images op) descs →
  arr_shape res = tv_sub e1 s1 ++ (ea - sa) :: tv_sub e2 s2 →
  ∃ res',
    OpMultiArrayStacker.execute op (mkRoi (s1 ++ sa :: s2) (e1 ++ ea :: e2)) res
    = Ok res' ∧
    arr_shape res' = arr_shape res ∧
    (∀ (j : nat) native n A lo hi l1 x l2,
       descs !! j = Some (native, n, A) →
       offsets 0 ((λ d, d.1.2) <$> descs) !! j = Some (lo, hi) →
       in_box (tv_sub e1 s1) l1 = true → in_box (tv_sub e2 s2) l2 = true →
       0 ≤ x < ea - sa → lo ≤ sa + x < hi →
       arr_at res' (l1 ++ x :: l2)
       = Some (source_cell native A (tv_add s1 l1) (sa + x - lo) (tv_add s2 l2))) ∧
    (∀ q, in_box (arr_shape res) q = false → arr_at res' q = arr_at res q).
Proof.
  intros Hshape Hidx Ho1 Hroi Hs1 He1 Hsrc Hres.
  assert (Hroi' := Hroi). apply roi_within_mid in Hroi' as (Hr1 & Hra & Hr2);
    [|congruence..].
  destruct (roi_within_length _ _ _ Hroi) as [Hls Hle].
  destruct (roi_within_length _ _ _ Hr2) as [Hls2 Hle2].
  unfold OpMultiArrayStacker.execute, get_shape, axis_index.
  rewrite Hshape, Hidx. cbn [or_raise mbind res_bind start stop].
  rewrite sliceToRoi_roiToSlice by done. cbn [mbind res_bind].
  rewrite (roi_within_le_all _ _ _ Hroi). cbn [assert mbind res_bind].
  assert (roiToSlice (s1 ++ sa :: s2) (e1 ++ ea :: e2)
          = roiToSlice s1 e1 ++ Slice sa ea :: roiToSlice s2 e2) as ->.
  { unfold roiToSlice. rewrite zip_with_app by congruence. done. }
  assert (length (roiToSlice s1 e1) = a) as Hk1
    by (rewrite roiToSlice_length; congruence).
  destruct (decide _) as [_|Hn].
  2:{ exfalso. apply Hn. rewrite length_app. simpl. lia. }
  cbn [mbind res_bind].
  rewrite (py_pop_at _ _ _ a) by done.
  rewrite !(lookup_at _ _ _ a) by done. cbn [or_raise mbind res_bind].
  destruct (execute_fold_spec (OpMultiArrayStacker.AxisFlag op) a s1 e1 s2 e2 sa ea
              Hs1 He1 ltac:(congruence) ltac:(lia)
              (OpMultiArrayStacker.Images op) descs Hsrc 0 res Hres)
    as (cnt' & res' & Hfold & Hs' & Hcell & _ & Hout).
  replace (rows_written sa ea 0) with 0 in Hfold by (unfold rows_written; lia).
  rewrite Hfold. cbn [mbind res_bind].
  exists res'. split; [done|]. split; [done|]. split; [done|].
  intros q Hq. apply Hout. by rewrite <- Hres.
Qed.

(** ** OpMultiArrayStacker: the interval table and the output shape *)

Lemma offsets_app (c : Z) (ns ms : list Z) :
  offsets c (ns ++ ms) = offsets c ns ++ offsets (c + foldr Z.add 0 ns) ms.
Proof.
  revert c. induction ns as [|n ns IH]; intros c; simpl.
  - by rewrite Z.add_0_r.
  - rewrite IH. do 3 f_equal. lia.
Qed.



Lemma index_of_Some_lookup (key : string) (tags : list string) (a : nat) :
  index_of key tags = Some a → tags !! a = Some key.
Proof.
  revert a. induction tags as [|t tags IH]; intros a; simpl; [done|].
  destruct (decide (t = key)) as [->|_].
  - by intros [= <-].
  - destruct (index_of key tags) as [k|]; simpl; [|done].
    intros [= <-]. by apply IH.
Qed.

Lemma index_of_insert (key : string) (tags : list string) (a : nat) :
  key ∉ tags → (a ≤ length tags)%nat →
  index_of key (py_insert a key tags) = Some a.
Proof.
  unfold py_insert. revert a. induction tags as [|t tags IH]; intros a Hk Ha.
  - simpl in Ha. assert (a = 0%nat) as -> by lia. simpl.
    by rewrite decide_True.
  - destruct a as [|a]; simpl.
    + by rewrite decide_True.
    + apply not_elem_of_cons in Hk as [Hne Hk].
      rewrite decide_False by done. simpl in Ha.
      rewrite IH by (done || lia). done.
Qed.



Lemma Forall2_last_l {A B} (P : A → B → Prop) (l : list A) (k : list B) (x : A) :
  Forall2 P l k → last l = Some x → ∃ y, P x y.
Proof.
  intros H Hl. apply last_Some in Hl as [l' ->].
  apply Forall2_app_inv_l in H as (k1 & k2 & _ & H2 & _).
  apply Forall2_cons_inv_l in H2 as (y & ? & Hy & _). by exists y.
Qed.

Section stacker_shape.
Variables (flag : string) (AxisIndex_ : option nat).
Variables (a : nat) (o1 o2 : list Z).
Hypothesis Ho1 : length o1 = a.

Lemma setRightShape_step_spec (src : Slot) (native : bool) (n c : Z)
    (ivs : list (Z * Z)) (itk : list string) (ax : option nat) (out : MetaDict) :
  stack_source flag a o1 o2 src (native, n) →
  OpMultiArrayStacker.setRightShape_step flag AxisIndex_ (c, ivs, itk, ax, out) src
  = Ok (c + n, ivs ++ [(c, c + n)], axistags (meta src),
        (if native then ax else Some (insertion_index AxisIndex_ src)),
        (if native then meta src
         else set_axistags
                (py_insert (insertion_index AxisIndex_ src) flag
                   (axistags (meta src)))
                (meta src))).
Proof using Ho1.
  intros (Hup & Htagged & Hax & Hshape & Hn & Hk).
  unfold OpMultiArrayStacker.setRightShape_step.
  rewrite (tag_keys_Ok _ Htagged). cbn [mbind res_bind].
  rewrite Hup. unfold assignFrom. rewrite Hax.
  destruct native.
  - cbn [negb]. unfold get_shape, axis_index. rewrite Hshape, Hk.
    cbn [or_raise mbind res_bind]. rewrite (lookup_at _ _ _ a) by done.
    done.
  - cbn [negb]. cbn [or_raise mbind res_bind]. by rewrite Hk.
Qed.

(** The loop over the sources: the state it leaves behind is the one of the
    last source. *)
Lemma setRightShape_fold (srcs : list Slot) (ds : list (bool * Z)) :
  Forall2 (stack_source flag a o1 o2) srcs ds →
  ∀ c ivs itk ax out,
    ∃ itk' ax' out',
      foldlM (OpMultiArrayStacker.setRightShape_step flag AxisIndex_)
        (c, ivs, itk, ax, out) srcs
      = Ok (c + foldr Z.add 0 (snd <$> ds), ivs ++ offsets c (snd <$> ds),
            itk', ax', out') ∧
      ∀ lst, last srcs = Some lst →
        itk' = axistags (meta lst) ∧
        if has_axis flag (axistags (meta lst)) then out' = meta lst
        else ax' = Some (insertion_index AxisIndex_ lst) ∧
             out' = set_axistags
                      (py_insert (insertion_index AxisIndex_ lst) flag
                         (axistags (meta lst)))
                      (meta lst).
Proof using Ho1.
  induction 1 as [|src [native n] srcs ds Hsrc Hrest IH]; intros c ivs itk ax out.
  { exists itk, ax, out. simpl. by rewrite Z.add_0_r, app_nil_r. }
  cbn [foldlM]. rewrite (setRightShape_step_spec src native n) by done.
  cbn [mbind res_bind].
  destruct (IH (c + n) (ivs ++ [(c, c + n)]) (axistags (meta src))
              (if native then ax else Some (insertion_index AxisIndex_ src))
              (if native then meta src
               else set_axistags
                      (py_insert (insertion_index AxisIndex_ src) flag
                         (axistags (meta src)))
                      (meta src)))
    as (itk' & ax' & out' & Hfold & Hlast).
  exists itk', ax', out'. rewrite Hfold. split.
  { rewrite fmap_cons. cbn [foldr offsets snd]. rewrite <- app_assoc. simpl.
    by replace (c + n + foldr Z.add 0 (snd <$> ds))
      with (c + (n + foldr Z.add 0 (snd <$> ds))) by lia. }
  intros lst Hlst. destruct Hrest as [|src' d' srcs' ds' Hsrc' Hrest'].
  - simpl in Hfold, Hlst. injection Hfold as _ _ <- <- <-. injection Hlst as <-.
    destruct Hsrc as (_ & _ & -> & _).
    split; [done|]. by destruct native.
  - apply Hlast. exact Hlst.
Qed.

End stacker_shape.

Lemma py_setitem_at {A} (k1 k2 : list A) (x y : A) (n : nat) :
  length k1 = n → py_setitem n y (k1 ++ x :: k2) = Ok (k1 ++ y :: k2).
Proof. intros <-. apply py_setitem_mid. Qed.

(** The configuration step on a well-formed stack: the interval table holds
    the cumulative offsets, and the output extent along the stacking axis is
    the sum of the contributions. *)
Lemma setRightShape_spec (op : OpMultiArrayStacker.t) (a : nat)
    (o1 o2 : list Z) (ds : list (bool * Z)) :
  stack_config (OpMultiArrayStacker.AxisFlag op) (OpMultiArrayStacker.AxisIndex op)
    a o1 (OpMultiArrayStacker.Images op) →
  Forall2 (stack_source (OpMultiArrayStacker.AxisFlag op) a o1 o2)
    (OpMultiArrayStacker.Images op) ds →
  ∃ op', OpMultiArrayStacker.setRightShape op = Ok op' ∧
    OpMultiArrayStacker.Images op' = OpMultiArrayStacker.Images op ∧
    OpMultiArrayStacker.AxisFlag op' = OpMultiArrayStacker.AxisFlag op ∧
    OpMultiArrayStacker.intervals op' = offsets 0 (snd <$> ds) ∧
    shape (OpMultiArrayStacker.Output op')
      = Some (o1 ++ foldr Z.add 0 (snd <$> ds) :: o2) ∧
    index_of (OpMultiArrayStacker.AxisFlag op)
      (axistags (OpMultiArrayStacker.Output op')) = Some a.
Proof.
  intros (Ho1 & first & lst & Hhead & Hlast & Hkind & Hins) Hsrc.
  unfold OpMultiArrayStacker.setRightShape.
  destruct (setRightShape_fold _ (OpMultiArrayStacker.AxisIndex op) a o1 o2 Ho1
              _ _ Hsrc 0 [] [] None (OpMultiArrayStacker.Output op))
    as (itk' & ax' & out' & -> & Hstate).
  destruct (Hstate lst Hlast) as (-> & Hout). clear Hstate.
  cbn [mbind res_bind]. simpl app.
  destruct (Forall2_last_l _ _ _ _ Hsrc Hlast)
    as ([lnative ln] & _ & _ & Hlax & _ & _ & Hlk).
  remember (OpMultiArrayStacker.Images op) as srcs eqn:Hsrcs.
  destruct Hsrc as [|first' [fnative fn] rest ds' (_ & _ & Hfax & Hfshape & _) _];
    [done|].
  simpl in Hhead. injection Hhead as ->.
  unfold get_shape. rewrite Hfshape. cbn [or_raise mbind res_bind].
  rewrite Hfax in Hkind. rewrite <- Hkind in *. subst lnative.
  destruct fnative.
  - subst out'. unfold axis_index. rewrite Hlk. cbn [or_raise mbind res_bind].
    rewrite (py_setitem_at _ _ _ _ a) by done. cbn [mbind res_bind].
    eexists. split; [reflexivity|]. simpl. by rewrite Hlk.
  - destruct Hout as [-> ->]. cbn [or_raise mbind res_bind].
    destruct (Hins eq_refl) as [<- Hle].
    rewrite (py_insert_at _ _ _ a) by done.
    eexists. split; [reflexivity|]. simpl. repeat split.
    assert (OpMultiArrayStacker.AxisFlag op ∉ axistags (meta lst)) as Hnotin.
    { unfold has_axis in Hkind. symmetry in Hkind.
      by apply bool_decide_eq_false in Hkind. }
    destruct (ideal_blockshape (meta lst)); simpl;
      destruct (max_blockshape (meta lst)); simpl;
      by apply index_of_insert.
Qed.

(** A stack of sources that all own the axis is well formed. *)
Lemma stack_config_native (flag : string) (AxisIndex_ : option nat) (a : nat)
    (o1 o2 : list Z) (srcs : list Slot) (ds : list (bool * Z)) :
  length o1 = a → srcs ≠ [] →
  Forall2 (stack_source flag a o1 o2) srcs ds →
  Forall (λ d, d.1 = true) ds →
  stack_config flag AxisIndex_ a o1 srcs.
Proof.
  intros Ho1 Hne Hsrc Hnat.
  assert (∀ src, src ∈ srcs → has_axis flag (axistags (meta src)) = true) as Hall.
  { intros src Hin. apply list_elem_of_lookup in Hin as [i Hi].
    destruct (Forall2_lookup_l _ _ _ _ _ Hsrc Hi) as ([native n] & Hd & Hs).
    destruct Hs as (_ & _ & -> & _).
    rewrite Forall_forall in Hnat. apply (Hnat (native, n)).
    by eapply list_elem_of_lookup_2. }
  split; [done|].
  destruct srcs as [|first rest]; [done|].
  destruct (last (first :: rest)) as [lst|] eqn:Hlast.
  2:{ by apply last_None in Hlast. }
  exists first, lst. split; [done|]. split; [done|].
  assert (lst ∈ first :: rest) as Hin.
  { apply last_Some in Hlast as [l' ->]. apply elem_of_app. right. left. }
  rewrite (Hall first) by left. rewrite (Hall lst) by done.
  split; [done|]. done.
Qed.

(** ** Sources as conceptual arrays *)

Lemma array_slot_serves (m : MetaDict) (A : Coord → Z) : serves (array_slot m A) A.
Proof.
  intros shp a b Hshape Hroi. unfold array_slot in *. simpl in *.
  unfold get_shape. rewrite Hshape. simpl. rewrite Hroi.
  eexists. split; [reflexivity|]. simpl. split; [done|].
  intros l Hl. by rewrite Hl.
Qed.

Lemma roiToSlice_mid (s1 s2 e1 e2 : Coord) (b e : Z) :
  length s1 = length e1 →
  roiToSlice s1 e1 ++ Slice b e :: roiToSlice s2 e2
  = roiToSlice (s1 ++ b :: s2) (e1 ++ e :: e2).
Proof. intros H. unfold roiToSlice. by rewrite zip_with_app. Qed.



(** ** Points of a ROI *)

Lemma in_roi_length (a b p : Coord) :
  in_roi a b p = true → length a = length p ∧ length b = length p.
Proof.
  revert b p. induction a as [|x a IH]; intros [|y b] [|z p]; simpl; try done.
  intros (_ & H)%andb_true_iff. destruct (IH _ _ H). split; congruence.
Qed.

Lemma in_roi_app (a1 a2 b1 b2 p1 p2 : Coord) :
  length a1 = length p1 → length b1 = length p1 →
  in_roi (a1 ++ a2) (b1 ++ b2) (p1 ++ p2) = in_roi a1 b1 p1 && in_roi a2 b2 p2.
Proof.
  revert b1 p1. induction a1 as [|x a1 IH]; intros [|y b1] [|z p1]; simpl; try done.
  intros [= H1] [= H2]. rewrite IH by done. by rewrite andb_assoc.
Qed.

Lemma in_roi_box (a b p : Coord) :
  in_roi a b p = true →
  in_box (tv_sub b a) (tv_sub p a) = true ∧ tv_add a (tv_sub p a) = p.
Proof.
  revert b p. induction a as [|x a IH]; intros [|y b] [|z p]; simpl; try done.
  intros [[H1%Z.leb_le H2%Z.ltb_lt]%andb_true_iff H]%andb_true_iff.
  destruct (IH _ _ H) as [Hb Hp]. unfold tv_sub, tv_add in *. simpl.
  rewrite Hb, Hp. split; [by zbool|]. f_equal. lia.
Qed.

(** ** OpMultiArrayStacker: execution *)



(** With the two sources in the other order the configuration itself fails:
    the extent is assigned at the position of the axis in the last source,
    which the first source's shape does not have. *)
Lemma stacker_mixed_ends_swapped_fails :
  OpMultiArrayStacker.setupOutputs stacker_mixed_ends_swapped = Raise IndexError.
Proof. reflexivity. Qed.



(** The stack of [stacker_mixed], evaluated on its whole 2x6 output: per row,
    the three channels of the first source, the second source's pixel and the
    two channels of the third. *)
Lemma stacker_mixed_cells :
  ∃ op' res',
    OpMultiArrayStacker.setupOutputs stacker_mixed = Ok op' ∧
    OpMultiArrayStacker.intervals op' = [(0, 3); (3, 4); (4, 6)] ∧
    shape (OpMultiArrayStacker.Output op') = Some [2; 6] ∧
    OpMultiArrayStacker.execute op' (mkRoi [0; 0] [2; 6]) (np_empty [2; 6])
    = Ok res' ∧
    arr_at res' <$> ndindex [2; 6]
    = [Some 100; Some 101; Some 102; Some 200; Some 300; Some 301;
       Some 110; Some 111; Some 112; Some 210; Some 310; Some 311].
Proof. do 2 eexists. repeat split; reflexivity. Qed.

(** The stacker of [stacker_two_sources], evaluated on the ROI
    [(1, 0) .. (4, 2)] of its 4x2 output: one row of the first source, then
    the two rows of the second. *)
Lemma stacker_two_sources_cells :
  ∃ op' res',
    OpMultiArrayStacker.setupOutputs stacker_two_sources = Ok op' ∧
    OpMultiArrayStacker.intervals op' = [(0, 2); (2, 4)] ∧
    OpMultiArrayStacker.execute op' (mkRoi [1; 0] [4; 2]) (np_empty [3; 2])
    = Ok res' ∧
    arr_at res' <$> ndindex [3; 2]
    = [Some 1; Some 1; Some 2; Some 2; Some 2; Some 2].
Proof. do 2 eexists. repeat split; reflexivity. Qed.

(** ** OpMultiArraySlicer2 followed by OpMultiArrayStacker *)

Lemma py_range_lookup (n : Z) (i : nat) :
  (i < Z.to_nat n)%nat → py_range 0 n !! i = Some (Z.of_nat i).
Proof.
  intros Hi. unfold py_range. rewrite list_lookup_fmap, Z.sub_0_r.
  rewrite lookup_seq_lt by done. done.
Qed.

Lemma py_range_length (n : Z) : length (py_range 0 n) = Z.to_nat n.
Proof. unfold py_range. by rewrite length_fmap, length_seq, Z.sub_0_r. Qed.

Lemma index_of_has_axis (key : string) (tags : list string) (a : nat) :
  index_of key tags = Some a → has_axis key tags = true.
Proof.
  intros H. apply bool_decide_eq_true.
  apply list_elem_of_lookup. exists a. by apply index_of_Some_lookup.
Qed.

Lemma insert_at {A} (k1 k2 : list A) (x y : A) (n : nat) :
  length k1 = n → <[n := y]> (k1 ++ x :: k2) = k1 ++ y :: k2.
Proof. intros <-. rewrite insert_app_r_alt by lia. by rewrite Nat.sub_diag. Qed.

Section slicer_roundtrip.
Variables (A : Coord → Z) (mA : MetaDict) (flag : string) (a : nat).
Variables (o1 o2 : list Z) (N : Z).
Hypothesis Hshape : shape mA = Some (o1 ++ N :: o2).
Hypothesis Hidx : index_of flag (axistags mA) = Some a.
Hypothesis Ho1 : length o1 = a.

Local Abbreviation oslot := (slice_meta mA (o1 ++ 1 :: o2)) (only parsing).
Local Abbreviation sliced := (default_slicer A mA flag (o1 ++ 1 :: o2) N) (only parsing).

Lemma oslot_shape : shape oslot = Some (o1 ++ 1 :: o2).
Proof. unfold slice_meta. by destruct (drange mA). Qed.

Lemma oslot_axistags : axistags oslot = axistags mA.
Proof. unfold slice_meta. by destruct (drange mA). Qed.

Lemma slicer_setupOutputs_default :
  OpMultiArraySlicer2.setupOutputs
    (OpMultiArraySlicer2.mk (array_slot mA A) flag None []) = Ok sliced.
Proof using Hshape Hidx Ho1.
  unfold OpMultiArraySlicer2.setupOutputs, OpMultiArraySlicer2.getSliceIndexes.
  cbn [OpMultiArraySlicer2.SliceIndexes OpMultiArraySlicer2.Input
       OpMultiArraySlicer2.AxisFlag].
  change (meta (array_slot mA A)) with mA. unfold axis_index, get_shape.
  rewrite Hidx, Hshape. cbn [or_raise mbind res_bind].
  destruct (decide _) as [_|Hn].
  2:{ exfalso. apply Hn. rewrite length_app. simpl. lia. }
  cbn [mbind res_bind]. rewrite (lookup_at _ _ _ a) by done.
  cbn [or_raise mbind res_bind]. rewrite py_range_length.
  rewrite (py_pop_at _ _ _ a), (py_insert_at _ _ _ a) by done.
  unfold default_slicer, slice_meta, assignFrom. by destruct (drange mA).
Qed.

Lemma slicer_slot_stack_source (i : nat) :
  (i < Z.to_nat N)%nat →
  stack_source flag a o1 o2
    (OpMultiArraySlicer2.Slices_slot sliced i) (true, 1).
Proof using Hidx.
  intros Hi. unfold OpMultiArraySlicer2.Slices_slot, output_slot. simpl.
  rewrite lookup_replicate_2 by done. simpl.
  unfold stack_source. simpl.
  rewrite oslot_shape, oslot_axistags.
  assert (Hax := index_of_has_axis _ _ _ Hidx).
  assert (Hne := has_axis_nonempty _ _ Hax).
  repeat split; (done || lia).
Qed.

Lemma slicer_slot_source_ok (i : nat) (s1 e1 s2 e2 : Coord) :
  (i < Z.to_nat N)%nat →
  roi_within s1 e1 o1 = true → roi_within s2 e2 o2 = true →
  source_ok flag a s1 e1 s2 e2 (OpMultiArraySlicer2.Slices_slot sliced i)
    (true, 1, λ q, A (<[a := Z.of_nat i]> q)).
Proof using Hshape Hidx Ho1.
  intros Hi Hr1 Hr2.
  destruct (roi_within_length _ _ _ Hr1) as [Hls1 Hle1].
  destruct (roi_within_length _ _ _ Hr2) as [Hls2 Hle2].
  assert (meta (OpMultiArraySlicer2.Slices_slot sliced i) = oslot) as Hmeta.
  { unfold OpMultiArraySlicer2.Slices_slot, output_slot. simpl.
    by rewrite lookup_replicate_2. }
  split.
  { rewrite Hmeta, oslot_axistags. by eapply index_of_has_axis. }
  split; [lia|]. split.
  { exists (o1 ++ 1 :: o2). rewrite Hmeta, oslot_shape. split; [done|].
    by apply lookup_at. }
  intros b e Hb Hbe He Hpos.
  assert (b = 0) as -> by lia. assert (e = 1) as -> by lia.
  unfold slot_getitem. rewrite Hmeta. unfold get_shape at 1.
  rewrite oslot_shape. cbn [or_raise mbind res_bind].
  rewrite roiToSlice_mid by congruence.
  rewrite sliceToRoi_roiToSlice
    by (rewrite length_app; simpl; rewrite length_app; simpl; lia).
  cbn [mbind res_bind].
  unfold OpMultiArraySlicer2.Slices_slot, output_slot. cbn [get].
  change (OpMultiArraySlicer2.Slices sliced) with (replicate (Z.to_nat N) oslot).
  rewrite lookup_replicate_2 by done.
  change (default empty_meta (Some oslot)) with oslot.
  unfold get_shape at 1. rewrite oslot_shape. cbn [or_raise mbind res_bind].
  assert (roi_within (s1 ++ 0 :: s2) (e1 ++ 1 :: e2) (o1 ++ 1 :: o2) = true) as ->.
  { apply roi_within_mid; [done|done|]. repeat split; (done || lia). }
  (* the slicer's execute *)
  unfold OpMultiArraySlicer2.execute, OpMultiArraySlicer2.getSliceIndexes.
  cbn [OpMultiArraySlicer2.SliceIndexes OpMultiArraySlicer2.Input
       OpMultiArraySlicer2.AxisFlag OpMultiArraySlicer2.Slices sliced
       start stop].
  change (meta (array_slot mA A)) with mA.
  unfold axis_index, get_shape. rewrite Hidx, Hshape.
  cbn [or_raise mbind res_bind]. rewrite (lookup_at _ _ _ a) by done.
  cbn [or_raise mbind res_bind]. rewrite py_range_lookup by done.
  rewrite lookup_replicate_2 by done.
  cbn [or_raise mbind res_bind]. rewrite oslot_shape.
  cbn [or_raise mbind res_bind].
  rewrite sliceToRoi_roiToSlice
    by (rewrite length_app; simpl; rewrite length_app; simpl; lia).
  cbn [mbind res_bind].
  destruct (decide _) as [_|Hn].
  2:{ exfalso. apply Hn. rewrite length_app. simpl. lia. }
  destruct (decide _) as [_|Hn].
  2:{ exfalso. apply Hn. rewrite length_app. simpl. lia. }
  cbn [mbind res_bind].
  rewrite !(py_pop_at _ _ _ a), !(py_insert_at _ _ _ a) by congruence.
  unfold slot_getitem. change (meta (array_slot mA A)) with mA.
  unfold get_shape. rewrite Hshape.
  cbn [or_raise mbind res_bind].
  rewrite sliceToRoi_roiToSlice
    by (rewrite length_app; simpl; rewrite length_app; simpl; lia).
  cbn [mbind res_bind].
  destruct (array_slot_serves mA A _ (s1 ++ Z.of_nat i :: s2)
              (e1 ++ (Z.of_nat i + 1) :: e2) Hshape)
    as (blk & -> & Hbs & Hbc).
  { apply roi_within_mid; [done|done|]. repeat split; (done || lia). }
  cbn [mbind res_bind].
  rewrite tv_sub_app in Hbs, Hbc by congruence. simpl in Hbs, Hbc.
  replace (Z.of_nat i + 1 - Z.of_nat i) with 1 in Hbs, Hbc by lia.
  destruct (writeInto_whole blk
              (np_empty (tv_sub (e1 ++ 1 :: e2) (s1 ++ 0 :: s2))))
    as (r' & -> & Hs' & Hcell).
  { simpl. rewrite tv_sub_app by congruence. done. }
  exists r'. split; [done|].
  simpl in Hs', Hcell. rewrite tv_sub_app in Hs', Hcell by congruence.
  simpl in Hs', Hcell. split; [done|].
  intros l1 x l2 Hl1 Hx Hl2. assert (x = 0) as -> by lia.
  assert (Hll := in_box_length _ _ Hl1). rewrite tv_sub_length in Hll by congruence.
  rewrite Hcell.
  rewrite in_box_mid by (rewrite tv_sub_length; congruence).
  rewrite Hl1, Hl2. simpl.
  rewrite Hbc.
  - rewrite tv_add_app by congruence. simpl.
    rewrite (insert_at _ _ _ _ a).
    + by rewrite Z.add_0_r.
    + unfold tv_add. rewrite length_zip_with. lia.
  - rewrite in_box_mid by (rewrite tv_sub_length; congruence).
    by rewrite Hl1, Hl2.
Qed.

End slicer_roundtrip.

Lemma sum_ones {A} (l : list A) : foldr Z.add 0 ((λ _, 1) <$> l) = Z.of_nat (length l).
Proof. induction l as [|x l IH]; [done|]. rewrite fmap_cons. simpl. lia. Qed.

Lemma offsets_ones {A} (c : Z) (l : list A) (j : nat) :
  (j < length l)%nat →
  offsets c ((λ _, 1) <$> l) !! j = Some (c + Z.of_nat j, c + Z.of_nat j + 1).
Proof.
  revert c j. induction l as [|x l IH]; intros c j Hj; simpl in Hj; [lia|].
  rewrite fmap_cons. destruct j as [|j]; simpl.
  - by rewrite Z.add_0_r.
  - rewrite IH by lia. do 2 f_equal; lia.
Qed.

Lemma Forall2_seq_fmap {B C} (P : B → C → Prop) (f : nat → B) (g : nat → C)
    (n : nat) :
  (∀ i, (i < n)%nat → P (f i) (g i)) →
  Forall2 P (f <$> seq 0 n) (g <$> seq 0 n).
Proof.
  intros H. apply Forall2_fmap, Forall_Forall2_diag, Forall_forall.
  intros i Hi%elem_of_seq. apply H. lia.
Qed.

(** C2: slicing an array along one of its axes into all indices (the default
    [SliceIndexes]) and stacking the sub-outputs back along the same axis, in
    order, reproduces the array: on every ROI of the full shape the stacker's
    [execute] returns exactly the cells of [A] over that ROI.  (A ROI of an
    array without any index along the axis has no points.) *)
Theorem slice_then_stack_roundtrip
    (A : Coord → Z) (mA : MetaDict) (flag : string) (a : nat)
    (o1 o2 : list Z) (N : Z) :
  shape mA = Some (o1 ++ N :: o2) →
  index_of flag (axistags mA) = Some a →
  length o1 = a →
  ∃ sl stk,
    OpMultiArraySlicer2.setupOutputs
      (OpMultiArraySlicer2.mk (array_slot mA A) flag None []) = Ok sl ∧
    OpMultiArraySlicer2.getSliceIndexes sl = Ok (py_range 0 N) ∧
    length (OpMultiArraySlicer2.Slices sl) = Z.to_nat N ∧
    OpMultiArrayStacker.setupOutputs
      (OpMultiArrayStacker.mk
         (OpMultiArraySlicer2.Slices_slot sl
            <$> seq 0 (length (OpMultiArraySlicer2.Slices sl)))
         flag None empty_meta []) = Ok stk ∧
    ∀ st sp, roi_within st sp (o1 ++ N :: o2) = true →
      (∀ p, in_roi st sp p = true → 0 < N) ∧
      (0 < N →
       shape (OpMultiArrayStacker.Output stk) = Some (o1 ++ N :: o2) ∧
       ∃ res',
         OpMultiArrayStacker.execute stk (mkRoi st sp) (np_empty (tv_sub sp st))
         = Ok res' ∧
         arr_shape res' = tv_sub sp st ∧
         (∀ p, in_roi st sp p = true → arr_at res' (tv_sub p st) = Some (A p)) ∧
         (∀ q, in_box (tv_sub sp st) q = false → arr_at res' q = None)).
Proof.
  intros Hshape Hidx Ho1.
  eexists. rewrite (slicer_setupOutputs_default A mA flag a o1 o2 N) by done.
  set (sliced := default_slicer A mA flag (o1 ++ 1 :: o2) N).
  assert (OpMultiArraySlicer2.getSliceIndexes sliced = Ok (py_range 0 N)) as Hgsi.
  { unfold OpMultiArraySlicer2.getSliceIndexes. simpl.
    change (meta (array_slot mA A)) with mA. unfold axis_index, get_shape.
    rewrite Hidx, Hshape. simpl. by rewrite (lookup_at _ _ _ a). }
  assert (length (OpMultiArraySlicer2.Slices sliced) = Z.to_nat N) as Hlen
    by apply length_replicate.
  rewrite Hlen.
  set (n := Z.to_nat N) in *.
  assert (n = Z.to_nat N) as Hn by done.
  set (images := OpMultiArraySlicer2.Slices_slot sliced <$> seq 0 n).
  set (stk0 := OpMultiArrayStacker.mk images flag None empty_meta []).
  assert (∀ st sp p, roi_within st sp (o1 ++ N :: o2) = true →
            in_roi st sp p = true → 0 < N) as Hpoint.
  { intros st sp p Hroi Hin.
    destruct (roi_within_length _ _ _ Hroi) as [Hlst Hlsp].
    destruct (in_roi_length _ _ _ Hin) as [Hlp _].
    rewrite length_app in Hlst, Hlsp. simpl in Hlst, Hlsp.
    destruct (coord_split (length o1) (length o2) st)
      as (s1 & sa & s2 & -> & Hs1 & Hs2); [lia|].
    destruct (coord_split (length o1) (length o2) sp)
      as (e1 & ea & e2 & -> & He1 & He2); [lia|].
    rewrite length_app in Hlp. simpl in Hlp.
    destruct (coord_split (length o1) (length o2) p)
      as (p1 & pa & p2 & -> & Hp1 & Hp2); [lia|].
    apply roi_within_mid in Hroi as (_ & Hra & _); [|done..].
    rewrite in_roi_app in Hin by congruence.
    apply andb_true_iff in Hin as [_ Hin2]. simpl in Hin2.
    apply andb_true_iff in Hin2 as [[Hlo%Z.leb_le Hhi%Z.ltb_lt]%andb_true_iff _].
    lia. }
  destruct (decide (0 < N)) as [Hpos|Hneg].
  2:{ (* no index along the axis: no sub-output, and no point in any ROI *)
      assert (n = 0%nat) as Hn0 by lia.
      eexists. split; [reflexivity|]. split; [done|]. split; [done|].
      split.
      { unfold OpMultiArrayStacker.setupOutputs, OpMultiArrayStacker.setRightShape.
        unfold stk0, images. rewrite Hn0. simpl. reflexivity. }
      intros st sp Hroi. split; [by eauto|]. intros; lia. }
  assert (Forall2 (stack_source flag a o1 o2) images
            ((λ _, (true, 1)) <$> seq 0 n)) as Hsrc.
  { apply Forall2_seq_fmap. intros i Hi.
    by apply (slicer_slot_stack_source A mA flag a o1 o2 N). }
  assert (OpMultiArrayStacker.Images stk0 ≠ []) as Hne.
  { unfold stk0, images. simpl. intros Heq%(f_equal length).
    rewrite length_fmap, length_seq in Heq. simpl in Heq. lia. }
  assert (stack_config flag None a o1 images) as Hcfg.
  { apply (stack_config_native _ _ _ _ o2 _ _ Ho1 Hne Hsrc).
    apply Forall_fmap. by apply Forall_true. }
  destruct (setRightShape_spec stk0 a o1 o2
              ((λ _ : nat, (true, 1)) <$> seq 0 n) Hcfg Hsrc)
    as (stk & Hset & HI & HF & Hiv & Hsh & Hix).
  rewrite <- list_fmap_compose in Hsh.
  change (snd ∘ (λ _ : nat, (true, 1))) with (λ _ : nat, 1) in Hsh.
  rewrite sum_ones, length_seq in Hsh. replace (Z.of_nat n) with N in Hsh by lia.
  exists stk. split; [done|]. split; [done|]. split; [done|]. split; [done|].
  intros st sp Hroi. split; [by eauto|]. intros _. split; [done|].
  destruct (roi_within_length _ _ _ Hroi) as [Hlst Hlsp].
  rewrite length_app in Hlst, Hlsp. simpl in Hlst, Hlsp.
  destruct (coord_split (length o1) (length o2) st)
    as (s1 & sa & s2 & -> & Hs1 & Hs2); [lia|].
  destruct (coord_split (length o1) (length o2) sp)
    as (e1 & ea & e2 & -> & He1 & He2); [lia|].
  assert (Hroi' := Hroi).
  apply roi_within_mid in Hroi' as (Hr1 & Hra & Hr2); [|done..].
  assert (Forall2 (source_ok (OpMultiArrayStacker.AxisFlag stk) a s1 e1 s2 e2)
            (OpMultiArrayStacker.Images stk)
            ((λ i : nat, (true, 1, λ q, A (<[a := Z.of_nat i]> q))) <$> seq 0 n))
    as Hok.
  { rewrite HI, HF. apply Forall2_seq_fmap. intros i Hi.
    by apply (slicer_slot_source_ok A mA flag a o1 o2 N). }
  change (OpMultiArrayStacker.AxisFlag stk0) with flag in Hix.
  replace flag with (OpMultiArrayStacker.AxisFlag stk) in Hix by done.
  destruct (stacker_execute_spec stk a o1 o2 N s1 e1 s2 e2 sa ea
              _ (np_empty (tv_sub (e1 ++ ea :: e2) (s1 ++ sa :: s2)))
              Hsh Hix Ho1 Hroi ltac:(congruence) ltac:(congruence) Hok)
    as (res' & Hexec & Hs' & Hcell & Hout).
  { simpl. by rewrite tv_sub_app by congruence. }
  exists res'. split; [done|]. split; [done|]. split.
  - intros p Hin. destruct (in_roi_length _ _ _ Hin) as [Hlp _].
    rewrite length_app in Hlp. simpl in Hlp.
    destruct (coord_split (length o1) (length o2) p)
      as (p1 & pa & p2 & -> & Hp1 & Hp2); [lia|].
    rewrite in_roi_app in Hin by congruence.
    apply andb_true_iff in Hin as [Hin1 Hin2]. simpl in Hin2.
    apply andb_true_iff in Hin2 as [[Hlo%Z.leb_le Hhi%Z.ltb_lt]%andb_true_iff Hin2].
    destruct (in_roi_box _ _ _ Hin1) as [Hb1 Hp1'].
    destruct (in_roi_box _ _ _ Hin2) as [Hb2 Hp2'].
    rewrite tv_sub_app by congruence. simpl.
    rewrite (Hcell (Z.to_nat pa) true 1 (λ q, A (<[a := Z.of_nat (Z.to_nat pa)]> q))
               pa (pa + 1)); try done; try lia.
    + unfold source_cell. rewrite Hp1', Hp2'.
      rewrite (insert_at _ _ _ _ a) by congruence.
      by replace (Z.of_nat (Z.to_nat pa)) with pa by lia.
    + rewrite list_lookup_fmap, lookup_seq_lt by lia. done.
    + rewrite <- list_fmap_compose.
      change (offsets 0 ((λ _ : nat, 1) <$> seq 0 n) !! Z.to_nat pa
              = Some (pa, pa + 1)).
      rewrite (offsets_ones 0 (seq 0 n) (Z.to_nat pa)) by (rewrite length_seq; lia).
      do 2 f_equal; lia.
  - intros q Hq. by rewrite Hout.
Qed.

Lemma slice_then_stack_roundtrip_witness :
  ∃ sl stk,
    OpMultiArraySlicer2.setupOutputs
      (OpMultiArraySlicer2.mk
         (array_slot (meta_of [2; 3] ["x"; "y"]%string None)
            (λ q, 10 * default 0 (q !! 0%nat) + default 0 (q !! 1%nat)))
         "y" None []) = Ok sl ∧
    OpMultiArraySlicer2.getSliceIndexes sl = Ok (py_range 0 3) ∧
    length (OpMultiArraySlicer2.Slices sl) = Z.to_nat 3 ∧
    OpMultiArrayStacker.setupOutputs
      (OpMultiArrayStacker.mk
         (OpMultiArraySlicer2.Slices_slot sl
            <$> seq 0 (length (OpMultiArraySlicer2.Slices sl)))
         "y" None empty_meta []) = Ok stk ∧
    ∀ st sp, roi_within st sp ([2] ++ 3 :: []) = true →
      (∀ p, in_roi st sp p = true → 0 < 3) ∧
      (0 < 3 →
       shape (OpMultiArrayStacker.Output stk) = Some ([2] ++ 3 :: []) ∧
       ∃ res',
         OpMultiArrayStacker.execute stk (mkRoi st sp) (np_empty (tv_sub sp st))
         = Ok res' ∧
         arr_shape res' = tv_sub sp st ∧
         (∀ p, in_roi st sp p = true →
            arr_at res' (tv_sub p st)
            = Some (10 * default 0 (p !! 0%nat) + default 0 (p !! 1%nat))) ∧
         (∀ q, in_box (tv_sub sp st) q = false → arr_at res' q = None)).
Proof.
  apply (slice_then_stack_roundtrip
           (λ q, 10 * default 0 (q !! 0%nat) + default 0 (q !! 1%nat))
           (meta_of [2; 3] ["x"; "y"]%string None) "y" 1 [2] [] 3);
    reflexivity.
Defined.

(** The round trip evaluated on the 2x3 array whose cell [(x, y)] holds
    [10 x + y], over the full ROI. *)
Lemma slice_then_stack_cells :
  ∃ sl stk res',
    OpMultiArraySlicer2.setupOutputs
      (OpMultiArraySlicer2.mk
         (array_slot (meta_of [2; 3] ["x"; "y"]%string None)
            (λ q, 10 * default 0 (q !! 0%nat) + default 0 (q !! 1%nat)))
         "y" None []) = Ok sl ∧
    OpMultiArrayStacker.setupOutputs
      (OpMultiArrayStacker.mk
         (OpMultiArraySlicer2.Slices_slot sl
            <$> seq 0 (length (OpMultiArraySlicer2.Slices sl)))
         "y" None empty_meta []) = Ok stk ∧
    OpMultiArrayStacker.execute stk (mkRoi [0; 0] [2; 3]) (np_empty [2; 3])
    = Ok res' ∧
    arr_at res' <$> ndindex [2; 3]
    = [Some 0; Some 1; Some 2; Some 10; Some 11; Some 12].
Proof. do 3 eexists. repeat split; reflexivity. Qed.

(** ** OpMultiArrayStacker: dirty propagation, as implemented *)





(** Outside the well-formed stacks the whole output need not contain the
    shifted box: at [stacker_ragged], whose sources are 2x2 and 3x3, the
    output is 5x2, and the whole of the second source, shifted by its offset
    2, reaches beyond it. *)
Lemma stacker_ragged_shifted_box_outside :
  ∃ op',
    OpMultiArrayStacker.setupOutputs stacker_ragged = Ok op' ∧
    OpMultiArrayStacker.intervals op' !! 1%nat = Some (2, 5) ∧
    shape (OpMultiArrayStacker.Output op') = Some [5; 2] ∧
    OpMultiArrayStacker.propagateDirty op' StackerImages 1 (mkRoi [0; 0] [3; 3])
    = Ok [DirtyAll] ∧
    shifted_dirty_box 0 2 (mkRoi [0; 0] [3; 3]) = mkRoi [2; 0] [5; 3] ∧
    roi_within [2; 0] [5; 3] [5; 2] = false.
Proof. eexists. repeat split; reflexivity. Qed.

(** ** OpMultiArraySlicer2: dirty propagation with the default indexes *)

Lemma foldlM_collect {A B} (body : list B → A → res (list B)) (f : A → B)
    (l : list A) (acc : list B) :
  (∀ x acc', x ∈ l → body acc' x = Ok (acc' ++ [f x])) →
  foldlM body acc l = Ok (acc ++ (f <$> l)).
Proof.
  revert acc. induction l as [|x l IH]; intros acc H; simpl.
  - by rewrite app_nil_r.
  - rewrite H by left. simpl. rewrite IH by (intros; apply H; by right).
    by rewrite <- app_assoc.
Qed.

(** When every index of the sliced axis is exposed (the default), position and
    sub-output number coincide: a dirty region spanning the positions
    [sa .. ea - 1] of the axis marks exactly the sub-outputs with these
    numbers, each with the axis collapsed to [0, 1) and the other axes
    unchanged. *)
Lemma slicer_propagateDirty_default
    (A : Coord → Z) (mA : MetaDict) (flag : string) (a : nat)
    (o1 o2 : list Z) (N : Z) (s1 e1 s2 e2 : Coord) (sa ea : Z) :
  shape mA = Some (o1 ++ N :: o2) →
  index_of flag (axistags mA) = Some a →
  length o1 = a → length s1 = a → length e1 = a →
  0 ≤ sa → ea ≤ N →
  OpMultiArraySlicer2.propagateDirty
    (default_slicer A mA flag (o1 ++ 1 :: o2) N) SlicerInputSlot
    (mkRoi (s1 ++ sa :: s2) (e1 ++ ea :: e2))
  = Ok ((λ p, (Z.to_nat p, DirtyRoi (mkRoi (s1 ++ 0 :: s2) (e1 ++ 1 :: e2))))
          <$> py_range sa ea).
Proof.
  intros Hshape Hidx Ho1 Hs1 He1 Hsa Hea.
  unfold OpMultiArraySlicer2.propagateDirty, OpMultiArraySlicer2.getSliceIndexes.
  cbn [OpMultiArraySlicer2.SliceIndexes OpMultiArraySlicer2.Input
       OpMultiArraySlicer2.AxisFlag OpMultiArraySlicer2.Slices default_slicer
       start stop].
  change (meta (array_slot mA A)) with mA. unfold axis_index, get_shape.
  rewrite Hidx, Hshape. cbn [or_raise mbind res_bind].
  assert (zip (s1 ++ sa :: s2) (e1 ++ ea :: e2) !! a = Some (sa, ea)) as ->.
  { rewrite zip_with_app by congruence.
    apply lookup_at. rewrite length_zip_with. lia. }
  cbn [or_raise mbind res_bind]. rewrite (lookup_at _ _ _ a) by done.
  cbn [or_raise mbind res_bind fst snd].
  rewrite (foldlM_collect _
             (λ p, (Z.to_nat p, DirtyRoi (mkRoi (s1 ++ 0 :: s2) (e1 ++ 1 :: e2))))).
  { done. }
  intros i acc Hi%elem_of_py_range.
  rewrite bool_decide_eq_true_2 by (apply elem_of_py_range; lia).
  rewrite length_replicate.
  replace (i <? Z.of_nat (Z.to_nat N)) with true
    by (symmetry; apply Z.ltb_lt; lia).
  unfold py_position.
  replace (i <? 0) with false by (symmetry; apply Z.ltb_ge; lia).
  replace (0 <=? i) with true by (symmetry; apply Z.leb_le; lia).
  replace (i <? Z.of_nat (Z.to_nat N)) with true
    by (symmetry; apply Z.ltb_lt; lia).
  cbn [andb mbind res_bind].
  by rewrite !(py_setitem_at _ _ _ _ a) by done.
Qed.

(** A stack along a new axis: three 1-D sources get the axis ["c"] inserted in
    front ([AxisIndex = 0]); each contributes one position. *)
Lemma stacker_new_axis_cells :
  ∃ op' res',
    OpMultiArrayStacker.setupOutputs
      (OpMultiArrayStacker.mk
         [array_slot (meta_of [2] ["x"]%string None) (λ q, 100 + default 0 (q !! 0%nat));
          array_slot (meta_of [2] ["x"]%string None) (λ q, 200 + default 0 (q !! 0%nat));
          array_slot (meta_of [2] ["x"]%string None) (λ q, 300 + default 0 (q !! 0%nat))]
         "c" (Some 0%nat) empty_meta []) = Ok op' ∧
    axistags (OpMultiArrayStacker.Output op') = ["c"; "x"]%string ∧
    shape (OpMultiArrayStacker.Output op') = Some [3; 2] ∧
    OpMultiArrayStacker.intervals op' = [(0, 1); (1, 2); (2, 3)] ∧
    OpMultiArrayStacker.execute op' (mkRoi [1; 0] [3; 2]) (np_empty [2; 2])
    = Ok res' ∧
    arr_at res' <$> ndindex [2; 2]
    = [Some 200; Some 201; Some 300; Some 301].
Proof. do 2 eexists. repeat split; reflexivity. Qed.

(** * Further properties *)

(** ** Utility functions *)

Lemma axisTagsToString_keys (axistags : list string) :
  axisTagsToString axistags = axistags.
Proof.
  unfold axisTagsToString.
  enough (∀ acc, foldl (λ (res : list string) (axistag : string), res ++ [axistag]) acc axistags
                 = acc ++ axistags) as H by apply (H []).
  induction axistags as [|t l IH]; intros acc; simpl.
  - by rewrite app_nil_r.
  - rewrite IH. by rewrite <- app_assoc.
Qed.

Lemma dict_get_absent {A} (t : string) (pairs : list (string * A)) :
  t ∉ pairs.*1 → dict_get t pairs = None.
Proof.
  induction pairs as [|[k v] l IH]; simpl; [done|].
  intros H. apply not_elem_of_cons in H as [Hne Hl].
  rewrite IH by done. by destruct (decide (k = t)).
Qed.

Lemma dict_get_zip {A} (tags : list string) (key : list A) (i : nat)
    (t : string) (x : A) :
  NoDup tags → tags !! i = Some t → key !! i = Some x →
  dict_get t (zip tags key) = Some x.
Proof.
  revert key i. induction tags as [|t0 tags IH]; intros key i Hnd Ht Hx; [done|].
  apply NoDup_cons in Hnd as [Hnotin Hnd].
  destruct key as [|x0 key]; [done|]. simpl.
  destruct i as [|i]; simpl in *.
  - injection Ht as ->. injection Hx as ->.
    rewrite dict_get_absent.
    + by destruct (decide (t = t)).
    + intros Hin. apply Hnotin.
      apply list_elem_of_fmap in Hin as ([k v] & -> & Hin).
      apply elem_of_zip_l in Hin. done.
  - by rewrite (IH key i).
Qed.

Lemma dict_get_zip_short {A} (tags : list string) (key : list A) (i : nat)
    (t : string) :
  NoDup tags → tags !! i = Some t → (length key ≤ i)%nat →
  dict_get t (zip tags key) = None.
Proof.
  intros Hnd Ht Hlen. apply dict_get_absent. intros Hin.
  apply list_elem_of_fmap in Hin as ([k v] & -> & Hin).
  apply list_elem_of_lookup in Hin as [j Hj].
  apply lookup_zip_with_Some in Hj as (k' & v' & [= <- <-] & Hk & Hv).
  simpl in Ht. assert (j = i) as -> by (eapply NoDup_lookup; eauto).
  apply lookup_lt_Some in Hv. lia.
Qed.

Lemma filter_all {A} (P : A → Prop) `{∀ x, Decision (P x)} (l : list A) :
  (∀ x, P x) → filter P l = l.
Proof.
  intros HP. induction l as [|x l IH]; [done|].
  rewrite filter_cons_True by done. by rewrite IH.
Qed.

Lemma popFlags_loop {A} (d : list (string * A)) (flags : list string)
    (pre l : list string) (kpre k : list A) (acc : list A) :
  NoDup (pre ++ l) → d = zip (pre ++ l) (kpre ++ k) →
  length pre = length kpre → (length l ≤ length k)%nat →
  foldlM (λ newKey flag,
            if bool_decide (flag ∉ flags) then
              slice ← or_raise KeyError (dict_get flag d);
              Ok (newKey ++ [slice])
            else Ok newKey) acc l
  = Ok (acc ++ (filter (λ p, p.1 ∉ flags) (zip l k)).*2).
Proof.
  revert pre kpre k acc. induction l as [|t l IH]; intros pre kpre k acc Hnd Hd Hpre Hlen.
  - simpl. by rewrite app_nil_r.
  - destruct k as [|x k]; simpl in Hlen; [lia|].
    cbn [foldlM zip zip_with].
    assert (dict_get t d = Some x) as Hget.
    { subst d. apply (dict_get_zip _ _ (length pre)); [done|..].
      - by apply lookup_mid.
      - rewrite Hpre. by apply lookup_mid. }
    assert (foldlM (λ newKey flag,
                      if bool_decide (flag ∉ flags) then
                        slice ← or_raise KeyError (dict_get flag d);
                        Ok (newKey ++ [slice])
                      else Ok newKey)
              (if bool_decide (t ∉ flags) then acc ++ [x] else acc) l
            = Ok ((if bool_decide (t ∉ flags) then acc ++ [x] else acc)
                    ++ (filter (λ p, p.1 ∉ flags) (zip l k)).*2)) as Hrest.
    { apply (IH (pre ++ [t]) (kpre ++ [x])).
      - by rewrite <- app_assoc.
      - by rewrite <- !app_assoc.
      - rewrite !length_app. simpl. lia.
      - lia. }
    rewrite filter_cons. simpl.
    destruct (decide (t ∉ flags)) as [Hin|Hin].
    + rewrite bool_decide_eq_true_2 in Hrest |- * by done.
      rewrite Hget. cbn [or_raise mbind res_bind]. rewrite Hrest.
      by rewrite <- app_assoc.
    + rewrite bool_decide_eq_false_2 in Hrest |- * by done.
      cbn [mbind res_bind]. by rewrite Hrest.
Qed.

Lemma popFlags_loop_KeyError {A} (d : list (string * A)) (flags : list string)
    (l : list string) (acc : list A) (t : string) :
  t ∈ l → t ∉ flags → dict_get t d = None →
  foldlM (λ newKey flag,
            if bool_decide (flag ∉ flags) then
              slice ← or_raise KeyError (dict_get flag d);
              Ok (newKey ++ [slice])
            else Ok newKey) acc l
  = Raise KeyError.
Proof.
  intros Hin Hflag Hnone. revert acc.
  induction l as [|t0 l IH]; intros acc; [by apply elem_of_nil in Hin|].
  cbn [foldlM]. destruct (decide (t0 = t)) as [->|Hne].
  - rewrite bool_decide_eq_true_2 by done. by rewrite Hnone.
  - apply elem_of_cons in Hin as [->|Hin]; [done|].
    destruct (bool_decide (t0 ∉ flags)).
    + destruct (dict_get t0 d); [|done]. cbn [or_raise mbind res_bind]. by apply IH.
    + cbn [mbind res_bind]. by apply IH.
Qed.

(** X1: with distinct axis keys and a key entry for every axis,
    [popFlagsFromTheKey] keeps, in order, exactly the key entries of the axes
    that are not flagged (so nothing is dropped when no axis is flagged); an
    unflagged axis that has no key entry is a [KeyError]. *)
Theorem popFlagsFromTheKey_filters {A} (key : list A) (axistags flags : list string) :
  NoDup axistags →
  ((length axistags ≤ length key)%nat →
     popFlagsFromTheKey key axistags flags
     = Ok ((filter (λ p, p.1 ∉ flags) (zip axistags key)).*2) ∧
     (flags = [] → length axistags = length key →
      popFlagsFromTheKey key axistags flags = Ok key)) ∧
  (∀ (i : nat) t, axistags !! i = Some t → t ∉ flags → (length key ≤ i)%nat →
     popFlagsFromTheKey key axistags flags = Raise KeyError).
Proof.
  intros Hnd. unfold popFlagsFromTheKey. rewrite axisTagsToString_keys.
  split.
  - intros Hlen.
    assert (foldlM (λ newKey flag,
                      if bool_decide (flag ∉ flags) then
                        slice ← or_raise KeyError (dict_get flag (zip axistags key));
                        Ok (newKey ++ [slice])
                      else Ok newKey) [] axistags
            = Ok ((filter (λ p, p.1 ∉ flags) (zip axistags key)).*2)) as Hmain.
    { by rewrite (popFlags_loop (zip axistags key) flags [] axistags [] key []). }
    split; [done|].
    intros -> Heq. rewrite Hmain. f_equal.
    rewrite filter_all by (intros p; apply not_elem_of_nil).
    apply snd_zip. lia.
  - intros i t Ht Hflag Hi.
    apply (popFlags_loop_KeyError _ _ _ _ t); [|done|].
    + by eapply list_elem_of_lookup_2.
    + by apply (dict_get_zip_short _ _ i).
Qed.

Lemma popFlagsFromTheKey_filters_witness :
  ((length ["t"; "x"; "c"]%string ≤ length [Slice 0 2; Slice 1 3; Slice 0 5])%nat →
     popFlagsFromTheKey [Slice 0 2; Slice 1 3; Slice 0 5] ["t"; "x"; "c"]%string
       ["c"]%string
     = Ok ((filter (λ p, p.1 ∉ ["c"]%string)
              (zip ["t"; "x"; "c"]%string [Slice 0 2; Slice 1 3; Slice 0 5])).*2) ∧
     (["c"]%string = [] →
      length ["t"; "x"; "c"]%string = length [Slice 0 2; Slice 1 3; Slice 0 5] →
      popFlagsFromTheKey [Slice 0 2; Slice 1 3; Slice 0 5] ["t"; "x"; "c"]%string
        ["c"]%string = Ok [Slice 0 2; Slice 1 3; Slice 0 5])) ∧
  (∀ (i : nat) t, ["t"; "x"; "c"]%string !! i = Some t → t ∉ ["c"]%string →
     (length [Slice 0 2; Slice 1 3; Slice 0 5] ≤ i)%nat →
     popFlagsFromTheKey [Slice 0 2; Slice 1 3; Slice 0 5] ["t"; "x"; "c"]%string
       ["c"]%string = Raise KeyError).
Proof.
  apply (popFlagsFromTheKey_filters [Slice 0 2; Slice 1 3; Slice 0 5]
           ["t"; "x"; "c"]%string ["c"]%string).
  by apply (bool_decide_unpack _).
Defined.
(** ** OpSingleChannelSelector *)

Lemma index_of_mid (key : string) (t1 t2 : list string) :
  key ∉ t1 → index_of key (t1 ++ key :: t2) = Some (length t1).
Proof.
  induction t1 as [|t t1 IH]; simpl; intros Hnotin.
  - by destruct (decide (key = key)).
  - apply not_elem_of_cons in Hnotin as [Hne Hnotin].
    destruct (decide (t = key)); [congruence|]. by rewrite IH.
Qed.

Lemma tagged_lookup_absent (key : string) (tags : list string) (shp : list Z) :
  key ∉ tags → tagged_lookup key (zip tags shp) = None.
Proof.
  revert shp. induction tags as [|t tags IH]; intros shp Hnotin; [done|].
  apply not_elem_of_cons in Hnotin as [Hne Hnotin].
  destruct shp as [|n shp]; [done|]. simpl. rewrite IH by done.
  destruct (decide (t = key)); congruence.
Qed.

Lemma tagged_lookup_mid (key : string) (t1 t2 : list string) (o1 o2 : list Z) (n : Z) :
  key ∉ t2 → length o1 = length t1 →
  tagged_lookup key (zip (t1 ++ key :: t2) (o1 ++ n :: o2)) = Some n.
Proof.
  intros Hnotin. revert o1. induction t1 as [|t t1 IH]; intros [|x o1] Hlen;
    simpl in Hlen; try lia.
  - simpl. rewrite tagged_lookup_absent by done. by destruct (decide (key = key)).
  - simpl. rewrite IH by lia. done.
Qed.

(** X2: for an input whose axis keys contain ["c"] exactly once,
    [setupOutputs] gives the output the input's shape with the channel extent
    set to 1 and the block-shape hints of matching rank with their channel
    entry set to 1; the output is ready exactly when the input's metadata is
    and the input has more than [Index] channels. *)
Theorem single_selector_setupOutputs
    (op : OpSingleChannelSelector.t) (t1 t2 : list string) (o1 o2 : list Z) (n : Z) :
  axistags (meta (OpSingleChannelSelector.Input op)) = t1 ++ "c"%string :: t2 →
  "c"%string ∉ t1 → "c"%string ∉ t2 →
  shape (meta (OpSingleChannelSelector.Input op)) = Some (o1 ++ n :: o2) →
  length o1 = length t1 →
  ∃ op', OpSingleChannelSelector.setupOutputs op = Ok op' ∧
    OpSingleChannelSelector.Input op' = OpSingleChannelSelector.Input op ∧
    OpSingleChannelSelector.Index op' = OpSingleChannelSelector.Index op ∧
    shape (OpSingleChannelSelector.Output op') = Some (o1 ++ 1 :: o2) ∧
    axistags (OpSingleChannelSelector.Output op')
      = axistags (meta (OpSingleChannelSelector.Input op)) ∧
    dtype (OpSingleChannelSelector.Output op')
      = dtype (meta (OpSingleChannelSelector.Input op)) ∧
    ideal_blockshape (OpSingleChannelSelector.Output op')
      = (λ b, if bool_decide (length b = length (o1 ++ n :: o2))
              then <[length o1 := 1]> b else b)
          <$> ideal_blockshape (meta (OpSingleChannelSelector.Input op)) ∧
    max_blockshape (OpSingleChannelSelector.Output op')
      = (λ b, if bool_decide (length b = length (o1 ++ n :: o2))
              then <[length o1 := 1]> b else b)
          <$> max_blockshape (meta (OpSingleChannelSelector.Input op)) ∧
    NOTREADY (OpSingleChannelSelector.Output op')
      = NOTREADY (meta (OpSingleChannelSelector.Input op))
        || (n <=? OpSingleChannelSelector.Index op) ∧
    (ready (OpSingleChannelSelector.Output op') = true ↔
       NOTREADY (meta (OpSingleChannelSelector.Input op)) = false ∧
       OpSingleChannelSelector.Index op < n).
Proof.
  intros Htags Hc1 Hc2 Hshape Hlen.
  destruct op as [inp idx out]. simpl in *.
  destruct (meta inp) as [shp tags dt dr ideal mb nr] eqn:Hm. simpl in *. subst shp tags.
  unfold OpSingleChannelSelector.setupOutputs, channelIndex, get_shape, getTaggedShape,
    get_shape, assignFrom.
  cbn [OpSingleChannelSelector.Input OpSingleChannelSelector.Index
       OpSingleChannelSelector.Output].
  rewrite Hm. cbn [shape axistags ideal_blockshape max_blockshape set_shape].
  rewrite index_of_mid by done. cbn [default from_option or_raise mbind res_bind].
  unfold id.
  destruct (decide _) as [_|Hn].
  2:{ exfalso. apply Hn. rewrite length_app. simpl. lia. }
  cbn [mbind res_bind].
  rewrite <- Hlen. rewrite py_pop_mid, py_insert_mid.
  rewrite tagged_lookup_mid by done.
  assert (∀ b : list Z, length b = length (o1 ++ n :: o2) →
            py_setitem (length o1) 1 b = Ok (<[length o1 := 1]> b)) as Hset.
  { intros b Hb. unfold py_setitem. destruct (decide _) as [|Hn]; [done|].
    exfalso. apply Hn. rewrite Hb, length_app. simpl. lia. }
  destruct ideal as [ideal|];
    [destruct (bool_decide_reflect (length ideal = length (o1 ++ n :: o2)));
     [rewrite Hset by done|]|];
    cbn [or_raise mbind res_bind ideal_blockshape max_blockshape
         set_ideal_blockshape set_max_blockshape set_shape];
    (destruct mb as [mb|];
     [destruct (bool_decide_reflect (length mb = length (o1 ++ n :: o2)));
      [rewrite Hset by done|]|]);
    cbn [or_raise mbind res_bind ideal_blockshape max_blockshape
         set_ideal_blockshape set_max_blockshape set_shape];
    destruct (Z.leb_spec n idx);
    (eexists; split; [reflexivity|]);
    cbn [OpSingleChannelSelector.Input OpSingleChannelSelector.Index
         OpSingleChannelSelector.Output set_NOTREADY set_shape
         set_ideal_blockshape set_max_blockshape ideal_blockshape
         max_blockshape shape axistags dtype drange NOTREADY fmap option_fmap
         option_map];
    rewrite ?bool_decide_eq_true_2 by done;
    rewrite ?bool_decide_eq_false_2 by done;
    unfold ready; cbn [shape NOTREADY];
    rewrite (bool_decide_eq_true_2 (is_Some _)) by eauto;
    rewrite ?orb_true_r, ?orb_false_r;
    (repeat split; try done; try (destruct nr; simpl; intros; try done; lia);
     try (intros [? ?]; lia));
    repeat case_bool_decide; done.
Qed.
(** X3: [execute] answers a request with the one selected channel of the
    input, whatever channel range the ROI names: the cell at channel position
    0 of the result is the input's cell at channel [Index].  If the input has
    no channel [Index] the request fails the operator's assertion. *)
Theorem single_selector_execute
    (op : OpSingleChannelSelector.t) (A : Coord → Z) (a : nat)
    (o1 o2 : list Z) (n : Z) (s1 e1 s2 e2 : Coord) (cs ce : Z) (result : ndarray) :
  index_of "c" (axistags (meta (OpSingleChannelSelector.Input op))) = Some a →
  shape (meta (OpSingleChannelSelector.Input op)) = Some (o1 ++ n :: o2) →
  length o1 = a →
  serves (OpSingleChannelSelector.Input op) A →
  (n ≤ OpSingleChannelSelector.Index op →
     OpSingleChannelSelector.execute op (mkRoi (s1 ++ cs :: s2) (e1 ++ ce :: e2)) result
     = Raise AssertionError) ∧
  (0 ≤ OpSingleChannelSelector.Index op < n →
   roi_within s1 e1 o1 = true → roi_within s2 e2 o2 = true →
   arr_shape result = tv_sub e1 s1 ++ 1 :: tv_sub e2 s2 →
   ∃ r',
     OpSingleChannelSelector.execute op (mkRoi (s1 ++ cs :: s2) (e1 ++ ce :: e2)) result
     = Ok r' ∧
     arr_shape r' = arr_shape result ∧
     (∀ l1 l2, in_box (tv_sub e1 s1) l1 = true → in_box (tv_sub e2 s2) l2 = true →
        arr_at r' (l1 ++ 0 :: l2)
        = Some (A (tv_add s1 l1 ++ OpSingleChannelSelector.Index op :: tv_add s2 l2))) ∧
     (∀ q, in_box (arr_shape result) q = false → arr_at r' q = arr_at result q)).
Proof.
  intros Hidx Hshape Ho1 Hserves.
  unfold OpSingleChannelSelector.execute, channelIndex, get_shape.
  rewrite Hidx, Hshape. cbn [default from_option or_raise mbind res_bind start stop].
  unfold id. rewrite (lookup_at _ _ _ a) by done.
  cbn [or_raise mbind res_bind]. split.
  - intros Hle. replace (_ <? n) with false by (symmetry; apply Z.ltb_ge; lia). done.
  - intros Hi Hr1 Hr2 Hres.
    replace (_ <? n) with true by (symmetry; apply Z.ltb_lt; lia).
    cbn [assert mbind res_bind].
    destruct (roi_within_length _ _ _ Hr1) as [Hls1 Hle1].
    destruct (roi_within_length _ _ _ Hr2) as [Hls2 Hle2].
    rewrite <- (roiToSlice_mid s1 s2 e1 e2 cs ce) by congruence.
    rewrite (py_setitem_at _ _ _ _ a) by (rewrite roiToSlice_length; congruence).
    cbn [mbind res_bind].
    rewrite roiToSlice_mid by congruence.
    unfold slot_getitem, get_shape. rewrite Hshape. cbn [or_raise mbind res_bind].
    rewrite sliceToRoi_roiToSlice by (rewrite !length_app; simpl; lia).
    cbn [mbind res_bind].
    set (idx := OpSingleChannelSelector.Index op) in *.
    destruct (Hserves _ (s1 ++ idx :: s2) (e1 ++ (idx + 1) :: e2) Hshape)
      as (blk & -> & Hbs & Hbc).
    { apply roi_within_mid; [congruence|congruence|]. repeat split; (done || lia). }
    cbn [mbind res_bind].
    rewrite tv_sub_app in Hbs, Hbc by congruence. simpl in Hbs, Hbc.
    replace (idx + 1 - idx) with 1 in Hbs, Hbc by lia.
    destruct (writeInto_whole blk result) as (r' & -> & Hs' & Hcell); [congruence|].
    exists r'. split; [done|]. split; [done|]. split.
    + intros l1 l2 Hl1 Hl2.
      assert (Hll := in_box_length _ _ Hl1).
      rewrite Hcell, Hres.
      rewrite in_box_mid by done.
      assert (Hll' := Hll). rewrite tv_sub_length in Hll' by congruence. rewrite Hl1, Hl2. simpl.
      rewrite Hbc.
      * rewrite tv_add_app by congruence. simpl. by rewrite Z.add_0_r.
      * rewrite in_box_mid by done. by rewrite Hl1, Hl2.
    + intros q Hq. by rewrite Hcell, Hq.
Qed.
Lemma single_selector_setupOutputs_witness :
  ∃ op', OpSingleChannelSelector.setupOutputs selector_channel_1 = Ok op' ∧
    OpSingleChannelSelector.Input op' = OpSingleChannelSelector.Input selector_channel_1 ∧
    OpSingleChannelSelector.Index op' = OpSingleChannelSelector.Index selector_channel_1 ∧
    shape (OpSingleChannelSelector.Output op') = Some ([2] ++ 1 :: [2]) ∧
    axistags (OpSingleChannelSelector.Output op')
      = axistags (meta (OpSingleChannelSelector.Input selector_channel_1)) ∧
    dtype (OpSingleChannelSelector.Output op')
      = dtype (meta (OpSingleChannelSelector.Input selector_channel_1)) ∧
    ideal_blockshape (OpSingleChannelSelector.Output op')
      = (λ b, if bool_decide (length b = length ([2] ++ 3 :: [2]))
              then <[length [2] := 1]> b else b)
          <$> ideal_blockshape (meta (OpSingleChannelSelector.Input selector_channel_1)) ∧
    max_blockshape (OpSingleChannelSelector.Output op')
      = (λ b, if bool_decide (length b = length ([2] ++ 3 :: [2]))
              then <[length [2] := 1]> b else b)
          <$> max_blockshape (meta (OpSingleChannelSelector.Input selector_channel_1)) ∧
    NOTREADY (OpSingleChannelSelector.Output op')
      = NOTREADY (meta (OpSingleChannelSelector.Input selector_channel_1))
        || (3 <=? OpSingleChannelSelector.Index selector_channel_1) ∧
    (ready (OpSingleChannelSelector.Output op') = true ↔
       NOTREADY (meta (OpSingleChannelSelector.Input selector_channel_1)) = false ∧
       OpSingleChannelSelector.Index selector_channel_1 < 3).
Proof.
  apply (single_selector_setupOutputs selector_channel_1 ["x"]%string ["y"]%string
           [2] [2] 3); try reflexivity; by apply (bool_decide_unpack _).
Defined.

Lemma single_selector_execute_witness :
  (3 ≤ OpSingleChannelSelector.Index selector_channel_1 →
     OpSingleChannelSelector.execute selector_channel_1
       (mkRoi ([0] ++ 0 :: [0]) ([2] ++ 1 :: [2])) (np_empty [2; 1; 2])
     = Raise AssertionError) ∧
  (0 ≤ OpSingleChannelSelector.Index selector_channel_1 < 3 →
   roi_within [0] [2] [2] = true → roi_within [0] [2] [2] = true →
   arr_shape (np_empty [2; 1; 2]) = tv_sub [2] [0] ++ 1 :: tv_sub [2] [0] →
   ∃ r',
     OpSingleChannelSelector.execute selector_channel_1
       (mkRoi ([0] ++ 0 :: [0]) ([2] ++ 1 :: [2])) (np_empty [2; 1; 2])
     = Ok r' ∧
     arr_shape r' = arr_shape (np_empty [2; 1; 2]) ∧
     (∀ l1 l2, in_box (tv_sub [2] [0]) l1 = true → in_box (tv_sub [2] [0]) l2 = true →
        arr_at r' (l1 ++ 0 :: l2)
        = Some (100 * default 0 ((tv_add [0] l1 ++ OpSingleChannelSelector.Index selector_channel_1 :: tv_add [0] l2) !! 0%nat)
                + 10 * default 0 ((tv_add [0] l1 ++ OpSingleChannelSelector.Index selector_channel_1 :: tv_add [0] l2) !! 1%nat)
                + default 0 ((tv_add [0] l1 ++ OpSingleChannelSelector.Index selector_channel_1 :: tv_add [0] l2) !! 2%nat))) ∧
     (∀ q, in_box (arr_shape (np_empty [2; 1; 2])) q = false →
           arr_at r' q = arr_at (np_empty [2; 1; 2]) q)).
Proof.
  apply (single_selector_execute selector_channel_1
           (λ q, 100 * default 0 (q !! 0%nat) + 10 * default 0 (q !! 1%nat)
                 + default 0 (q !! 2%nat))
           1 [2] [2] 3 [0] [2] [0] [2] 0 1 (np_empty [2; 1; 2]));
    try reflexivity.
  apply array_slot_serves.
Defined.

(** ** OpSubRegion: requests and dirty propagation *)

Lemma roi_within_shift (st sp c0 c1 ishape : list Z) :
  roi_within st sp (tv_sub c1 c0) = true → roi_within c0 c1 ishape = true →
  roi_within (tv_add st c0) (tv_add sp c0) ishape = true.
Proof.
  revert sp c0 c1 ishape.
  induction st as [|x st IH]; intros [|y sp] [|c c0] [|e c1] [|n ishape]; simpl;
    try done.
  intros [[[H1%Z.leb_le H2%Z.leb_le]%andb_true_iff H3%Z.leb_le]%andb_true_iff
            Hrest]%andb_true_iff
         [[[H4%Z.leb_le H5%Z.leb_le]%andb_true_iff H6%Z.leb_le]%andb_true_iff
            Hrest']%andb_true_iff.
  rewrite (IH _ _ _ _ Hrest Hrest'). zbool.
Qed.

Lemma tv_sub_add_cancel (sp st c0 : list Z) :
  length st = length c0 → length sp = length c0 →
  tv_sub (tv_add sp c0) (tv_add st c0) = tv_sub sp st.
Proof.
  revert st c0. induction sp as [|y sp IH]; intros [|x st] [|c c0]; simpl; try done.
  intros Hst Hsp. rewrite <- (IH st c0) by lia.
  unfold tv_sub, tv_add. simpl. f_equal. lia.
Qed.

Lemma tv_add_swap (a b c : list Z) :
  tv_add (tv_add a b) c = tv_add (tv_add a c) b.
Proof.
  revert b c. induction a as [|x a IH]; intros [|y b] [|z c]; simpl; try done.
  unfold tv_add in *. simpl. rewrite IH. f_equal. lia.
Qed.

Lemma subregion_setupOutputs_ok (op : OpSubRegion.t) (c0 c1 ishape : list Z) :
  OpSubRegion.Roi op = (c0, c1) →
  shape (OpSubRegion.Input op) = Some ishape →
  length c0 = length ishape → length c1 = length ishape →
  (∀ i x y, c0 !! i = Some x → c1 !! i = Some y → x < y) →
  OpSubRegion.setupOutputs op
  = Ok (OpSubRegion.mk (OpSubRegion.Input op) (OpSubRegion.Roi op)
          (set_shape (Some (tv_sub c1 c0))
             (assignFrom (OpSubRegion.Output op) (OpSubRegion.Input op)))
          (Some (c0, c1))).
Proof.
  intros HRoi Hshape Hl0 Hl1 Hlt.
  unfold OpSubRegion.setupOutputs. rewrite HRoi. unfold get_shape. rewrite Hshape.
  cbn [or_raise mbind res_bind].
  rewrite !bool_decide_eq_true_2 by congruence. cbn [andb negb].
  destruct (tv_ge_any c0 c1) eqn:Hge; [|done].
  apply tv_ge_any_true in Hge as (i & x & y & Hx & Hy & Hle).
  specialize (Hlt i x y Hx Hy). lia.
Qed.

Lemma subregion_execute_spec (op' : OpSubRegion.t) (Input_ : Slot) (A : Coord → Z)
    (c0 c1 ishape st sp : list Z) (result : ndarray) :
  OpSubRegion._roi op' = Some (c0, c1) →
  shape (meta Input_) = Some ishape →
  serves Input_ A →
  roi_within c0 c1 ishape = true →
  roi_within st sp (tv_sub c1 c0) = true →
  arr_shape result = tv_sub sp st →
  ∃ r', OpSubRegionRequests.execute op' Input_ (mkRoi st sp) result = Ok r' ∧
    arr_shape r' = tv_sub sp st ∧
    (∀ l, in_box (tv_sub sp st) l = true →
       arr_at r' l = Some (A (tv_add (tv_add st l) c0))) ∧
    (∀ q, in_box (tv_sub sp st) q = false → arr_at r' q = arr_at result q).
Proof.
  intros Hroi' Hshape Hserves Hcrop Hroi Hres.
  destruct (roi_within_length _ _ _ Hcrop) as [Hl0 Hl1].
  destruct (roi_within_length _ _ _ Hroi) as [Hlst Hlsp].
  rewrite tv_sub_length in Hlst, Hlsp by congruence.
  unfold OpSubRegionRequests.execute, np_array_rows, np_rows_inplace.
  rewrite Hroi'. cbn [start stop fst snd].
  rewrite bool_decide_eq_true_2 by congruence.
  cbn [or_raise mbind res_bind fst snd].
  rewrite bool_decide_eq_true_2 by congruence.
  cbn [mbind res_bind fst snd].
  change (zip_with Z.add st c0) with (tv_add st c0).
  change (zip_with Z.add sp c0) with (tv_add sp c0).
  destruct (Hserves ishape (tv_add st c0) (tv_add sp c0)) as (blk & -> & Hbs & Hbc).
  { done. }
  { by eapply roi_within_shift. }
  cbn [mbind res_bind].
  rewrite tv_sub_add_cancel in Hbs, Hbc by congruence.
  destruct (writeInto_whole blk result) as (r' & -> & Hs' & Hcell); [congruence|].
  exists r'. split; [done|]. split; [congruence|]. split.
  - intros l Hl. rewrite Hcell, Hres, Hl, Hbc by done. by rewrite tv_add_swap.
  - intros q Hq. by rewrite Hcell, Hres, Hq.
Qed.

(** X4: a crop box inside the input configures the output with the box's
    extent, and [execute] then answers a ROI of the output with the input's
    cells at the ROI moved by the crop's start: output point [p] holds the
    input's cell [p + start]. *)
Theorem subregion_execute_translates
    (op : OpSubRegion.t) (Input_ : Slot) (A : Coord → Z) (c0 c1 ishape : list Z) :
  OpSubRegion.Roi op = (c0, c1) →
  meta Input_ = OpSubRegion.Input op →
  shape (OpSubRegion.Input op) = Some ishape →
  serves Input_ A →
  roi_within c0 c1 ishape = true →
  (∀ i x y, c0 !! i = Some x → c1 !! i = Some y → x < y) →
  ∃ op', OpSubRegion.setupOutputs op = Ok op' ∧
    shape (OpSubRegion.Output op') = Some (tv_sub c1 c0) ∧
    ∀ st sp result,
      roi_within st sp (tv_sub c1 c0) = true →
      arr_shape result = tv_sub sp st →
      ∃ r', OpSubRegionRequests.execute op' Input_ (mkRoi st sp) result = Ok r' ∧
        arr_shape r' = tv_sub sp st ∧
        (∀ p, in_roi st sp p = true →
           arr_at r' (tv_sub p st) = Some (A (tv_add p c0))) ∧
        (∀ q, in_box (tv_sub sp st) q = false → arr_at r' q = arr_at result q).
Proof.
  intros HRoi Hmeta Hshape Hserves Hcrop Hlt.
  destruct (roi_within_length _ _ _ Hcrop) as [Hl0 Hl1].
  set (op' := OpSubRegion.mk (OpSubRegion.Input op) (OpSubRegion.Roi op)
                (set_shape (Some (tv_sub c1 c0))
                   (assignFrom (OpSubRegion.Output op) (OpSubRegion.Input op)))
                (Some (c0, c1))).
  exists op'. split; [by apply (subregion_setupOutputs_ok op c0 c1 ishape)|].
  split; [done|].
  intros st sp result Hroi Hres.
  destruct (subregion_execute_spec op' Input_ A c0 c1 ishape st sp result)
    as (r' & Hexec & Hs' & Hcell & Hout); try done.
  { by rewrite Hmeta. }
  exists r'. split; [done|]. split; [done|]. split; [|done].
  intros p Hin. destruct (in_roi_box _ _ _ Hin) as [Hbox Hback].
  rewrite Hcell by done. by rewrite Hback.
Qed.

Lemma intersection_empty (d0 d1 c0 c1 p : list Z) :
  existsb (λ d, d <=? 0)
    (tv_sub (zip_with Z.min d1 c1) (zip_with Z.max d0 c0)) = true →
  in_roi d0 d1 p = true → in_roi c0 c1 p = true → False.
Proof.
  revert d1 c0 c1 p.
  induction d0 as [|x d0 IH]; intros [|y d1] [|c c0] [|e c1] [|z p]; simpl; try done.
  intros [Hhere%Z.leb_le|Hrest]%orb_true_iff
         [[H1%Z.leb_le H2%Z.ltb_lt]%andb_true_iff Hd]%andb_true_iff
         [[H3%Z.leb_le H4%Z.ltb_lt]%andb_true_iff Hc]%andb_true_iff.
  - lia.
  - by apply (IH d1 c0 c1 p).
Qed.

Lemma intersection_box (d0 d1 c0 c1 : list Z) :
  length d0 = length c0 → length d1 = length c0 → length c1 = length c0 →
  existsb (λ d, d <=? 0)
    (tv_sub (zip_with Z.min d1 c1) (zip_with Z.max d0 c0)) = false →
  in_roi d0 d1 (zip_with Z.max d0 c0) = true ∧
  in_roi c0 c1 (zip_with Z.max d0 c0) = true ∧
  roi_within (tv_sub (zip_with Z.max d0 c0) c0) (tv_sub (zip_with Z.min d1 c1) c0)
    (tv_sub c1 c0) = true ∧
  ∀ q, length q = length c0 →
    in_roi (tv_sub (zip_with Z.max d0 c0) c0) (tv_sub (zip_with Z.min d1 c1) c0) q
    = in_roi d0 d1 (tv_add q c0) && in_roi c0 c1 (tv_add q c0).
Proof.
  revert d1 c0 c1.
  induction d0 as [|x d0 IH]; intros [|y d1] [|c c0] [|e c1]; simpl; try done.
  - intros _ _ _ _. repeat split. by intros [|z q].
  - intros Hd0 Hd1 Hc1 [Hhere%Z.leb_gt Hrest]%orb_false_iff.
    destruct (IH d1 c0 c1) as (Ha & Hb & Hw & Hq); [lia..|done|].
    unfold tv_sub, tv_add in *. simpl.
    rewrite Ha, Hb, Hw. repeat split.
    + zbool.
    + zbool.
    + zbool.
    + intros [|z q] Hlen; simpl in Hlen; [lia|]. simpl.
      rewrite Hq by lia.
      destruct (in_roi d0 d1 (zip_with Z.add q c0)),
               (in_roi c0 c1 (zip_with Z.add q c0));
        rewrite ?andb_true_r, ?andb_false_r; try done; zbool.
Qed.

(** X5: dirty propagation of the crop.  A notification of another rank is
    dropped.  Otherwise nothing is reported when the dirty box and the crop
    box share no point; when they do, one region is reported, it lies inside
    the output, and an output point belongs to it exactly when the input
    point it shows (the point moved by the crop's start) is both dirty and
    inside the crop. *)
Theorem subregion_propagateDirty_exact
    (op : OpSubRegion.t) (c0 c1 d0 d1 : list Z) :
  OpSubRegion._roi op = Some (c0, c1) →
  length c1 = length c0 → length d1 = length d0 →
  (length d0 ≠ length c0 →
     OpSubRegionRequests.propagateDirty op (mkRoi d0 d1) = Ok []) ∧
  (length d0 = length c0 →
     ((∀ p, in_roi d0 d1 p = true → in_roi c0 c1 p = true → False) →
        OpSubRegionRequests.propagateDirty op (mkRoi d0 d1) = Ok []) ∧
     (∀ p, in_roi d0 d1 p = true → in_roi c0 c1 p = true →
        ∃ a b,
          OpSubRegionRequests.propagateDirty op (mkRoi d0 d1)
          = Ok [DirtyRoi (mkRoi a b)] ∧
          roi_within a b (tv_sub c1 c0) = true ∧
          in_roi a b (tv_sub p c0) = true ∧
          ∀ q, length q = length c0 →
            (in_roi a b q = true ↔
             in_roi d0 d1 (tv_add q c0) = true ∧ in_roi c0 c1 (tv_add q c0) = true))).
Proof.
  intros Hroi Hc1 Hd1.
  unfold OpSubRegionRequests.propagateDirty. rewrite Hroi.
  cbn [or_raise mbind res_bind start stop fst snd]. split.
  - intros Hne. by rewrite bool_decide_eq_false_2.
  - intros Hd0. rewrite bool_decide_eq_true_2 by done. cbn [negb].
    unfold getIntersection. cbn [fst snd].
    destruct (existsb _ _) eqn:Hex.
    + split; [done|]. intros p Hpd Hpc.
      exfalso. by apply (intersection_empty d0 d1 c0 c1 p).
    + destruct (intersection_box d0 d1 c0 c1) as (Ha & Hb & Hw & Hq);
        [done|congruence|done|done|].
      split; [intros Hno; exfalso; by eapply Hno|].
      intros p Hpd Hpc.
      unfold np_array_rows, np_rows_inplace. cbn [fst snd].
      rewrite bool_decide_eq_true_2
        by (rewrite !length_zip_with; lia).
      cbn [mbind res_bind fst snd].
      rewrite bool_decide_eq_true_2 by (rewrite !length_zip_with; lia).
      do 2 eexists. split; [reflexivity|]. split; [exact Hw|].
      destruct (in_roi_length _ _ _ Hpc) as [Hlp _].
      assert (length (tv_sub p c0) = length c0) as Hlq
        by (unfold tv_sub; rewrite length_zip_with; lia).
      assert (tv_add (tv_sub p c0) c0 = p) as Hback.
      { clear -Hlp. revert p Hlp. induction c0 as [|c c0 IH]; intros [|z p] Hlp;
          simpl in *; try done. unfold tv_add, tv_sub in *. simpl.
        rewrite IH by lia. f_equal. lia. }
      split.
      * change (zip_with Z.sub ?x ?y) with (tv_sub x y).
        rewrite Hq by done. rewrite Hback. by rewrite Hpd, Hpc.
      * intros q Hlen. change (zip_with Z.sub ?x ?y) with (tv_sub x y).
        rewrite Hq by done. by rewrite andb_true_iff.
Qed.
Lemma subregion_execute_translates_witness :
  ∃ op', OpSubRegion.setupOutputs crop_10_20 = Ok op' ∧
    shape (OpSubRegion.Output op') = Some (tv_sub [20; 40] [10; 20]) ∧
    ∀ st sp result,
      roi_within st sp (tv_sub [20; 40] [10; 20]) = true →
      arr_shape result = tv_sub sp st →
      ∃ r', OpSubRegionRequests.execute op' crop_input (mkRoi st sp) result = Ok r' ∧
        arr_shape r' = tv_sub sp st ∧
        (∀ p, in_roi st sp p = true →
           arr_at r' (tv_sub p st)
           = Some (1000 * default 0 (tv_add p [10; 20] !! 0%nat)
                   + default 0 (tv_add p [10; 20] !! 1%nat))) ∧
        (∀ q, in_box (tv_sub sp st) q = false → arr_at r' q = arr_at result q).
Proof.
  apply (subregion_execute_translates crop_10_20 crop_input
           (λ q, 1000 * default 0 (q !! 0%nat) + default 0 (q !! 1%nat))
           [10; 20] [20; 40] [100; 100]); try reflexivity.
  - apply array_slot_serves.
  - intros [|[|i]] x y; simpl; intros [= <-] [= <-]; lia.
Defined.

Lemma subregion_propagateDirty_exact_witness :
  (length [15; 0] ≠ length [10; 20] →
     OpSubRegionRequests.propagateDirty crop_10_20_configured (mkRoi [15; 0] [30; 30])
     = Ok []) ∧
  (length [15; 0] = length [10; 20] →
     ((∀ p, in_roi [15; 0] [30; 30] p = true → in_roi [10; 20] [20; 40] p = true →
            False) →
        OpSubRegionRequests.propagateDirty crop_10_20_configured
          (mkRoi [15; 0] [30; 30]) = Ok []) ∧
     (∀ p, in_roi [15; 0] [30; 30] p = true → in_roi [10; 20] [20; 40] p = true →
        ∃ a b,
          OpSubRegionRequests.propagateDirty crop_10_20_configured
            (mkRoi [15; 0] [30; 30])
          = Ok [DirtyRoi (mkRoi a b)] ∧
          roi_within a b (tv_sub [20; 40] [10; 20]) = true ∧
          in_roi a b (tv_sub p [10; 20]) = true ∧
          ∀ q, length q = length [10; 20] →
            (in_roi a b q = true ↔
             in_roi [15; 0] [30; 30] (tv_add q [10; 20]) = true ∧
             in_roi [10; 20] [20; 40] (tv_add q [10; 20]) = true))).
Proof.
  apply (subregion_propagateDirty_exact crop_10_20_configured
           [10; 20] [20; 40] [15; 0] [30; 30]); reflexivity.
Defined.

(** The crop evaluated: the dirty box from [(15, 0)] to [(30, 30)] of the
    input reaches the output as the box from [(5, 0)] to [(10, 10)]. *)
Lemma subregion_propagateDirty_example :
  OpSubRegionRequests.propagateDirty crop_10_20_configured (mkRoi [15; 0] [30; 30])
  = Ok [DirtyRoi (mkRoi [5; 0] [10; 10])].
Proof. reflexivity. Qed.

(** ** OpMultiArrayMerger: configuration checks *)

Lemma merger_checks_loop (first_meta : MetaDict) (l : list MetaDict) (u : unit) :
  foldlM (λ _ input,
            _ ← assert (bool_decide (shape input = shape first_meta));
            assert (bool_decide (axistags input = axistags first_meta))) u l
  = if bool_decide (Forall (λ m, shape m = shape first_meta
                                 ∧ axistags m = axistags first_meta) l)
    then Ok tt else Raise AssertionError.
Proof.
  revert u. induction l as [|m l IH]; intros u; simpl.
  - by destruct u.
  - destruct (bool_decide_reflect (shape m = shape first_meta)) as [Hs|Hs]; simpl.
    + destruct (bool_decide_reflect (axistags m = axistags first_meta)) as [Ht|Ht];
        simpl.
      * rewrite IH.
        destruct (decide (Forall (λ m, shape m = shape first_meta
                                       ∧ axistags m = axistags first_meta) l))
          as [Hl|Hl].
        -- by rewrite !bool_decide_eq_true_2 by (done || by apply Forall_cons).
        -- rewrite !bool_decide_eq_false_2; [done| |done].
           rewrite Forall_cons. tauto.
      * rewrite bool_decide_eq_false_2; [done|]. rewrite Forall_cons. tauto.
    + rewrite bool_decide_eq_false_2; [done|]. rewrite Forall_cons. tauto.
Qed.

(** X6: [setupOutputs] succeeds exactly when there is a first input and every
    input has the first input's shape and axis tags; the output then carries
    the first input's shape, axis tags and dtype.  Without inputs it fails
    with an [IndexError], with a deviating input with an [AssertionError], and
    when all inputs report a value range the output's range is the merging
    function applied to these ranges. *)
Theorem merger_setupOutputs_consistency
    (op : OpMultiArrayMerger.t) (inputs : list MetaDict) :
  OpMultiArrayMerger.Inputs op = inputs →
  match inputs with
  | [] => OpMultiArrayMerger.setupOutputs op = Raise IndexError
  | first_meta :: rest =>
      (Forall (λ m, shape m = shape first_meta ∧ axistags m = axistags first_meta)
         rest →
       ∃ op', OpMultiArrayMerger.setupOutputs op = Ok op' ∧
         OpMultiArrayMerger.Inputs op' = inputs ∧
         shape (OpMultiArrayMerger.Output op') = shape first_meta ∧
         axistags (OpMultiArrayMerger.Output op') = axistags first_meta ∧
         dtype (OpMultiArrayMerger.Output op') = dtype first_meta ∧
         ∀ ds, mapM drange inputs = Some ds →
           drange (OpMultiArrayMerger.Output op')
           = Some (OpMultiArrayMerger.MergingFunction op ds)) ∧
      (¬ Forall (λ m, shape m = shape first_meta ∧ axistags m = axistags first_meta)
           rest →
       OpMultiArrayMerger.setupOutputs op = Raise AssertionError)
  end.
Proof.
  intros Hin. unfold OpMultiArrayMerger.setupOutputs. rewrite Hin.
  destruct inputs as [|first_meta rest]; [done|].
  cbn [lookup list_lookup or_raise mbind res_bind].
  rewrite merger_checks_loop. split.
  - intros Hall. rewrite (bool_decide_eq_true_2 (Forall _ _)) by (by apply Forall_cons).
    cbn [mbind res_bind]. eexists. split; [reflexivity|].
    cbn [OpMultiArrayMerger.Inputs OpMultiArrayMerger.Output].
    rewrite collect_dranges_spec.
    split; [done|].
    destruct (mapM drange (first_meta :: rest)) as [ds|] eqn:Hds.
    + assert (ds ≠ []) as Hne.
      { intros ->. simpl in Hds. destruct (drange first_meta); simpl in Hds; [|done].
        destruct (mapM drange rest); simpl in Hds; done. }
      rewrite bool_decide_eq_true_2 by (destruct ds; [done|simpl; lia]).
      repeat split; try done. by intros ds' [= <-].
    + rewrite bool_decide_eq_false_2 by (simpl; lia). by repeat split.
  - intros Hnot. rewrite (bool_decide_eq_false_2 (Forall _ _)); [done|].
    rewrite Forall_cons. tauto.
Qed.

Lemma merger_setupOutputs_consistency_witness :
  (Forall (λ m, shape m = shape (meta_of [4; 4] ["x"; "y"]%string (Some [0; 255]))
                ∧ axistags m = axistags (meta_of [4; 4] ["x"; "y"]%string (Some [0; 255])))
     [meta_of [4; 4] ["x"; "y"]%string None] →
   ∃ op', OpMultiArrayMerger.setupOutputs merger_mixed_ranges = Ok op' ∧
     OpMultiArrayMerger.Inputs op'
       = [meta_of [4; 4] ["x"; "y"]%string (Some [0; 255]);
          meta_of [4; 4] ["x"; "y"]%string None] ∧
     shape (OpMultiArrayMerger.Output op')
       = shape (meta_of [4; 4] ["x"; "y"]%string (Some [0; 255])) ∧
     axistags (OpMultiArrayMerger.Output op')
       = axistags (meta_of [4; 4] ["x"; "y"]%string (Some [0; 255])) ∧
     dtype (OpMultiArrayMerger.Output op')
       = dtype (meta_of [4; 4] ["x"; "y"]%string (Some [0; 255])) ∧
     ∀ ds, mapM drange [meta_of [4; 4] ["x"; "y"]%string (Some [0; 255]);
                        meta_of [4; 4] ["x"; "y"]%string None] = Some ds →
       drange (OpMultiArrayMerger.Output op')
       = Some (OpMultiArrayMerger.MergingFunction merger_mixed_ranges ds)) ∧
  (¬ Forall (λ m, shape m = shape (meta_of [4; 4] ["x"; "y"]%string (Some [0; 255]))
                  ∧ axistags m = axistags (meta_of [4; 4] ["x"; "y"]%string (Some [0; 255])))
       [meta_of [4; 4] ["x"; "y"]%string None] →
   OpMultiArrayMerger.setupOutputs merger_mixed_ranges = Raise AssertionError).
Proof.
  apply (merger_setupOutputs_consistency merger_mixed_ranges
           [meta_of [4; 4] ["x"; "y"]%string (Some [0; 255]);
            meta_of [4; 4] ["x"; "y"]%string None]).
  reflexivity.
Defined.
(** ** OpMaxChannelIndicatorOperator: blocks that are not all zero *)

Lemma argmax_from_spec (l : list Z) (bi best i : Z) :
  (argmax_from bi best i l = bi ∧ Forall (λ x, x ≤ best) l) ∨
  (∃ (j : nat) v, argmax_from bi best i l = i + Z.of_nat j ∧ l !! j = Some v ∧
     best < v ∧
     (∀ (j' : nat) w, l !! j' = Some w → w ≤ v) ∧
     (∀ (j' : nat) w, (j' < j)%nat → l !! j' = Some w → w < v)).
Proof.
  revert bi best i. induction l as [|x l IH]; intros bi best i; simpl.
  - left. by split.
  - destruct (Z.ltb_spec best x) as [Hlt|Hge].
    + right. destruct (IH i x (i + 1)) as [[Hk Hall]|(j & v & Hk & Hj & Hv & Hmax & Hfirst)].
      * exists 0%nat, x. rewrite Hk. split; [lia|]. split; [done|]. split; [done|].
        split; [|intros; lia].
        intros [|j'] w; simpl; [by intros [= ->]|].
        intros Hw. rewrite Forall_forall in Hall. apply Hall.
        by eapply list_elem_of_lookup_2.
      * exists (S j), v. rewrite Hk. split; [lia|]. split; [done|]. split; [lia|].
        split.
        -- intros [|j'] w; simpl; [intros [= <-]; lia|]. apply Hmax.
        -- intros [|j'] w Hlt'; simpl; [intros [= <-]; lia|]. apply Hfirst. lia.
    + destruct (IH bi best (i + 1)) as [[Hk Hall]|(j & v & Hk & Hj & Hv & Hmax & Hfirst)].
      * left. split; [done|]. by apply Forall_cons.
      * right. exists (S j), v. rewrite Hk. split; [lia|]. split; [done|].
        split; [done|]. split.
        -- intros [|j'] w; simpl; [intros [= <-]; lia|]. apply Hmax.
        -- intros [|j'] w Hlt'; simpl; [intros [= <-]; lia|]. apply Hfirst. lia.
Qed.

Lemma argmax_first_max (vals : list Z) :
  vals ≠ [] →
  ∃ k, argmax vals = Some k ∧ first_max vals k ∧ k < Z.of_nat (length vals).
Proof.
  destruct vals as [|x l]; [done|]. intros _. simpl. eexists. split; [done|].
  destruct (argmax_from_spec l 0 x 1) as [[-> Hall]|(j & v & -> & Hj & Hv & Hmax & Hfirst)].
  - split; [|lia]. split; [done|]. exists x. split; [done|]. split; [|intros; lia].
    intros [|j'] w; simpl; [by intros [= ->]|].
    intros Hw. rewrite Forall_forall in Hall. apply Hall.
    by eapply list_elem_of_lookup_2.
  - assert (Z.to_nat (1 + Z.of_nat j) = S j) as Hk by lia.
    apply lookup_lt_Some in Hj as Hjlt.
    split; [|lia]. split; [lia|]. exists v. rewrite Hk. split; [done|]. split.
    + intros [|j'] w; simpl; [intros [= <-]; lia|]. apply Hmax.
    + intros [|j'] w Hlt'; simpl; [intros [= <-]; lia|]. apply Hfirst. lia.
Qed.

(** X7: on a block that is not all zero, the result marks (with 1) exactly
    the pixels whose first maximum over the channels is the requested
    channel, and holds 0 at every other pixel.  The winning channel of a pixel
    does not depend on the requested channel, so over the channels of the
    input each pixel is marked exactly once. *)
Theorem maxchannel_execute_indicator
    (op : OpMaxChannelIndicatorOperator.t) (ks ke : Coord) (cs : Z)
    (kshape : list Z) (nch : Z) (result data : ndarray) :
  length ks = length ke →
  slot_getitem (OpMaxChannelIndicatorOperator.Input op)
    (roiToSlice ks ke ++ [SliceAll]) = Ok data →
  arr_shape data = kshape ++ [nch] →
  0 < nch →
  (∀ l, in_box (arr_shape data) l = true → is_Some (arr_at data l)) →
  np_any data = true →
  arr_shape result = kshape ++ [1] →
  ∃ result',
    (OpMaxChannelIndicatorOperator.execute op
       (mkRoi (ks ++ [cs]) (ke ++ [cs + 1])) result).2 = Ok result' ∧
    arr_shape result' = arr_shape result ∧
    (∀ px, in_box kshape px = true →
       ∃ vals k,
         mapM (λ c, arr_at data (px ++ [c])) (py_range 0 nch) = Some vals ∧
         first_max vals k ∧ k < nch ∧
         arr_at result' (px ++ [0]) = Some (if k =? cs then 1 else 0)) ∧
    (∀ q, in_box (arr_shape result) q = false → arr_at result' q = arr_at result q).
Proof.
  intros Hlen Hget Hshape Hnch Hdef Hany Hres.
  rewrite maxchannel_execute_unfold by done.
  replace (cs + 1 - cs =? 1) with true by (symmetry; apply Z.eqb_eq; lia).
  cbn [negb snd]. rewrite Hget. cbn [mbind res_bind]. rewrite Hany. cbn [negb].
  unfold np_argmax_last, py_last. rewrite Hshape, last_snoc, py_init_snoc.
  cbn [or_raise mbind res_bind].
  replace (nch <=? 0) with false by (symmetry; apply Z.leb_gt; lia).
  cbn [mbind res_bind]. unfold assign_all, np_eq_uint8_newaxis.
  cbn [arr_shape arr_at]. rewrite Hres.
  rewrite bool_decide_eq_true_2 by done.
  eexists. split; [reflexivity|]. cbn [arr_shape arr_at]. split; [done|]. split.
  - intros px Hpx.
    assert (Hll := in_box_length _ _ Hpx).
    destruct (mapM_is_Some_2 (λ c, arr_at data (px ++ [c])) (py_range 0 nch))
      as [vals Hvals].
    { apply Forall_forall. intros c Hc%elem_of_py_range. simpl.
      apply Hdef. rewrite Hshape, in_box_app by done. rewrite Hpx.
      cbn [in_box andb].
      replace (0 <=? c) with true by (symmetry; apply Z.leb_le; lia).
      by replace (c <? nch) with true by (symmetry; apply Z.ltb_lt; lia). }
    assert (length vals = Z.to_nat nch) as Hvl.
    { apply length_mapM in Hvals. rewrite <- Hvals.
      by rewrite py_range_length. }
    destruct (argmax_first_max vals) as (k & Hk & Hfm & Hklt).
    { intros ->. simpl in Hvl. lia. }
    exists vals, k. split; [done|]. split; [done|]. split; [lia|].
    rewrite in_box_app by done. rewrite Hpx. simpl.
    rewrite last_snoc, py_init_snoc, Hpx. cbn [mbind option_bind].
    rewrite Hvals. cbn [mbind option_bind]. by rewrite Hk.
  - intros q Hq. by rewrite Hq.
Qed.
Lemma maxchannel_execute_indicator_witness :
  ∃ result',
    (OpMaxChannelIndicatorOperator.execute
       (OpMaxChannelIndicatorOperator.mk indicator_input empty_meta)
       (mkRoi ([0] ++ [1]) ([2] ++ [1 + 1])) (np_empty [2; 1])).2 = Ok result' ∧
    arr_shape result' = arr_shape (np_empty [2; 1]) ∧
    (∀ px, in_box [2] px = true →
       ∃ vals k,
         mapM (λ c, arr_at
                      (block_of
                         (λ q, 10 - (default 0 (q !! 1%nat) - default 0 (q !! 0%nat) - 1)
                                    * (default 0 (q !! 1%nat) - default 0 (q !! 0%nat) - 1))
                         [0; 0] [2; 3])
                      (px ++ [c])) (py_range 0 3) = Some vals ∧
         first_max vals k ∧ k < 3 ∧
         arr_at result' (px ++ [0]) = Some (if k =? 1 then 1 else 0)) ∧
    (∀ q, in_box (arr_shape (np_empty [2; 1])) q = false →
          arr_at result' q = arr_at (np_empty [2; 1]) q).
Proof.
  apply (maxchannel_execute_indicator
           (OpMaxChannelIndicatorOperator.mk indicator_input empty_meta)
           [0] [2] 1 [2] 3 (np_empty [2; 1])
           (block_of
              (λ q, 10 - (default 0 (q !! 1%nat) - default 0 (q !! 0%nat) - 1)
                         * (default 0 (q !! 1%nat) - default 0 (q !! 0%nat) - 1))
              [0; 0] [2; 3])); try reflexivity.
  intros l Hl. unfold block_of in *. cbn [arr_shape arr_at] in *. rewrite Hl. eauto.
Defined.

(** The indicator evaluated on the 2x3 example: pixel 0 is won by channel 1
    and pixel 1 by channel 2. *)
Lemma maxchannel_execute_indicator_cells :
  ∃ r1 r2,
    (OpMaxChannelIndicatorOperator.execute
       (OpMaxChannelIndicatorOperator.mk indicator_input empty_meta)
       (mkRoi [0; 1] [2; 2]) (np_empty [2; 1])).2 = Ok r1 ∧
    (OpMaxChannelIndicatorOperator.execute
       (OpMaxChannelIndicatorOperator.mk indicator_input empty_meta)
       (mkRoi [0; 2] [2; 3]) (np_empty [2; 1])).2 = Ok r2 ∧
    arr_at r1 <$> ndindex [2; 1] = [Some 1; Some 0] ∧
    arr_at r2 <$> ndindex [2; 1] = [Some 0; Some 1].
Proof. do 2 eexists. repeat split; reflexivity. Qed.

(** ** OpMultiChannelSelector: a valid selection *)

(** X8: when the channel axis is last, the selection is not empty and every
    selected index lies below the input's channel count (negative indexes
    included), [setupOutputs] makes the output a copy of the input's metadata
    whose last extent is the number of selected channels; block-shape hints
    of the input's rank get their last entry set to 1 (ideal) and to the
    number of selected channels (maximum). *)
Theorem selector_setupOutputs_ready
    (op : OpMultiChannelSelector.t) (tags' : list string) (ishape : list Z) (nch : Z) :
  axistags (meta (OpMultiChannelSelector.Input op)) = tags' ++ ["c"%string] →
  shape (meta (OpMultiChannelSelector.Input op)) = Some (ishape ++ [nch]) →
  length ishape = length tags' →
  OpMultiChannelSelector.SelectedChannels op ≠ [] →
  (∀ x, x ∈ OpMultiChannelSelector.SelectedChannels op → x < nch) →
  (∀ b, ideal_blockshape (meta (OpMultiChannelSelector.Input op)) = Some b →
        length b = length (ishape ++ [nch])) →
  (∀ b, max_blockshape (meta (OpMultiChannelSelector.Input op)) = Some b →
        length b = length (ishape ++ [nch])) →
  ∃ op', OpMultiChannelSelector.setupOutputs op = Ok op' ∧
    shape (OpMultiChannelSelector.Output op')
      = Some (ishape ++ [Z.of_nat (length (OpMultiChannelSelector.SelectedChannels op))]) ∧
    axistags (OpMultiChannelSelector.Output op')
      = axistags (meta (OpMultiChannelSelector.Input op)) ∧
    dtype (OpMultiChannelSelector.Output op')
      = dtype (meta (OpMultiChannelSelector.Input op)) ∧
    NOTREADY (OpMultiChannelSelector.Output op')
      = NOTREADY (meta (OpMultiChannelSelector.Input op)) ∧
    ideal_blockshape (OpMultiChannelSelector.Output op')
      = <[length ishape := 1]>
          <$> ideal_blockshape (meta (OpMultiChannelSelector.Input op)) ∧
    max_blockshape (OpMultiChannelSelector.Output op')
      = <[length ishape :=
            Z.of_nat (length (OpMultiChannelSelector.SelectedChannels op))]>
          <$> max_blockshape (meta (OpMultiChannelSelector.Input op)).
Proof.
  intros Htags Hshape Hlen Hne Hsel Hideal Hmax.
  destruct op as [inp sel out].
  cbn [OpMultiChannelSelector.Input OpMultiChannelSelector.SelectedChannels] in *.
  destruct (meta inp) as [shp tags dt dr ideal mb nr] eqn:Hm.
  cbn [shape axistags ideal_blockshape max_blockshape dtype NOTREADY] in *.
  subst shp tags.
  unfold OpMultiChannelSelector.setupOutputs, py_last, getTaggedShape, get_shape,
    assignFrom, OpMultiChannelSelector.with_Output.
  cbn [OpMultiChannelSelector.Input OpMultiChannelSelector.SelectedChannels
       OpMultiChannelSelector.Output].
  rewrite Hm. cbn [shape axistags].
  rewrite last_snoc. cbn [or_raise mbind res_bind].
  rewrite bool_decide_eq_true_2 by done. cbn [negb or_raise mbind res_bind].
  rewrite (tagged_lookup_mid "c" tags' [] ishape [] nch)
    by (done || apply not_elem_of_nil).
  cbn [or_raise mbind res_bind].
  rewrite (bool_decide_eq_false_2 (length sel = 0%nat))
    by (destruct sel; simpl; [done|lia]).
  destruct (existsb (λ x, nch <=? x) sel) eqn:Hex.
  { apply existsb_elem_of in Hex as (x & Hx & Hle%Z.leb_le).
    specialize (Hsel x Hx). lia. }
  cbn [orb or_raise mbind res_bind]. rewrite py_init_snoc.
  cbn [ideal_blockshape max_blockshape set_shape].
  assert (∀ (b : list Z) v, length b = length (ishape ++ [nch]) →
            py_setitem (length b - 1) v b = Ok (<[length ishape := v]> b)) as Hset.
  { intros b v Hb. unfold py_setitem. rewrite Hb, length_app. simpl.
    replace (length ishape + 1 - 1)%nat with (length ishape) by lia.
    destruct (decide _) as [|Hn]; [done|]. exfalso. apply Hn. lia. }
  destruct ideal as [ideal|].
  - rewrite bool_decide_eq_true_2 by (by apply Hideal).
    cbn [assert mbind res_bind]. rewrite Hset by (by apply Hideal).
    cbn [mbind res_bind max_blockshape set_ideal_blockshape set_shape].
    destruct mb as [mb|].
    + rewrite bool_decide_eq_true_2 by (by apply Hmax).
      cbn [assert mbind res_bind]. rewrite Hset by (by apply Hmax).
      cbn [mbind res_bind]. eexists. split; [reflexivity|]. by repeat split.
    + cbn [mbind res_bind]. eexists. split; [reflexivity|]. by repeat split.
  - cbn [mbind res_bind max_blockshape set_shape].
    destruct mb as [mb|].
    + rewrite bool_decide_eq_true_2 by (by apply Hmax).
      cbn [assert mbind res_bind]. rewrite Hset by (by apply Hmax).
      cbn [mbind res_bind]. eexists. split; [reflexivity|]. by repeat split.
    + cbn [mbind res_bind]. eexists. split; [reflexivity|]. by repeat split.
Qed.

Lemma selector_setupOutputs_ready_witness :
  ∃ op', OpMultiChannelSelector.setupOutputs selector_2_0_0 = Ok op' ∧
    shape (OpMultiChannelSelector.Output op')
      = Some ([5] ++ [Z.of_nat (length (OpMultiChannelSelector.SelectedChannels
                                           selector_2_0_0))]) ∧
    axistags (OpMultiChannelSelector.Output op')
      = axistags (meta (OpMultiChannelSelector.Input selector_2_0_0)) ∧
    dtype (OpMultiChannelSelector.Output op')
      = dtype (meta (OpMultiChannelSelector.Input selector_2_0_0)) ∧
    NOTREADY (OpMultiChannelSelector.Output op')
      = NOTREADY (meta (OpMultiChannelSelector.Input selector_2_0_0)) ∧
    ideal_blockshape (OpMultiChannelSelector.Output op')
      = <[length [5] := 1]>
          <$> ideal_blockshape (meta (OpMultiChannelSelector.Input selector_2_0_0)) ∧
    max_blockshape (OpMultiChannelSelector.Output op')
      = <[length [5] :=
            Z.of_nat (length (OpMultiChannelSelector.SelectedChannels selector_2_0_0))]>
          <$> max_blockshape (meta (OpMultiChannelSelector.Input selector_2_0_0)).
Proof.
  apply (selector_setupOutputs_ready selector_2_0_0 ["x"]%string [5] 4);
    try reflexivity.
  - discriminate.
  - intros x Hx. apply list_elem_of_In in Hx. simpl in Hx. lia.
  - by intros b [= <-].
  - by intros b [= <-].
Defined.
(** ** OpMultiInputConcatenater *)

Lemma getOutputIndex_loop_found (ms1 ms2 : list OpMultiInputConcatenater.MultiSlot)
    (m : OpMultiInputConcatenater.MultiSlot) (i acc : nat) :
  OpMultiInputConcatenater.ms_id m ∉ OpMultiInputConcatenater.ms_id <$> ms1 →
  OpMultiInputConcatenater.getOutputIndex_loop (OpMultiInputConcatenater.ms_id m) i acc
    (ms1 ++ m :: ms2)
  = Ok (acc + length (concat (OpMultiInputConcatenater.ms_slots <$> ms1)) + i)%nat.
Proof.
  revert acc. induction ms1 as [|m0 ms1 IH]; intros acc Hnotin; simpl.
  - rewrite bool_decide_eq_false_2 by (intros H; by apply H).
    by rewrite Nat.add_0_r.
  - rewrite fmap_cons in Hnotin. apply not_elem_of_cons in Hnotin as [Hne Hnotin].
    rewrite bool_decide_eq_true_2 by done.
    rewrite IH by done. rewrite length_app. by rewrite Nat.add_assoc.
Qed.

Lemma getOutputIndex_loop_unknown (ms : list OpMultiInputConcatenater.MultiSlot)
    (id i acc : nat) :
  id ∉ OpMultiInputConcatenater.ms_id <$> ms →
  OpMultiInputConcatenater.getOutputIndex_loop id i acc ms = Raise AssertionError.
Proof.
  revert acc. induction ms as [|m0 ms IH]; intros acc Hnotin; simpl; [done|].
  rewrite fmap_cons in Hnotin. apply not_elem_of_cons in Hnotin as [Hne Hnotin].
  rewrite bool_decide_eq_true_2 by done. by apply IH.
Qed.

Lemma concat_lookup_offset {A} (ls1 ls2 : list (list A)) (l : list A) (i : nat) (x : A) :
  l !! i = Some x →
  concat (ls1 ++ l :: ls2) !! (length (concat ls1) + i)%nat = Some x.
Proof.
  intros Hx. rewrite concat_app, lookup_app_r by lia.
  replace (length (concat ls1) + i - length (concat ls1))%nat with i by lia.
  simpl. by apply lookup_app_l_Some.
Qed.

(** X9: [getOutputIndex] of the sub-slot at position [i] of a multi-slot of
    [Inputs] is the number of sub-slots of the multi-slots before it plus
    [i], which is the sub-slot's position in the concatenation of all input
    lists; a multi-slot that is not among [Inputs] fails the assertion. *)
Theorem concatenater_getOutputIndex
    (op : OpMultiInputConcatenater.t)
    (ms1 ms2 : list OpMultiInputConcatenater.MultiSlot)
    (m : OpMultiInputConcatenater.MultiSlot) (i s : nat) :
  OpMultiInputConcatenater.Inputs op = ms1 ++ m :: ms2 →
  OpMultiInputConcatenater.ms_id m ∉ OpMultiInputConcatenater.ms_id <$> ms1 →
  OpMultiInputConcatenater.ms_slots m !! i = Some s →
  OpMultiInputConcatenater.getOutputIndex op (OpMultiInputConcatenater.ms_id m) i
  = Ok (length (concat (OpMultiInputConcatenater.ms_slots <$> ms1)) + i)%nat ∧
  concat (OpMultiInputConcatenater.ms_slots <$> OpMultiInputConcatenater.Inputs op)
    !! (length (concat (OpMultiInputConcatenater.ms_slots <$> ms1)) + i)%nat
  = Some s ∧
  ∀ id j, id ∉ OpMultiInputConcatenater.ms_id <$> OpMultiInputConcatenater.Inputs op →
    OpMultiInputConcatenater.getOutputIndex op id j = Raise AssertionError.
Proof.
  intros Hin Hnotin Hs. unfold OpMultiInputConcatenater.getOutputIndex.
  rewrite Hin. split; [|split].
  - by rewrite getOutputIndex_loop_found.
  - rewrite fmap_app, fmap_cons. by apply concat_lookup_offset.
  - intros id j Hid. by apply getOutputIndex_loop_unknown.
Qed.

Lemma connect_loop (slots : list nat) (k : nat) (pre rest : list (option nat)) :
  length pre = k → (length slots ≤ length rest)%nat →
  foldlM (λ '(outputIndex, output) s,
            output ← py_setitem outputIndex (Some s) output;
            Ok (S outputIndex, output))
    (k, pre ++ rest) slots
  = Ok ((k + length slots)%nat, pre ++ (Some <$> slots) ++ drop (length slots) rest).
Proof.
  revert k pre rest. induction slots as [|s slots IH]; intros k pre rest Hk Hlen.
  - simpl. by rewrite Nat.add_0_r.
  - destruct rest as [|y rest]; simpl in Hlen; [lia|].
    cbn [foldlM]. rewrite (py_setitem_at _ _ _ _ k) by done.
    cbn [mbind res_bind].
    replace (pre ++ Some s :: rest) with ((pre ++ [Some s]) ++ rest)
      by (by rewrite <- app_assoc).
    rewrite (IH (S k) (pre ++ [Some s]) rest)
      by (rewrite ?length_app; simpl; lia).
    rewrite <- app_assoc. simpl. do 2 f_equal. lia.
Qed.

Lemma rebuild_loop (ms : list OpMultiInputConcatenater.MultiSlot) (k : nat)
    (pre rest : list (option nat)) (subs : list nat) :
  length pre = k →
  (length (concat (OpMultiInputConcatenater.ms_slots <$> ms)) ≤ length rest)%nat →
  foldlM (λ '(outputIndex, output, subs) slot,
            '(outputIndex, output) ←
              foldlM (λ '(outputIndex, output) s,
                        output ← py_setitem outputIndex (Some s) output;
                        Ok (S outputIndex, output))
                (outputIndex, output) (OpMultiInputConcatenater.ms_slots slot);
            Ok (outputIndex, output, subs ++ [OpMultiInputConcatenater.ms_id slot]))
    (k, pre ++ rest, subs) ms
  = Ok ((k + length (concat (OpMultiInputConcatenater.ms_slots <$> ms)))%nat,
        pre ++ (Some <$> concat (OpMultiInputConcatenater.ms_slots <$> ms))
            ++ drop (length (concat (OpMultiInputConcatenater.ms_slots <$> ms))) rest,
        subs ++ (OpMultiInputConcatenater.ms_id <$> ms)).
Proof.
  revert k pre rest subs. induction ms as [|m ms IH]; intros k pre rest subs Hk Hlen.
  - simpl. by rewrite Nat.add_0_r, app_nil_r.
  - rewrite fmap_cons in Hlen. simpl in Hlen. rewrite length_app in Hlen.
    cbn [foldlM]. rewrite connect_loop by (done || lia).
    cbn [mbind res_bind].
    rewrite app_assoc.
    rewrite (IH (k + length (OpMultiInputConcatenater.ms_slots m))%nat)
      by (rewrite ?length_app, ?length_fmap, ?length_drop; lia).
    rewrite !fmap_cons. simpl. rewrite length_app, fmap_app, drop_drop.
    rewrite <- !app_assoc. simpl. do 3 f_equal. lia.
Qed.

Lemma total_length_loop (ms : list OpMultiInputConcatenater.MultiSlot) (acc : nat) :
  foldl (λ total slot, total + length (OpMultiInputConcatenater.ms_slots slot))%nat acc ms
  = (acc + length (concat (OpMultiInputConcatenater.ms_slots <$> ms)))%nat.
Proof.
  revert acc. induction ms as [|m ms IH]; intros acc; simpl.
  - by rewrite Nat.add_0_r.
  - rewrite IH, length_app. by rewrite Nat.add_assoc.
Qed.

Lemma concatenater_resize_length (n : nat) (output : list (option nat)) :
  length (OpMultiInputConcatenater.resize n output) = n.
Proof.
  unfold OpMultiInputConcatenater.resize.
  rewrite length_app, length_take, length_replicate. lia.
Qed.

(** X10: when the number of input lists has changed, [setupOutputs] rebuilds
    the output as the concatenation of the input lists: output sub-slot [k]
    is connected to the [k]-th input sub-slot in list order, whatever the
    output held before.  Every input list is subscribed to once more, and a
    second call changes nothing. *)
Theorem concatenater_setupOutputs_rebuilds (op : OpMultiInputConcatenater.t) :
  OpMultiInputConcatenater._numInputLists op
    ≠ length (OpMultiInputConcatenater.Inputs op) →
  ∃ op', OpMultiInputConcatenater.setupOutputs op = Ok op' ∧
    OpMultiInputConcatenater.Inputs op' = OpMultiInputConcatenater.Inputs op ∧
    OpMultiInputConcatenater.Output op'
      = Some <$> concat (OpMultiInputConcatenater.ms_slots
                           <$> OpMultiInputConcatenater.Inputs op) ∧
    OpMultiInputConcatenater._numInputLists op'
      = length (OpMultiInputConcatenater.Inputs op) ∧
    OpMultiInputConcatenater.subscribed op'
      = OpMultiInputConcatenater.subscribed op
        ++ (OpMultiInputConcatenater.ms_id <$> OpMultiInputConcatenater.Inputs op) ∧
    OpMultiInputConcatenater.setupOutputs op' = Ok op'.
Proof.
  intros Hne. unfold OpMultiInputConcatenater.setupOutputs at 1.
  rewrite bool_decide_eq_false_2 by done.
  rewrite total_length_loop. simpl.
  set (n := length (concat (OpMultiInputConcatenater.ms_slots
                              <$> OpMultiInputConcatenater.Inputs op))).
  rewrite (rebuild_loop _ 0 [] (OpMultiInputConcatenater.resize n
                                  (OpMultiInputConcatenater.Output op)))
    by (rewrite ?concatenater_resize_length; done).
  cbn [mbind res_bind]. eexists. split; [reflexivity|].
  cbn [OpMultiInputConcatenater.Inputs OpMultiInputConcatenater.Output
       OpMultiInputConcatenater._numInputLists OpMultiInputConcatenater.subscribed].
  split; [done|]. split.
  { rewrite drop_ge by (by rewrite concatenater_resize_length).
    by rewrite app_nil_r. }
  split; [done|]. split; [done|].
  unfold OpMultiInputConcatenater.setupOutputs.
  cbn [OpMultiInputConcatenater.Inputs OpMultiInputConcatenater._numInputLists].
  by rewrite bool_decide_eq_true_2.
Qed.
Lemma concatenater_subslot_found (op : OpMultiInputConcatenater.t)
    (ms1 ms2 : list OpMultiInputConcatenater.MultiSlot)
    (m : OpMultiInputConcatenater.MultiSlot) (i s : nat) :
  OpMultiInputConcatenater.Inputs op = ms1 ++ m :: ms2 →
  OpMultiInputConcatenater.ms_id m ∉ OpMultiInputConcatenater.ms_id <$> ms1 →
  OpMultiInputConcatenater.ms_slots m !! i = Some s →
  OpMultiInputConcatenater.subslot op (OpMultiInputConcatenater.ms_id m) i = Ok s.
Proof.
  intros Hin Hnotin Hs. unfold OpMultiInputConcatenater.subslot. rewrite Hin.
  rewrite list_find_app_r.
  - simpl. rewrite decide_True by done. simpl. by rewrite Hs.
  - apply list_find_None, Forall_forall. intros m' Hm' Heq. apply Hnotin.
    rewrite <- Heq. by apply list_elem_of_fmap_2.
Qed.

Lemma concat_slots_mid (ms1 ms2 : list OpMultiInputConcatenater.MultiSlot)
    (m : OpMultiInputConcatenater.MultiSlot) (l1 l2 : list nat) :
  OpMultiInputConcatenater.ms_slots m = l1 ++ l2 →
  Some <$> concat (OpMultiInputConcatenater.ms_slots <$> ms1 ++ m :: ms2)
  = (Some <$> concat (OpMultiInputConcatenater.ms_slots <$> ms1) ++ l1)
    ++ (Some <$> l2 ++ concat (OpMultiInputConcatenater.ms_slots <$> ms2)).
Proof.
  intros Hm. rewrite fmap_app, concat_app, fmap_cons. cbn [concat]. rewrite Hm.
  rewrite <- fmap_app. f_equal. by rewrite <- !app_assoc.
Qed.

(** X11: the insert handler keeps the output equal to the concatenation of
    the input lists.  If the output listed the input sub-slots as they were
    before a sub-slot was inserted at position [length l1] of a multi-slot,
    then after the handler it lists them as they are now, the new sub-slot at
    its place. *)
Theorem concatenater_handleInputInserted
    (op : OpMultiInputConcatenater.t)
    (ms1 ms2 : list OpMultiInputConcatenater.MultiSlot)
    (m : OpMultiInputConcatenater.MultiSlot) (l1 l2 : list nat) (s : nat) :
  OpMultiInputConcatenater.Inputs op = ms1 ++ m :: ms2 →
  OpMultiInputConcatenater.ms_id m ∉ OpMultiInputConcatenater.ms_id <$> ms1 →
  OpMultiInputConcatenater.ms_slots m = l1 ++ s :: l2 →
  OpMultiInputConcatenater.Output op
    = Some <$> concat (OpMultiInputConcatenater.ms_slots
                         <$> ms1 ++ OpMultiInputConcatenater.mkMulti
                                      (OpMultiInputConcatenater.ms_id m) (l1 ++ l2)
                                    :: ms2) →
  ∃ op', OpMultiInputConcatenater.handleInputInserted op
           (OpMultiInputConcatenater.ms_id m) (length l1) = Ok op' ∧
    OpMultiInputConcatenater.Inputs op' = OpMultiInputConcatenater.Inputs op ∧
    OpMultiInputConcatenater.Output op'
      = Some <$> concat (OpMultiInputConcatenater.ms_slots
                           <$> OpMultiInputConcatenater.Inputs op).
Proof.
  intros Hin Hnotin Hm Hout.
  assert (OpMultiInputConcatenater.ms_slots m !! length l1 = Some s) as Hs
    by (rewrite Hm; apply lookup_mid).
  unfold OpMultiInputConcatenater.handleInputInserted,
    OpMultiInputConcatenater.getOutputIndex.
  rewrite Hin. rewrite getOutputIndex_loop_found by done.
  cbn [mbind res_bind].
  rewrite (concatenater_subslot_found op ms1 ms2 m _ s) by done.
  cbn [mbind res_bind].
  rewrite Hout, (concat_slots_mid _ _ _ l1 l2) by done.
  rewrite (py_insert_at _ _ _ (0 + length (concat (OpMultiInputConcatenater.ms_slots <$> ms1))
                               + length l1)%nat)
    by (rewrite length_fmap, length_app; lia).
  rewrite (py_setitem_at _ _ _ _ (0 + length (concat (OpMultiInputConcatenater.ms_slots <$> ms1))
                                  + length l1)%nat)
    by (rewrite length_fmap, length_app; lia).
  cbn [mbind res_bind]. eexists. split; [reflexivity|].
  cbn [OpMultiInputConcatenater.Inputs OpMultiInputConcatenater.Output].
  split; [done|].
  by rewrite (concat_slots_mid _ _ _ l1 (s :: l2)) by done.
Qed.

(** X12: the remove handler, called while the sub-slot at position
    [length l1] of a multi-slot is still in place, takes that sub-slot's
    entry out of the output: an output that listed the input sub-slots lists
    them without the removed one afterwards. *)
Theorem concatenater_handleInputRemoved
    (op : OpMultiInputConcatenater.t)
    (ms1 ms2 : list OpMultiInputConcatenater.MultiSlot)
    (m : OpMultiInputConcatenater.MultiSlot) (l1 l2 : list nat) (s : nat) :
  OpMultiInputConcatenater.Inputs op = ms1 ++ m :: ms2 →
  OpMultiInputConcatenater.ms_id m ∉ OpMultiInputConcatenater.ms_id <$> ms1 →
  OpMultiInputConcatenater.ms_slots m = l1 ++ s :: l2 →
  OpMultiInputConcatenater.Output op
    = Some <$> concat (OpMultiInputConcatenater.ms_slots
                         <$> OpMultiInputConcatenater.Inputs op) →
  ∃ op', OpMultiInputConcatenater.handleInputRemoved op
           (OpMultiInputConcatenater.ms_id m) (length l1) = Ok op' ∧
    OpMultiInputConcatenater.Inputs op' = OpMultiInputConcatenater.Inputs op ∧
    OpMultiInputConcatenater.Output op'
      = Some <$> concat (OpMultiInputConcatenater.ms_slots
                           <$> ms1 ++ OpMultiInputConcatenater.mkMulti
                                        (OpMultiInputConcatenater.ms_id m) (l1 ++ l2)
                                      :: ms2).
Proof.
  intros Hin Hnotin Hm Hout.
  unfold OpMultiInputConcatenater.handleInputRemoved,
    OpMultiInputConcatenater.getOutputIndex.
  rewrite Hin. rewrite getOutputIndex_loop_found by done.
  cbn [mbind res_bind].
  rewrite Hout, Hin, (concat_slots_mid _ _ _ l1 (s :: l2)) by done.
  change (Some <$> (s :: l2) ++ ?c) with (Some s :: (Some <$> l2 ++ c)).
  destruct (decide _) as [_|Hn].
  2:{ exfalso. apply Hn. rewrite length_app, length_fmap, length_app. simpl. lia. }
  cbn [mbind res_bind].
  rewrite (py_pop_at _ _ _ (0 + length (concat (OpMultiInputConcatenater.ms_slots <$> ms1))
                            + length l1)%nat)
    by (rewrite length_fmap, length_app; lia).
  eexists. split; [reflexivity|].
  cbn [OpMultiInputConcatenater.Inputs OpMultiInputConcatenater.Output].
  split; [done|].
  by rewrite (concat_slots_mid _ _ _ l1 l2) by done.
Qed.
Lemma concatenater_getOutputIndex_witness :
  OpMultiInputConcatenater.getOutputIndex concatenater_two_lists
    (OpMultiInputConcatenater.ms_id (OpMultiInputConcatenater.mkMulti 1 [20; 21; 22]%nat))
    1
  = Ok (length (concat (OpMultiInputConcatenater.ms_slots
                          <$> [OpMultiInputConcatenater.mkMulti 0 [10; 11]%nat])) + 1)%nat ∧
  concat (OpMultiInputConcatenater.ms_slots
            <$> OpMultiInputConcatenater.Inputs concatenater_two_lists)
    !! (length (concat (OpMultiInputConcatenater.ms_slots
                          <$> [OpMultiInputConcatenater.mkMulti 0 [10; 11]%nat])) + 1)%nat
  = Some 21%nat ∧
  ∀ id j,
    id ∉ OpMultiInputConcatenater.ms_id
           <$> OpMultiInputConcatenater.Inputs concatenater_two_lists →
    OpMultiInputConcatenater.getOutputIndex concatenater_two_lists id j
    = Raise AssertionError.
Proof.
  apply (concatenater_getOutputIndex concatenater_two_lists
           [OpMultiInputConcatenater.mkMulti 0 [10; 11]%nat] []
           (OpMultiInputConcatenater.mkMulti 1 [20; 21; 22]%nat) 1 21);
    try reflexivity.
  by apply (bool_decide_unpack _).
Defined.

Lemma concatenater_setupOutputs_rebuilds_witness :
  ∃ op', OpMultiInputConcatenater.setupOutputs concatenater_two_lists = Ok op' ∧
    OpMultiInputConcatenater.Inputs op'
      = OpMultiInputConcatenater.Inputs concatenater_two_lists ∧
    OpMultiInputConcatenater.Output op'
      = Some <$> concat (OpMultiInputConcatenater.ms_slots
                           <$> OpMultiInputConcatenater.Inputs concatenater_two_lists) ∧
    OpMultiInputConcatenater._numInputLists op'
      = length (OpMultiInputConcatenater.Inputs concatenater_two_lists) ∧
    OpMultiInputConcatenater.subscribed op'
      = OpMultiInputConcatenater.subscribed concatenater_two_lists
        ++ (OpMultiInputConcatenater.ms_id
              <$> OpMultiInputConcatenater.Inputs concatenater_two_lists) ∧
    OpMultiInputConcatenater.setupOutputs op' = Ok op'.
Proof.
  apply (concatenater_setupOutputs_rebuilds concatenater_two_lists). discriminate.
Defined.

Lemma concatenater_handleInputInserted_witness :
  ∃ op', OpMultiInputConcatenater.handleInputInserted concatenater_before_insert
           (OpMultiInputConcatenater.ms_id
              (OpMultiInputConcatenater.mkMulti 1 [20; 21; 22]%nat))
           (length [20%nat]) = Ok op' ∧
    OpMultiInputConcatenater.Inputs op'
      = OpMultiInputConcatenater.Inputs concatenater_before_insert ∧
    OpMultiInputConcatenater.Output op'
      = Some <$> concat (OpMultiInputConcatenater.ms_slots
                           <$> OpMultiInputConcatenater.Inputs concatenater_before_insert).
Proof.
  apply (concatenater_handleInputInserted concatenater_before_insert
           [OpMultiInputConcatenater.mkMulti 0 [10; 11]%nat] []
           (OpMultiInputConcatenater.mkMulti 1 [20; 21; 22]%nat)
           [20%nat] [22%nat] 21%nat); try reflexivity.
  by apply (bool_decide_unpack _).
Defined.

Lemma concatenater_handleInputRemoved_witness :
  ∃ op', OpMultiInputConcatenater.handleInputRemoved concatenater_connected
           (OpMultiInputConcatenater.ms_id
              (OpMultiInputConcatenater.mkMulti 1 [20; 21; 22]%nat))
           (length [20%nat]) = Ok op' ∧
    OpMultiInputConcatenater.Inputs op'
      = OpMultiInputConcatenater.Inputs concatenater_connected ∧
    OpMultiInputConcatenater.Output op'
      = Some <$> concat (OpMultiInputConcatenater.ms_slots
                           <$> [OpMultiInputConcatenater.mkMulti 0 [10; 11]%nat]
                               ++ OpMultiInputConcatenater.mkMulti
                                    (OpMultiInputConcatenater.ms_id
                                       (OpMultiInputConcatenater.mkMulti 1
                                          [20; 21; 22]%nat))
                                    ([20%nat] ++ [22%nat])
                                  :: []).
Proof.
  apply (concatenater_handleInputRemoved concatenater_connected
           [OpMultiInputConcatenater.mkMulti 0 [10; 11]%nat] []
           (OpMultiInputConcatenater.mkMulti 1 [20; 21; 22]%nat)
           [20%nat] [22%nat] 21%nat); try reflexivity.
  by apply (bool_decide_unpack _).
Defined.

(** ** OpMultiArraySlicer2 with an explicit index list *)

Section slicer_indexed.
Variables (A : Coord → Z) (mA : MetaDict) (flag : string) (a : nat).
Variables (o1 o2 : list Z) (N : Z) (idxs : list Z).
Hypothesis Hshape : shape mA = Some (o1 ++ N :: o2).
Hypothesis Hidx : index_of flag (axistags mA) = Some a.
Hypothesis Ho1 : length o1 = a.

Local Abbreviation islot := (slice_meta mA (o1 ++ 1 :: o2)) (only parsing).
Local Abbreviation isliced := (indexed_slicer A mA flag (o1 ++ 1 :: o2) idxs)
  (only parsing).

Lemma slicer_setupOutputs_indexed :
  OpMultiArraySlicer2.setupOutputs
    (OpMultiArraySlicer2.mk (array_slot mA A) flag (Some idxs) []) = Ok isliced.
Proof using Hshape Hidx Ho1.
  unfold OpMultiArraySlicer2.setupOutputs, OpMultiArraySlicer2.getSliceIndexes.
  cbn [OpMultiArraySlicer2.SliceIndexes OpMultiArraySlicer2.Input
       OpMultiArraySlicer2.AxisFlag].
  change (meta (array_slot mA A)) with mA. unfold axis_index, get_shape.
  rewrite Hidx, Hshape. cbn [or_raise mbind res_bind].
  destruct (decide _) as [_|Hn].
  2:{ exfalso. apply Hn. rewrite length_app. simpl. lia. }
  cbn [mbind res_bind].
  rewrite (py_pop_at _ _ _ a), (py_insert_at _ _ _ a) by done.
  unfold indexed_slicer, slice_meta, assignFrom. by destruct (drange mA).
Qed.

Lemma slicer_execute_indexed_spec (k : nat) (idx : Z) (s1 e1 s2 e2 : Coord)
    (result : ndarray) :
  idxs !! k = Some idx → 0 ≤ idx < N →
  roi_within s1 e1 o1 = true → roi_within s2 e2 o2 = true →
  arr_shape result = tv_sub e1 s1 ++ 1 :: tv_sub e2 s2 →
  ∃ r',
    OpMultiArraySlicer2.execute isliced k (mkRoi (s1 ++ 0 :: s2) (e1 ++ 1 :: e2)) result
    = Ok r' ∧
    arr_shape r' = arr_shape result ∧
    (∀ l1 l2, in_box (tv_sub e1 s1) l1 = true → in_box (tv_sub e2 s2) l2 = true →
       arr_at r' (l1 ++ 0 :: l2) = Some (A (tv_add s1 l1 ++ idx :: tv_add s2 l2))) ∧
    (∀ q, in_box (arr_shape result) q = false → arr_at r' q = arr_at result q).
Proof using Hshape Hidx Ho1.
  intros Hk Hrange Hr1 Hr2 Hres.
  destruct (roi_within_length _ _ _ Hr1) as [Hls1 Hle1].
  destruct (roi_within_length _ _ _ Hr2) as [Hls2 Hle2].
  apply lookup_lt_Some in Hk as Hklt.
  unfold OpMultiArraySlicer2.execute, OpMultiArraySlicer2.getSliceIndexes.
  cbn [OpMultiArraySlicer2.SliceIndexes OpMultiArraySlicer2.Input
       OpMultiArraySlicer2.AxisFlag OpMultiArraySlicer2.Slices indexed_slicer
       start stop].
  change (meta (array_slot mA A)) with mA.
  unfold axis_index, get_shape. rewrite Hidx.
  cbn [or_raise mbind res_bind]. rewrite Hk.
  rewrite lookup_replicate_2 by done.
  cbn [or_raise mbind res_bind]. rewrite oslot_shape.
  cbn [or_raise mbind res_bind].
  rewrite sliceToRoi_roiToSlice
    by (rewrite length_app; simpl; rewrite length_app; simpl; lia).
  cbn [mbind res_bind].
  destruct (decide _) as [_|Hn].
  2:{ exfalso. apply Hn. rewrite length_app. simpl. lia. }
  destruct (decide _) as [_|Hn].
  2:{ exfalso. apply Hn. rewrite length_app. simpl. lia. }
  cbn [mbind res_bind].
  rewrite !(py_pop_at _ _ _ a), !(py_insert_at _ _ _ a) by congruence.
  unfold slot_getitem. change (meta (array_slot mA A)) with mA.
  unfold get_shape. rewrite Hshape.
  cbn [or_raise mbind res_bind].
  rewrite sliceToRoi_roiToSlice
    by (rewrite length_app; simpl; rewrite length_app; simpl; lia).
  cbn [mbind res_bind].
  destruct (array_slot_serves mA A _ (s1 ++ idx :: s2) (e1 ++ (idx + 1) :: e2) Hshape)
    as (blk & -> & Hbs & Hbc).
  { apply roi_within_mid; [congruence|congruence|]. repeat split; (done || lia). }
  cbn [mbind res_bind].
  rewrite tv_sub_app in Hbs, Hbc by congruence. simpl in Hbs, Hbc.
  replace (idx + 1 - idx) with 1 in Hbs, Hbc by lia.
  destruct (writeInto_whole blk result) as (r' & -> & Hs' & Hcell); [congruence|].
  exists r'. split; [done|]. split; [done|]. split.
  - intros l1 l2 Hl1 Hl2.
    assert (Hll := in_box_length _ _ Hl1).
    assert (Hll' := Hll). rewrite tv_sub_length in Hll' by congruence.
    rewrite Hcell, Hres. rewrite in_box_mid by done. rewrite Hl1, Hl2. simpl.
    rewrite Hbc.
    + rewrite tv_add_app by congruence. simpl. by rewrite Z.add_0_r.
    + rewrite in_box_mid by done. by rewrite Hl1, Hl2.
  - intros q Hq. by rewrite Hcell, Hq.
Qed.

Lemma indexed_slot_meta (k : nat) :
  (k < length idxs)%nat → meta (OpMultiArraySlicer2.Slices_slot isliced k) = islot.
Proof.
  intros Hk. unfold OpMultiArraySlicer2.Slices_slot, output_slot. simpl.
  by rewrite lookup_replicate_2.
Qed.

Lemma indexed_slot_stack_source (k : nat) :
  (k < length idxs)%nat →
  stack_source flag a o1 o2
    (OpMultiArraySlicer2.Slices_slot isliced k) (true, 1).
Proof using Hidx.
  intros Hk. unfold stack_source. rewrite indexed_slot_meta by done.
  rewrite oslot_shape, oslot_axistags.
  assert (Hax := index_of_has_axis _ _ _ Hidx).
  assert (Hne := has_axis_nonempty _ _ Hax).
  repeat split; (done || lia).
Qed.

Lemma indexed_slot_source_ok (k : nat) (idx : Z) (s1 e1 s2 e2 : Coord) :
  idxs !! k = Some idx → 0 ≤ idx < N →
  roi_within s1 e1 o1 = true → roi_within s2 e2 o2 = true →
  source_ok flag a s1 e1 s2 e2 (OpMultiArraySlicer2.Slices_slot isliced k)
    (true, 1, λ q, A (<[a := idx]> q)).
Proof using Hshape Hidx Ho1.
  intros Hk Hrange Hr1 Hr2.
  destruct (roi_within_length _ _ _ Hr1) as [Hls1 Hle1].
  destruct (roi_within_length _ _ _ Hr2) as [Hls2 Hle2].
  apply lookup_lt_Some in Hk as Hklt.
  split.
  { rewrite indexed_slot_meta, oslot_axistags by done. by eapply index_of_has_axis. }
  split; [lia|]. split.
  { exists (o1 ++ 1 :: o2). rewrite indexed_slot_meta, oslot_shape by done.
    split; [done|]. by apply lookup_at. }
  intros b e Hb Hbe He Hpos.
  assert (b = 0) as -> by lia. assert (e = 1) as -> by lia.
  unfold slot_getitem. rewrite indexed_slot_meta by done. unfold get_shape at 1.
  rewrite oslot_shape. cbn [or_raise mbind res_bind].
  rewrite roiToSlice_mid by congruence.
  rewrite sliceToRoi_roiToSlice
    by (rewrite length_app; simpl; rewrite length_app; simpl; lia).
  cbn [mbind res_bind].
  unfold OpMultiArraySlicer2.Slices_slot, output_slot. cbn [get].
  change (OpMultiArraySlicer2.Slices isliced) with (replicate (length idxs) islot).
  rewrite lookup_replicate_2 by done.
  change (default empty_meta (Some islot)) with islot.
  unfold get_shape at 1. rewrite oslot_shape. cbn [or_raise mbind res_bind].
  assert (roi_within (s1 ++ 0 :: s2) (e1 ++ 1 :: e2) (o1 ++ 1 :: o2) = true) as ->.
  { apply roi_within_mid; [congruence|congruence|]. repeat split; (done || lia). }
  destruct (slicer_execute_indexed_spec k idx s1 e1 s2 e2
              (np_empty (tv_sub (e1 ++ 1 :: e2) (s1 ++ 0 :: s2))))
    as (r' & -> & Hs' & Hcell & _); try done.
  { simpl. by rewrite tv_sub_app by congruence. }
  exists r'. split; [done|].
  simpl in Hs'. rewrite tv_sub_app in Hs' by congruence. simpl in Hs'.
  split; [done|].
  intros l1 x l2 Hl1 Hx Hl2. assert (x = 0) as -> by lia.
  rewrite Hcell by done.
  assert (Hll := in_box_length _ _ Hl1). rewrite tv_sub_length in Hll by congruence.
  rewrite (insert_at _ _ _ _ a); [done|].
  unfold tv_add. rewrite length_zip_with. lia.
Qed.

End slicer_indexed.
(** X13: with an explicit index list, [setupOutputs] creates one sub-output
    per listed index, each with the input's shape but extent 1 along the
    sliced axis, and [execute] on sub-output [k] returns the input's slice at
    the [k]-th listed index (repeated and unordered indexes included). *)
Theorem slicer_execute_selected_index
    (A : Coord → Z) (mA : MetaDict) (flag : string) (a : nat)
    (o1 o2 : list Z) (N : Z) (idxs : list Z) :
  shape mA = Some (o1 ++ N :: o2) →
  index_of flag (axistags mA) = Some a →
  length o1 = a →
  ∃ sl,
    OpMultiArraySlicer2.setupOutputs
      (OpMultiArraySlicer2.mk (array_slot mA A) flag (Some idxs) []) = Ok sl ∧
    length (OpMultiArraySlicer2.Slices sl) = length idxs ∧
    Forall (λ m, shape m = Some (o1 ++ 1 :: o2) ∧ axistags m = axistags mA)
      (OpMultiArraySlicer2.Slices sl) ∧
    ∀ (k : nat) idx s1 e1 s2 e2 result,
      idxs !! k = Some idx → 0 ≤ idx < N →
      roi_within s1 e1 o1 = true → roi_within s2 e2 o2 = true →
      arr_shape result = tv_sub e1 s1 ++ 1 :: tv_sub e2 s2 →
      ∃ r',
        OpMultiArraySlicer2.execute sl k (mkRoi (s1 ++ 0 :: s2) (e1 ++ 1 :: e2)) result
        = Ok r' ∧
        arr_shape r' = arr_shape result ∧
        (∀ l1 l2, in_box (tv_sub e1 s1) l1 = true → in_box (tv_sub e2 s2) l2 = true →
           arr_at r' (l1 ++ 0 :: l2)
           = Some (A (tv_add s1 l1 ++ idx :: tv_add s2 l2))) ∧
        (∀ q, in_box (arr_shape result) q = false → arr_at r' q = arr_at result q).
Proof.
  intros Hshape Hidx Ho1. eexists.
  rewrite (slicer_setupOutputs_indexed A mA flag a o1 o2 N idxs) by done.
  split; [done|]. split; [apply length_replicate|]. split.
  { apply Forall_forall. intros m Hm. apply elem_of_replicate in Hm as [-> _].
    by rewrite oslot_shape, oslot_axistags. }
  intros k idx s1 e1 s2 e2 result Hk Hrange Hr1 Hr2 Hres.
  by apply (slicer_execute_indexed_spec A mA flag a o1 o2 N idxs).
Qed.

(** X14: slicing with an explicit index list and stacking the sub-outputs
    back along the same axis gathers the listed slices: position [j] of the
    stacked axis holds the input's slice at the [j]-th listed index. *)
Theorem slice_indexes_then_stack_gathers
    (A : Coord → Z) (mA : MetaDict) (flag : string) (a : nat)
    (o1 o2 : list Z) (N : Z) (idxs : list Z) :
  shape mA = Some (o1 ++ N :: o2) →
  index_of flag (axistags mA) = Some a →
  length o1 = a →
  idxs ≠ [] →
  Forall (λ idx, 0 ≤ idx < N) idxs →
  ∃ sl stk,
    OpMultiArraySlicer2.setupOutputs
      (OpMultiArraySlicer2.mk (array_slot mA A) flag (Some idxs) []) = Ok sl ∧
    OpMultiArrayStacker.setupOutputs
      (OpMultiArrayStacker.mk
         (OpMultiArraySlicer2.Slices_slot sl
            <$> seq 0 (length (OpMultiArraySlicer2.Slices sl)))
         flag None empty_meta []) = Ok stk ∧
    shape (OpMultiArrayStacker.Output stk)
      = Some (o1 ++ Z.of_nat (length idxs) :: o2) ∧
    ∀ st sp, roi_within st sp (o1 ++ Z.of_nat (length idxs) :: o2) = true →
      ∃ res',
        OpMultiArrayStacker.execute stk (mkRoi st sp) (np_empty (tv_sub sp st))
        = Ok res' ∧
        arr_shape res' = tv_sub sp st ∧
        (∀ p1 pa p2 idx, length p1 = a →
           in_roi st sp (p1 ++ pa :: p2) = true →
           idxs !! Z.to_nat pa = Some idx →
           arr_at res' (tv_sub (p1 ++ pa :: p2) st) = Some (A (p1 ++ idx :: p2))) ∧
        (∀ q, in_box (tv_sub sp st) q = false → arr_at res' q = None).
Proof.
  intros Hshape Hidx Ho1 Hne Hrange.
  eexists. rewrite (slicer_setupOutputs_indexed A mA flag a o1 o2 N idxs) by done.
  set (sliced := indexed_slicer A mA flag (o1 ++ 1 :: o2) idxs).
  assert (length (OpMultiArraySlicer2.Slices sliced) = length idxs) as Hlen
    by apply length_replicate.
  rewrite Hlen.
  assert (0 < length idxs)%nat as Hpos by (destruct idxs; [done|simpl; lia]).
  set (n := length idxs) in *.
  set (images := OpMultiArraySlicer2.Slices_slot sliced <$> seq 0 n).
  set (stk0 := OpMultiArrayStacker.mk images flag None empty_meta []).
  assert (Forall2 (stack_source flag a o1 o2) images
            ((λ _, (true, 1)) <$> seq 0 n)) as Hsrc.
  { apply Forall2_seq_fmap. intros i Hi.
    by apply (indexed_slot_stack_source A mA flag a o1 o2 idxs). }
  assert (OpMultiArrayStacker.Images stk0 ≠ []) as Hne'.
  { unfold stk0, images. simpl. intros Heq%(f_equal length).
    rewrite length_fmap, length_seq in Heq. simpl in Heq. lia. }
  assert (stack_config flag None a o1 images) as Hcfg.
  { apply (stack_config_native _ _ _ _ o2 _ _ Ho1 Hne' Hsrc).
    apply Forall_fmap. by apply Forall_true. }
  destruct (setRightShape_spec stk0 a o1 o2
              ((λ _ : nat, (true, 1)) <$> seq 0 n) Hcfg Hsrc)
    as (stk & Hset & HI & HF & Hiv & Hsh & Hix).
  rewrite <- list_fmap_compose in Hsh.
  change (snd ∘ (λ _ : nat, (true, 1))) with (λ _ : nat, 1) in Hsh.
  rewrite sum_ones, length_seq in Hsh.
  exists stk. split; [done|]. split; [done|]. split; [done|].
  intros st sp Hroi.
  destruct (roi_within_length _ _ _ Hroi) as [Hlst Hlsp].
  rewrite length_app in Hlst, Hlsp. simpl in Hlst, Hlsp.
  destruct (coord_split (length o1) (length o2) st)
    as (s1 & sa & s2 & -> & Hs1 & Hs2); [lia|].
  destruct (coord_split (length o1) (length o2) sp)
    as (e1 & ea & e2 & -> & He1 & He2); [lia|].
  assert (Hroi' := Hroi).
  apply roi_within_mid in Hroi' as (Hr1 & Hra & Hr2); [|done..].
  assert (Forall2 (source_ok (OpMultiArrayStacker.AxisFlag stk) a s1 e1 s2 e2)
            (OpMultiArrayStacker.Images stk)
            ((λ idx, (true, 1, λ q, A (<[a := idx]> q))) <$> idxs))
    as Hok.
  { rewrite HI, HF. apply Forall2_same_length_lookup_2.
    - unfold stk0, images. simpl. by rewrite !length_fmap, length_seq.
    - intros k src d Hsrc' Hd.
      unfold stk0, images in Hsrc'. simpl in Hsrc'.
      apply list_lookup_fmap_Some in Hsrc' as (k' & -> & Hk').
      apply lookup_seq in Hk' as [-> Hklt]. simpl.
      apply list_lookup_fmap_Some in Hd as (idx & -> & Hidx').
      apply (indexed_slot_source_ok A mA flag a o1 o2 N idxs); try done.
      rewrite Forall_forall in Hrange. apply Hrange.
      by eapply list_elem_of_lookup_2. }
  change (OpMultiArrayStacker.AxisFlag stk0) with flag in Hix.
  replace flag with (OpMultiArrayStacker.AxisFlag stk) in Hix by done.
  destruct (stacker_execute_spec stk a o1 o2 (Z.of_nat n) s1 e1 s2 e2 sa ea
              _ (np_empty (tv_sub (e1 ++ ea :: e2) (s1 ++ sa :: s2)))
              Hsh Hix Ho1 Hroi ltac:(congruence) ltac:(congruence) Hok)
    as (res' & Hexec & Hs' & Hcell & Hout).
  { simpl. by rewrite tv_sub_app by congruence. }
  exists res'. split; [done|]. split; [done|]. split.
  - intros p1 pa p2 idx Hp1 Hin Hidx'.
    rewrite in_roi_app in Hin by congruence.
    apply andb_true_iff in Hin as [Hin1 Hin2]. simpl in Hin2.
    apply andb_true_iff in Hin2 as [[Hlo%Z.leb_le Hhi%Z.ltb_lt]%andb_true_iff Hin2].
    destruct (in_roi_box _ _ _ Hin1) as [Hb1 Hp1'].
    destruct (in_roi_box _ _ _ Hin2) as [Hb2 Hp2'].
    rewrite tv_sub_app by congruence. simpl.
    rewrite (Hcell (Z.to_nat pa) true 1 (λ q, A (<[a := idx]> q)) pa (pa + 1));
      try done; try lia.
    + unfold source_cell. rewrite Hp1', Hp2'.
      by rewrite (insert_at _ _ _ _ a) by congruence.
    + by rewrite list_lookup_fmap, Hidx'.
    + rewrite <- list_fmap_compose.
      change (offsets 0 ((λ _ : Z, 1) <$> idxs) !! Z.to_nat pa = Some (pa, pa + 1)).
      rewrite (offsets_ones 0 idxs (Z.to_nat pa)) by (fold n; lia).
      do 2 f_equal; lia.
  - intros q Hq. by rewrite Hout.
Qed.
Lemma slicer_execute_selected_index_witness :
  ∃ sl,
    OpMultiArraySlicer2.setupOutputs slicer_246 = Ok sl ∧
    length (OpMultiArraySlicer2.Slices sl) = length [2; 4; 6] ∧
    Forall (λ m, shape m = Some ([] ++ 1 :: [3])
                 ∧ axistags m = axistags (meta_of [8; 3] ["t"; "x"]%string None))
      (OpMultiArraySlicer2.Slices sl) ∧
    ∀ (k : nat) idx s1 e1 s2 e2 result,
      [2; 4; 6] !! k = Some idx → 0 ≤ idx < 8 →
      roi_within s1 e1 [] = true → roi_within s2 e2 [3] = true →
      arr_shape result = tv_sub e1 s1 ++ 1 :: tv_sub e2 s2 →
      ∃ r',
        OpMultiArraySlicer2.execute sl k (mkRoi (s1 ++ 0 :: s2) (e1 ++ 1 :: e2)) result
        = Ok r' ∧
        arr_shape r' = arr_shape result ∧
        (∀ l1 l2, in_box (tv_sub e1 s1) l1 = true → in_box (tv_sub e2 s2) l2 = true →
           arr_at r' (l1 ++ 0 :: l2)
           = Some (default 0 ((tv_add s1 l1 ++ idx :: tv_add s2 l2) !! 0%nat))) ∧
        (∀ q, in_box (arr_shape result) q = false → arr_at r' q = arr_at result q).
Proof.
  apply (slicer_execute_selected_index (λ q, default 0 (q !! 0%nat))
           (meta_of [8; 3] ["t"; "x"]%string None) "t" 0 [] [3] 8 [2; 4; 6]);
    reflexivity.
Defined.

Lemma slice_indexes_then_stack_gathers_witness :
  ∃ sl stk,
    OpMultiArraySlicer2.setupOutputs slicer_246 = Ok sl ∧
    OpMultiArrayStacker.setupOutputs
      (OpMultiArrayStacker.mk
         (OpMultiArraySlicer2.Slices_slot sl
            <$> seq 0 (length (OpMultiArraySlicer2.Slices sl)))
         "t" None empty_meta []) = Ok stk ∧
    shape (OpMultiArrayStacker.Output stk)
      = Some ([] ++ Z.of_nat (length [2; 4; 6]) :: [3]) ∧
    ∀ st sp, roi_within st sp ([] ++ Z.of_nat (length [2; 4; 6]) :: [3]) = true →
      ∃ res',
        OpMultiArrayStacker.execute stk (mkRoi st sp) (np_empty (tv_sub sp st))
        = Ok res' ∧
        arr_shape res' = tv_sub sp st ∧
        (∀ p1 pa p2 idx, length p1 = 0%nat →
           in_roi st sp (p1 ++ pa :: p2) = true →
           [2; 4; 6] !! Z.to_nat pa = Some idx →
           arr_at res' (tv_sub (p1 ++ pa :: p2) st)
           = Some (default 0 ((p1 ++ idx :: p2) !! 0%nat))) ∧
        (∀ q, in_box (tv_sub sp st) q = false → arr_at res' q = None).
Proof.
  apply (slice_indexes_then_stack_gathers (λ q, default 0 (q !! 0%nat))
           (meta_of [8; 3] ["t"; "x"]%string None) "t" 0 [] [3] 8 [2; 4; 6]);
    try reflexivity.
  - discriminate.
  - repeat constructor; lia.
Defined.

(** The gather evaluated: the slices 2, 4 and 6 of the 8x3 volume whose cell
    [(t, x)] holds [t], stacked along ["t"]. *)
Lemma slice_indexes_then_stack_cells :
  ∃ sl stk res',
    OpMultiArraySlicer2.setupOutputs slicer_246 = Ok sl ∧
    OpMultiArrayStacker.setupOutputs
      (OpMultiArrayStacker.mk
         (OpMultiArraySlicer2.Slices_slot sl
            <$> seq 0 (length (OpMultiArraySlicer2.Slices sl)))
         "t" None empty_meta []) = Ok stk ∧
    OpMultiArrayStacker.execute stk (mkRoi [0; 0] [3; 2]) (np_empty [3; 2]) = Ok res' ∧
    arr_at res' <$> ndindex [3; 2]
    = [Some 2; Some 2; Some 4; Some 4; Some 6; Some 6].
Proof. do 3 eexists. repeat split; reflexivity. Qed.

(** ** OpMultiArraySlicer2: which sub-outputs a dirty input region marks *)

Lemma foldlM_collect_filter {A B} (body : list B → A → res (list B))
    (P : A → Prop) `{∀ x, Decision (P x)} (f : A → B) (l : list A) (acc : list B) :
  (∀ x acc', x ∈ l →
     body acc' x = if decide (P x) then Ok (acc' ++ [f x]) else Ok acc') →
  foldlM body acc l = Ok (acc ++ (f <$> filter P l)).
Proof.
  revert acc. induction l as [|x l IH]; intros acc Hbody; simpl.
  - by rewrite app_nil_r.
  - rewrite Hbody by left. rewrite filter_cons.
    destruct (decide (P x)); cbn [mbind res_bind].
    + rewrite IH by (intros; apply Hbody; by right).
      by rewrite fmap_cons, <- app_assoc.
    + apply IH. intros; apply Hbody; by right.
Qed.

(** X15: a dirty region of the input whose range along the sliced axis is
    [sa, ea) marks the sub-output numbered [p] for exactly the axis positions
    [p] of that range that occur in the index list and are smaller than the
    number of sub-outputs, each with the sliced axis collapsed to [0, 1) and
    the other axes unchanged.  The sub-output is chosen by the axis position
    itself; no notification addresses a sub-output that does not exist. *)
Theorem slicer_propagateDirty_marks
    (op : OpMultiArraySlicer2.t) (a : nat) (idxs : list Z)
    (s1 e1 s2 e2 : Coord) (sa ea : Z) :
  index_of (OpMultiArraySlicer2.AxisFlag op)
    (axistags (meta (OpMultiArraySlicer2.Input op))) = Some a →
  OpMultiArraySlicer2.getSliceIndexes op = Ok idxs →
  length s1 = a → length e1 = a → 0 ≤ sa →
  ∃ marked,
    OpMultiArraySlicer2.propagateDirty op SlicerInputSlot
      (mkRoi (s1 ++ sa :: s2) (e1 ++ ea :: e2)) = Ok marked ∧
    marked
    = (λ p, (Z.to_nat p, DirtyRoi (mkRoi (s1 ++ 0 :: s2) (e1 ++ 1 :: e2))))
        <$> filter (λ p, p ∈ idxs
                         ∧ p < Z.of_nat (length (OpMultiArraySlicer2.Slices op)))
              (py_range sa ea) ∧
    Forall (λ md, (md.1 < length (OpMultiArraySlicer2.Slices op))%nat) marked.
Proof.
  intros Hidx Hgsi Hs1 He1 Hsa.
  unfold OpMultiArraySlicer2.propagateDirty. rewrite Hgsi.
  unfold axis_index. rewrite Hidx. cbn [or_raise mbind res_bind start stop].
  assert (zip (s1 ++ sa :: s2) (e1 ++ ea :: e2) !! a = Some (sa, ea)) as ->.
  { rewrite zip_with_app by congruence.
    apply lookup_at. rewrite length_zip_with. lia. }
  cbn [or_raise mbind res_bind fst snd].
  rewrite (foldlM_collect_filter _
             (λ p, p ∈ idxs ∧ p < Z.of_nat (length (OpMultiArraySlicer2.Slices op)))
             (λ p, (Z.to_nat p, DirtyRoi (mkRoi (s1 ++ 0 :: s2) (e1 ++ 1 :: e2))))).
  - eexists. split; [reflexivity|]. split; [done|].
    apply Forall_forall. intros [slot d] Hin.
    apply list_elem_of_fmap in Hin as (p & [= -> _] & Hp).
    apply list_elem_of_filter in Hp as [[_ Hlt] Hp%elem_of_py_range]. simpl. lia.
  - intros i acc Hi%elem_of_py_range.
    destruct (decide (i ∈ idxs ∧ _)) as [[Hin Hlt]|Hno].
    + rewrite bool_decide_eq_true_2 by done.
      replace (i <? _) with true by (symmetry; apply Z.ltb_lt; lia).
      unfold py_position.
      replace (i <? 0) with false by (symmetry; apply Z.ltb_ge; lia).
      replace (0 <=? i) with true by (symmetry; apply Z.leb_le; lia).
      replace (i <? _) with true by (symmetry; apply Z.ltb_lt; lia).
      cbn [andb mbind res_bind].
      by rewrite !(py_setitem_at _ _ _ _ a) by done.
    + destruct (bool_decide_reflect (i ∈ idxs)) as [Hin|Hin]; [|done].
      destruct (Z.ltb_spec i (Z.of_nat (length (OpMultiArraySlicer2.Slices op))));
        [|done].
      exfalso. by apply Hno.
Qed.

Lemma slicer_propagateDirty_marks_witness :
  ∃ marked,
    OpMultiArraySlicer2.propagateDirty slicer_246_configured
      SlicerInputSlot (mkRoi ([] ++ 1 :: [0]) ([] ++ 7 :: [3])) = Ok marked ∧
    marked
    = (λ p, (Z.to_nat p, DirtyRoi (mkRoi ([] ++ 0 :: [0]) ([] ++ 1 :: [3]))))
        <$> filter (λ p, p ∈ [2; 4; 6]
                         ∧ p < Z.of_nat (length (OpMultiArraySlicer2.Slices
                                                   slicer_246_configured)))
              (py_range 1 7) ∧
    Forall (λ md, (md.1 < length (OpMultiArraySlicer2.Slices slicer_246_configured))%nat)
      marked.
Proof.
  apply (slicer_propagateDirty_marks slicer_246_configured
           0 [2; 4; 6] [] [] [0] [3] 1 7); (reflexivity || lia).
Defined.

(** The law evaluated on that slicer: a dirty region over the axis positions
    1 to 6 contains the exposed slices 2, 4 and 6, yet the only notification
    goes to sub-output 2, which shows slice 6. *)
Lemma slicer_propagateDirty_marks_example :
  OpMultiArraySlicer2.propagateDirty slicer_246_configured SlicerInputSlot
    (mkRoi [1; 0] [7; 3])
  = Ok [(2%nat, DirtyRoi (mkRoi [0; 0] [1; 3]))].
Proof. reflexivity. Qed.
(** ** OpMultiArrayStacker: the interval table for arbitrary sources *)

Lemma setRightShape_step_interval (flag : string) (AxisIndex_ : option nat)
    (c : Z) (ivs : list (Z * Z)) (itk : list string) (ax : option nat)
    (out : MetaDict) (src : Slot) (st' : OpMultiArrayStacker.shape_state) :
  OpMultiArrayStacker.setRightShape_step flag AxisIndex_ (c, ivs, itk, ax, out) src
  = Ok st' →
  axistags (meta src) ≠ [] ∧
  st'.1.1.1.1 = (if upstream_slot src then c + contribution flag src else c) ∧
  st'.1.1.1.2 = (if upstream_slot src
                 then ivs ++ [(c, c + contribution flag src)] else ivs).
Proof.
  unfold OpMultiArrayStacker.setRightShape_step, contribution, tag_keys, assignFrom.
  destruct (axistags (meta src)) as [|t tags] eqn:Htags; [done|].
  cbn [mbind res_bind]. intros Hstep. split; [done|]. revert Hstep.
  destruct (upstream_slot src); [|by intros [= <-]].
  destruct (has_axis flag (t :: tags)); cbn [negb].
  - unfold get_shape, axis_index.
    destruct (shape (meta src)) as [shp|];
      cbn [or_raise mbind res_bind option_bind]; [|done].
    destruct (index_of flag (t :: tags)) as [k|];
      cbn [or_raise mbind res_bind option_bind default from_option]; [|done].
    destruct (shp !! k) as [n|]; simpl; [|done]. by intros [= <-].
  - cbn [mbind res_bind]. by intros [= <-].
Qed.

Lemma setRightShape_fold_intervals (flag : string) (AxisIndex_ : option nat)
    (srcs : list Slot) :
  ∀ c ivs itk ax out st',
    foldlM (OpMultiArrayStacker.setRightShape_step flag AxisIndex_)
      (c, ivs, itk, ax, out) srcs = Ok st' →
    Forall (λ s, axistags (meta s) ≠ []) srcs ∧
    st'.1.1.1.1
    = c + foldr Z.add 0 (contribution flag
                           <$> filter (λ s, upstream_slot s = true) srcs) ∧
    st'.1.1.1.2
    = ivs ++ offsets c (contribution flag
                          <$> filter (λ s, upstream_slot s = true) srcs).
Proof.
  induction srcs as [|src srcs IH]; intros c ivs itk ax out st' Hfold.
  - simpl in Hfold. injection Hfold as <-. simpl.
    split; [done|]. split; [lia|by rewrite app_nil_r].
  - cbn [foldlM] in Hfold. apply bind_Ok in Hfold as (st1 & Hstep & Hrest).
    destruct (setRightShape_step_interval _ _ _ _ _ _ _ _ _ Hstep)
      as (Htagged & Hc & Hivs).
    destruct st1 as [[[[c1 ivs1] itk1] ax1] out1]. simpl in Hc, Hivs.
    destruct (IH _ _ _ _ _ _ Hrest) as (Hall & Hc' & Hivs').
    split; [by constructor|].
    rewrite Hc', Hivs', Hc, Hivs. rewrite filter_cons.
    destruct (upstream_slot src) eqn:Hup.
    + rewrite decide_True by done. rewrite fmap_cons. simpl.
      split; [lia|]. by rewrite <- app_assoc.
    + by rewrite decide_False by done.
Qed.

(** X16: whenever [setRightShape] succeeds, every source, connected or not,
    carries axis tags (the loop reads them before it looks at the
    connection), and the interval table has one entry per connected source,
    in order: the first interval starts at 0 and each interval starts where
    the previous one stops and is as long as its source's contribution (the
    extent along the axis, or 1 for a source without the axis).  Sources
    without an upstream connection get no entry.  With sources, the output
    has an axis whose extent is the sum of the contributions; without any it
    has no shape, is not ready and an [execute] fails. *)
Theorem stacker_intervals_contiguous (op op' : OpMultiArrayStacker.t) :
  OpMultiArrayStacker.setRightShape op = Ok op' →
  OpMultiArrayStacker.Images op' = OpMultiArrayStacker.Images op ∧
  Forall (λ s, axistags (meta s) ≠ []) (OpMultiArrayStacker.Images op) ∧
  OpMultiArrayStacker.intervals op'
  = offsets 0 (contribution (OpMultiArrayStacker.AxisFlag op)
                 <$> filter (λ s, upstream_slot s = true)
                       (OpMultiArrayStacker.Images op)) ∧
  (OpMultiArrayStacker.Images op ≠ [] →
     ∃ shp (k : nat),
       shape (OpMultiArrayStacker.Output op') = Some shp ∧
       shp !! k
       = Some (foldr Z.add 0
                 (contribution (OpMultiArrayStacker.AxisFlag op)
                    <$> filter (λ s, upstream_slot s = true)
                          (OpMultiArrayStacker.Images op)))) ∧
  (OpMultiArrayStacker.Images op = [] →
     shape (OpMultiArrayStacker.Output op') = None ∧
     ready (OpMultiArrayStacker.Output op') = false ∧
     ∀ roi result, OpMultiArrayStacker.execute op' roi result = Raise TypeError).
Proof.
  unfold OpMultiArrayStacker.setRightShape. intros Hset.
  apply bind_Ok in Hset as ([[[[c ivs] itk] ax] out] & Hfold & Hset).
  destruct (setRightShape_fold_intervals _ _ _ _ _ _ _ _ _ Hfold)
    as (Htagged & Hc & Hivs).
  simpl in Hc, Hivs.
  apply bind_Ok in Hset as (out' & Hout & [= <-]).
  cbn [OpMultiArrayStacker.Images OpMultiArrayStacker.intervals
       OpMultiArrayStacker.Output].
  split; [done|]. split; [done|]. split; [done|]. split.
  - intros Hne. destruct (OpMultiArrayStacker.Images op) as [|first rest] eqn:HI;
      [done|].
    apply bind_Ok in Hout as (newshape & Hns & Hout).
    destruct (has_axis _ itk).
    + apply bind_Ok in Hout as (k & Hk & Hout).
      apply bind_Ok in Hout as (newshape' & Hset' & [= <-]).
      unfold py_setitem in Hset'. destruct (decide _) as [Hlt|]; [|done].
      injection Hset' as <-.
      exists (<[k := c]> newshape), k. split; [done|].
      rewrite list_lookup_insert_eq by done. by rewrite Hc.
    + apply bind_Ok in Hout as (k & Hk & [= <-]).
      exists (py_insert k c newshape), (Nat.min k (length newshape)).
      split; [by destruct (ideal_blockshape out), (max_blockshape out)|].
      unfold py_insert. rewrite lookup_app_r by (rewrite length_take; lia).
      rewrite length_take, Nat.sub_diag. simpl. by rewrite Hc.
  - intros HI. rewrite HI in Hout. injection Hout as <-.
    split; [done|]. split; [done|].
    intros roi result. unfold OpMultiArrayStacker.execute. done.
Qed.

Lemma stacker_intervals_contiguous_witness :
  ∃ op', OpMultiArrayStacker.setRightShape stacker_with_gap = Ok op' ∧
    OpMultiArrayStacker.Images op' = OpMultiArrayStacker.Images stacker_with_gap ∧
    Forall (λ s, axistags (meta s) ≠ [])
      (OpMultiArrayStacker.Images stacker_with_gap) ∧
    OpMultiArrayStacker.intervals op'
    = offsets 0 (contribution (OpMultiArrayStacker.AxisFlag stacker_with_gap)
                   <$> filter (λ s, upstream_slot s = true)
                         (OpMultiArrayStacker.Images stacker_with_gap)) ∧
    (OpMultiArrayStacker.Images stacker_with_gap ≠ [] →
       ∃ shp (k : nat),
         shape (OpMultiArrayStacker.Output op') = Some shp ∧
         shp !! k
         = Some (foldr Z.add 0
                   (contribution (OpMultiArrayStacker.AxisFlag stacker_with_gap)
                      <$> filter (λ s, upstream_slot s = true)
                            (OpMultiArrayStacker.Images stacker_with_gap)))) ∧
    (OpMultiArrayStacker.Images stacker_with_gap = [] →
       shape (OpMultiArrayStacker.Output op') = None ∧
       ready (OpMultiArrayStacker.Output op') = false ∧
       ∀ roi result, OpMultiArrayStacker.execute op' roi result = Raise TypeError).
Proof.
  eexists. split; [reflexivity|].
  apply (stacker_intervals_contiguous stacker_with_gap). reflexivity.
Defined.

(** The table of the stacker whose second source holds a value but has no
    upstream connection: two intervals for three sources. *)
Lemma stacker_with_gap_intervals :
  ∃ op', OpMultiArrayStacker.setRightShape stacker_with_gap = Ok op' ∧
    OpMultiArrayStacker.intervals op' = [(0, 2); (2, 5)] ∧
    shape (OpMultiArrayStacker.Output op') = Some [5; 2].
Proof. eexists. repeat split; reflexivity. Qed.

(** A source whose metadata was never assigned stops the configuration,
    connected or not: the loop iterates over its missing axis tags. *)
Lemma stacker_with_unassigned_TypeError :
  OpMultiArrayStacker.setRightShape stacker_with_unassigned = Raise TypeError.
Proof. reflexivity. Qed.

(** ** OpMaxChannelIndicatorOperator: declared and produced values *)

(** X17: for an input whose last axis is the channel axis, [setupOutputs]
    declares an output of the input's shape with dtype [uint8] and value
    range (0, 1), and every cell that [execute] writes for a single-channel
    request holds 0 or 1, whether or not the fetched block is all zero. *)
Theorem maxchannel_output_within_drange
    (op : OpMaxChannelIndicatorOperator.t) (ks ke : Coord) (cs : Z)
    (kshape : list Z) (nch : Z) (result data : ndarray) :
  last (axistags (meta (OpMaxChannelIndicatorOperator.Input op))) = Some "c"%string →
  length ks = length ke →
  slot_getitem (OpMaxChannelIndicatorOperator.Input op)
    (roiToSlice ks ke ++ [SliceAll]) = Ok data →
  arr_shape data = kshape ++ [nch] →
  0 < nch →
  (∀ l, in_box (arr_shape data) l = true → is_Some (arr_at data l)) →
  arr_shape result = kshape ++ [1] →
  ∃ op' result',
    OpMaxChannelIndicatorOperator.setupOutputs op = Ok op' ∧
    shape (OpMaxChannelIndicatorOperator.Output op')
      = shape (meta (OpMaxChannelIndicatorOperator.Input op)) ∧
    dtype (OpMaxChannelIndicatorOperator.Output op') = Some uint8 ∧
    drange (OpMaxChannelIndicatorOperator.Output op') = Some [0; 1] ∧
    (OpMaxChannelIndicatorOperator.execute op'
       (mkRoi (ks ++ [cs]) (ke ++ [cs + 1])) result).2 = Ok result' ∧
    ∀ q, in_box (arr_shape result) q = true →
      ∃ v, arr_at result' q = Some v ∧ 0 ≤ v ≤ 1.
Proof.
  intros Hlast Hlen Hget Hshape Hnch Hdef Hres.
  unfold OpMaxChannelIndicatorOperator.setupOutputs, py_last. rewrite Hlast.
  cbn [or_raise mbind res_bind]. rewrite bool_decide_eq_true_2 by done.
  cbn [assert mbind res_bind].
  exists (OpMaxChannelIndicatorOperator.mk (OpMaxChannelIndicatorOperator.Input op)
            (set_drange (Some [0; 1])
               (set_dtype (Some uint8)
                  (assignFrom (OpMaxChannelIndicatorOperator.Output op)
                     (meta (OpMaxChannelIndicatorOperator.Input op)))))).
  rewrite maxchannel_execute_unfold by done.
  cbn [OpMaxChannelIndicatorOperator.Input OpMaxChannelIndicatorOperator.Output].
  replace (cs + 1 - cs =? 1) with true by (symmetry; apply Z.eqb_eq; lia).
  cbn [negb snd]. rewrite Hget. cbn [mbind res_bind].
  destruct (np_any data) eqn:Hany; cbn [negb].
  - unfold np_argmax_last, py_last. rewrite Hshape, last_snoc, py_init_snoc.
    cbn [or_raise mbind res_bind].
    replace (nch <=? 0) with false by (symmetry; apply Z.leb_gt; lia).
    cbn [mbind res_bind]. unfold assign_all, np_eq_uint8_newaxis.
    cbn [arr_shape arr_at]. rewrite Hres.
    rewrite bool_decide_eq_true_2 by done.
    eexists. split; [reflexivity|]. unfold assignFrom.
    split; [done|]. split; [done|]. split; [done|]. split; [reflexivity|].
    cbn [arr_shape arr_at]. intros q Hq. rewrite Hq.
    apply in_box_split in Hq as (px & q2 & -> & Hpx & Hq2).
    destruct q2 as [|c [|? ?]]; simpl in Hq2; rewrite ?andb_false_r in Hq2;
      try done.
    assert (c = 0) as -> by lia.
    rewrite last_snoc, py_init_snoc, Hpx. cbn [mbind option_bind].
    destruct (mapM_is_Some_2 (λ c, arr_at data (px ++ [c])) (py_range 0 nch))
      as [vals Hvals].
    { apply Forall_forall. intros c Hc%elem_of_py_range. simpl.
      apply Hdef. rewrite Hshape, in_box_app by (by apply in_box_length).
      rewrite Hpx. cbn [in_box andb].
      replace (0 <=? c) with true by (symmetry; apply Z.leb_le; lia).
      by replace (c <? nch) with true by (symmetry; apply Z.ltb_lt; lia). }
    rewrite Hvals. cbn [mbind option_bind].
    destruct vals as [|v0 vals].
    { apply length_mapM in Hvals. rewrite py_range_length in Hvals.
      simpl in Hvals. lia. }
    cbn [argmax mbind option_bind].
    destruct (_ =? cs); eexists; (split; [reflexivity|lia]).
  - eexists. split; [reflexivity|]. unfold assignFrom.
    split; [done|]. split; [done|]. split; [done|]. split; [reflexivity|].
    intros q Hq. cbn [fill_all arr_at]. rewrite Hq. eexists. split; [done|lia].
Qed.

Lemma maxchannel_output_within_drange_witness :
  ∃ op' result',
    OpMaxChannelIndicatorOperator.setupOutputs
      (OpMaxChannelIndicatorOperator.mk indicator_input empty_meta) = Ok op' ∧
    shape (OpMaxChannelIndicatorOperator.Output op')
      = shape (meta (OpMaxChannelIndicatorOperator.Input
                       (OpMaxChannelIndicatorOperator.mk indicator_input empty_meta))) ∧
    dtype (OpMaxChannelIndicatorOperator.Output op') = Some uint8 ∧
    drange (OpMaxChannelIndicatorOperator.Output op') = Some [0; 1] ∧
    (OpMaxChannelIndicatorOperator.execute op'
       (mkRoi ([0] ++ [2]) ([2] ++ [2 + 1])) (np_empty [2; 1])).2 = Ok result' ∧
    ∀ q, in_box (arr_shape (np_empty [2; 1])) q = true →
      ∃ v, arr_at result' q = Some v ∧ 0 ≤ v ≤ 1.
Proof.
  apply (maxchannel_output_within_drange
           (OpMaxChannelIndicatorOperator.mk indicator_input empty_meta)
           [0] [2] 2 [2] 3 (np_empty [2; 1])
           (block_of
              (λ q, 10 - (default 0 (q !! 1%nat) - default 0 (q !! 0%nat) - 1)
                         * (default 0 (q !! 1%nat) - default 0 (q !! 0%nat) - 1))
              [0; 0] [2; 3])); try reflexivity.
  intros l Hl. unfold block_of in *. cbn [arr_shape arr_at] in *. rewrite Hl. eauto.
Defined.
(** ** OpSingleChannelSelector: dirty propagation *)

(** X18: a dirty box of the input is passed on with its channel range
    replaced by [0, 1): the key handed to [setDirty] denotes a box of the
    output, and the pixel of every dirty input cell lies in it, whichever
    channel the cell belongs to (a change in a channel other than the
    selected one also marks the output).  A change of [Index] marks
    everything. *)
Theorem single_selector_propagateDirty
    (op : OpSingleChannelSelector.t) (a : nat) (o1 o2 : list Z) (n : Z)
    (s1 e1 s2 e2 : Coord) (cs ce : Z) :
  index_of "c" (axistags (meta (OpSingleChannelSelector.Input op))) = Some a →
  length o1 = a → length s1 = a → length e1 = a →
  roi_within (s1 ++ cs :: s2) (e1 ++ ce :: e2) (o1 ++ n :: o2) = true →
  ∃ key,
    OpSingleChannelSelector.propagateDirty op true
      (mkRoi (s1 ++ cs :: s2) (e1 ++ ce :: e2)) = Ok (Some key) ∧
    sliceToRoi key (o1 ++ 1 :: o2) = Ok (s1 ++ 0 :: s2, e1 ++ 1 :: e2) ∧
    roi_within (s1 ++ 0 :: s2) (e1 ++ 1 :: e2) (o1 ++ 1 :: o2) = true ∧
    (∀ p1 pc p2, length p1 = a →
       in_roi (s1 ++ cs :: s2) (e1 ++ ce :: e2) (p1 ++ pc :: p2) = true →
       in_roi (s1 ++ 0 :: s2) (e1 ++ 1 :: e2) (p1 ++ 0 :: p2) = true) ∧
    ∀ roi, OpSingleChannelSelector.propagateDirty op false roi = Ok None.
Proof.
  intros Hidx Ho1 Hs1 He1 Hroi.
  apply roi_within_mid in Hroi as (Hr1 & Hra & Hr2); [|congruence..].
  destruct (roi_within_length _ _ _ Hr2) as [Hls2 Hle2].
  unfold OpSingleChannelSelector.propagateDirty, channelIndex.
  rewrite Hidx. cbn [default from_option start stop]. unfold id.
  rewrite <- (roiToSlice_mid s1 s2 e1 e2 cs ce) by congruence.
  rewrite (py_setitem_at _ _ _ _ a) by (rewrite roiToSlice_length; congruence).
  cbn [mbind res_bind]. eexists. split; [reflexivity|].
  rewrite roiToSlice_mid by congruence.
  split.
  { apply sliceToRoi_roiToSlice; rewrite !length_app; simpl; lia. }
  split.
  { apply roi_within_mid; [congruence|congruence|]. repeat split; (done || lia). }
  split; [|done].
  intros p1 pc p2 Hp1 Hin.
  rewrite in_roi_app in Hin |- * by congruence.
  apply andb_true_iff in Hin as [-> Hin]. simpl in Hin |- *.
  by apply andb_true_iff in Hin as [_ ->].
Qed.

Lemma single_selector_propagateDirty_witness :
  ∃ key,
    OpSingleChannelSelector.propagateDirty selector_channel_1 true
      (mkRoi ([0] ++ 2 :: [1]) ([1] ++ 3 :: [2])) = Ok (Some key) ∧
    sliceToRoi key ([2] ++ 1 :: [2]) = Ok ([0] ++ 0 :: [1], [1] ++ 1 :: [2]) ∧
    roi_within ([0] ++ 0 :: [1]) ([1] ++ 1 :: [2]) ([2] ++ 1 :: [2]) = true ∧
    (∀ p1 pc p2, length p1 = 1%nat →
       in_roi ([0] ++ 2 :: [1]) ([1] ++ 3 :: [2]) (p1 ++ pc :: p2) = true →
       in_roi ([0] ++ 0 :: [1]) ([1] ++ 1 :: [2]) (p1 ++ 0 :: p2) = true) ∧
    ∀ roi, OpSingleChannelSelector.propagateDirty selector_channel_1 false roi = Ok None.
Proof.
  apply (single_selector_propagateDirty selector_channel_1 1 [2] [2] 3
           [0] [1] [1] [2] 2 3); reflexivity.
Defined.

(** ** Selecting one channel: two operators, one request *)

(** X19: for an input whose channel axis is last, the single-channel selector
    of channel [i] and the multi-channel selector of the one-element selection
    [(i,)] answer every request alike: both fetch the input's box with the
    channel range [i, i + 1) and write it into the whole result. *)
Theorem single_selector_agrees_with_channel_selector
    (inp : Slot) (i : Z) (out out' : MetaDict) (ishape : list Z) (nch : Z)
    (ks ke : Coord) (c0 c1 : Z) (result : ndarray) :
  shape (meta inp) = Some (ishape ++ [nch]) →
  index_of "c" (axistags (meta inp)) = Some (length ishape) →
  length ks = length ishape → length ke = length ishape →
  0 ≤ i < nch →
  OpSingleChannelSelector.execute (OpSingleChannelSelector.mk inp i out)
    (mkRoi (ks ++ [c0]) (ke ++ [c1])) result
  = OpMultiChannelSelector.execute (OpMultiChannelSelector.mk inp [i] out')
      (mkRoi (ks ++ [c0]) (ke ++ [c1])) result ∧
  OpMultiChannelSelector.execute (OpMultiChannelSelector.mk inp [i] out')
    (mkRoi (ks ++ [c0]) (ke ++ [c1])) result
  = (blk ← get inp (ks ++ [i]) (ke ++ [i + 1]); writeInto blk [] result).
Proof.
  intros Hshape Hidx Hks Hke Hi.
  assert (OpMultiChannelSelector.execute (OpMultiChannelSelector.mk inp [i] out')
            (mkRoi (ks ++ [c0]) (ke ++ [c1])) result
          = (blk ← get inp (ks ++ [i]) (ke ++ [i + 1]); writeInto blk [] result))
    as Hmulti.
  { unfold OpMultiChannelSelector.execute.
    cbn [OpMultiChannelSelector.SelectedChannels OpMultiChannelSelector.Input
         start stop length].
    rewrite bool_decide_eq_true_2 by done.
    cbn [lookup list_lookup or_raise mbind res_bind].
    rewrite !py_setitem_last. by cbn [mbind res_bind]. }
  split; [|done]. rewrite Hmulti.
  unfold OpSingleChannelSelector.execute, channelIndex, get_shape.
  cbn [OpSingleChannelSelector.Input OpSingleChannelSelector.Index start stop].
  rewrite Hidx, Hshape. cbn [default from_option or_raise mbind res_bind].
  unfold id. rewrite lookup_mid. cbn [or_raise mbind res_bind].
  replace (i <? nch) with true by (symmetry; apply Z.ltb_lt; lia).
  cbn [assert mbind res_bind].
  rewrite toSlice_snoc by congruence.
  rewrite (py_setitem_at _ _ _ _ (length ishape))
    by (rewrite roiToSlice_length; congruence).
  cbn [mbind res_bind].
  rewrite <- toSlice_snoc by congruence.
  unfold slot_getitem, get_shape. rewrite Hshape. cbn [or_raise mbind res_bind].
  rewrite sliceToRoi_roiToSlice by (rewrite !length_app; simpl; lia).
  by cbn [mbind res_bind].
Qed.

Lemma single_selector_agrees_with_channel_selector_witness :
  OpSingleChannelSelector.execute
    (OpSingleChannelSelector.mk (OpMultiChannelSelector.Input selector_2_0_0) 3
       empty_meta)
    (mkRoi ([1] ++ [0]) ([4] ++ [1])) (np_empty [3; 1])
  = OpMultiChannelSelector.execute
      (OpMultiChannelSelector.mk (OpMultiChannelSelector.Input selector_2_0_0) [3]
         empty_meta)
      (mkRoi ([1] ++ [0]) ([4] ++ [1])) (np_empty [3; 1]) ∧
  OpMultiChannelSelector.execute
    (OpMultiChannelSelector.mk (OpMultiChannelSelector.Input selector_2_0_0) [3]
       empty_meta)
    (mkRoi ([1] ++ [0]) ([4] ++ [1])) (np_empty [3; 1])
  = (blk ← get (OpMultiChannelSelector.Input selector_2_0_0) ([1] ++ [3]) ([4] ++ [3 + 1]);
     writeInto blk [] (np_empty [3; 1])).
Proof.
  apply (single_selector_agrees_with_channel_selector
           (OpMultiChannelSelector.Input selector_2_0_0) 3 empty_meta empty_meta
           [5] 4 [1] [4] 0 1 (np_empty [3; 1])); (reflexivity || lia).
Defined.

(** ** OpSubRegion: a crop of a crop *)

Lemma subregion_output_serves (op' : OpSubRegion.t) (Input_ : Slot) (A : Coord → Z)
    (c0 c1 ishape : list Z) :
  OpSubRegion._roi op' = Some (c0, c1) →
  shape (OpSubRegion.Output op') = Some (tv_sub c1 c0) →
  shape (meta Input_) = Some ishape →
  serves Input_ A →
  roi_within c0 c1 ishape = true →
  serves (output_slot (OpSubRegion.Output op') (OpSubRegionRequests.execute op' Input_))
    (λ p, A (tv_add p c0)).
Proof.
  intros Hroi Hout Hshape Hserves Hcrop shp a b Hshp Hab.
  unfold output_slot in Hshp |- *. cbn [meta get] in Hshp |- *.
  unfold get_shape. rewrite Hshp. cbn [or_raise mbind res_bind]. rewrite Hab.
  assert (shp = tv_sub c1 c0) as -> by congruence.
  destruct (subregion_execute_spec op' Input_ A c0 c1 ishape a b
              (np_empty (tv_sub b a))) as (r' & -> & Hs' & Hcell & _); try done.
  exists r'. by repeat split.
Qed.

(** X20: crops compose by adding their starts.  Cropping the output of a crop
    at [c0] with a second crop at [d0] shows, at output point [p], the
    original input's cell [p + d0 + c0]. *)
Theorem subregion_crops_compose
    (op1 : OpSubRegion.t) (Input_ : Slot) (A : Coord → Z)
    (c0 c1 d0 d1 ishape : list Z) (out2 : MetaDict) :
  OpSubRegion.Roi op1 = (c0, c1) →
  meta Input_ = OpSubRegion.Input op1 →
  shape (OpSubRegion.Input op1) = Some ishape →
  serves Input_ A →
  roi_within c0 c1 ishape = true →
  (∀ i x y, c0 !! i = Some x → c1 !! i = Some y → x < y) →
  roi_within d0 d1 (tv_sub c1 c0) = true →
  (∀ i x y, d0 !! i = Some x → d1 !! i = Some y → x < y) →
  ∃ op1' op2',
    OpSubRegion.setupOutputs op1 = Ok op1' ∧
    OpSubRegion.setupOutputs
      (OpSubRegion.mk (OpSubRegion.Output op1') (d0, d1) out2 None) = Ok op2' ∧
    shape (OpSubRegion.Output op2') = Some (tv_sub d1 d0) ∧
    ∀ st sp,
      roi_within st sp (tv_sub d1 d0) = true →
      ∃ r',
        OpSubRegionRequests.execute op2'
          (output_slot (OpSubRegion.Output op1')
             (OpSubRegionRequests.execute op1' Input_))
          (mkRoi st sp) (np_empty (tv_sub sp st)) = Ok r' ∧
        arr_shape r' = tv_sub sp st ∧
        (∀ p, in_roi st sp p = true →
           arr_at r' (tv_sub p st) = Some (A (tv_add (tv_add p d0) c0))) ∧
        (∀ q, in_box (tv_sub sp st) q = false → arr_at r' q = None).
Proof.
  intros HRoi Hmeta Hshape Hserves Hcrop Hlt Hcrop2 Hlt2.
  destruct (roi_within_length _ _ _ Hcrop) as [Hl0 Hl1].
  destruct (roi_within_length _ _ _ Hcrop2) as [Hm0 Hm1].
  set (op1' := OpSubRegion.mk (OpSubRegion.Input op1) (OpSubRegion.Roi op1)
                 (set_shape (Some (tv_sub c1 c0))
                    (assignFrom (OpSubRegion.Output op1) (OpSubRegion.Input op1)))
                 (Some (c0, c1))).
  set (op2' := OpSubRegion.mk (OpSubRegion.Output op1') (d0, d1)
                 (set_shape (Some (tv_sub d1 d0))
                    (assignFrom out2 (OpSubRegion.Output op1')))
                 (Some (d0, d1))).
  exists op1', op2'.
  split; [by apply (subregion_setupOutputs_ok op1 c0 c1 ishape)|].
  split.
  { by apply (subregion_setupOutputs_ok
                (OpSubRegion.mk (OpSubRegion.Output op1') (d0, d1) out2 None)
                d0 d1 (tv_sub c1 c0)). }
  split; [done|].
  intros st sp Hroi.
  destruct (subregion_execute_spec op2'
              (output_slot (OpSubRegion.Output op1')
                 (OpSubRegionRequests.execute op1' Input_))
              (λ p, A (tv_add p c0)) d0 d1 (tv_sub c1 c0) st sp
              (np_empty (tv_sub sp st)))
    as (r' & Hexec & Hs' & Hcell & Hout); try done.
  { apply (subregion_output_serves op1' Input_ A c0 c1 ishape); try done.
    by rewrite Hmeta. }
  exists r'. split; [done|]. split; [done|]. split.
  - intros p Hin. destruct (in_roi_box _ _ _ Hin) as [Hbox Hback].
    rewrite Hcell by done. by rewrite Hback.
  - intros q Hq. by rewrite Hout.
Qed.

Lemma subregion_crops_compose_witness :
  ∃ op1' op2',
    OpSubRegion.setupOutputs crop_10_20 = Ok op1' ∧
    OpSubRegion.setupOutputs
      (OpSubRegion.mk (OpSubRegion.Output op1') ([2; 5], [6; 15]) empty_meta None)
    = Ok op2' ∧
    shape (OpSubRegion.Output op2') = Some (tv_sub [6; 15] [2; 5]) ∧
    ∀ st sp,
      roi_within st sp (tv_sub [6; 15] [2; 5]) = true →
      ∃ r',
        OpSubRegionRequests.execute op2'
          (output_slot (OpSubRegion.Output op1')
             (OpSubRegionRequests.execute op1' crop_input))
          (mkRoi st sp) (np_empty (tv_sub sp st)) = Ok r' ∧
        arr_shape r' = tv_sub sp st ∧
        (∀ p, in_roi st sp p = true →
           arr_at r' (tv_sub p st)
           = Some (1000 * default 0 (tv_add (tv_add p [2; 5]) [10; 20] !! 0%nat)
                   + default 0 (tv_add (tv_add p [2; 5]) [10; 20] !! 1%nat))) ∧
        (∀ q, in_box (tv_sub sp st) q = false → arr_at r' q = None).
Proof.
  apply (subregion_crops_compose crop_10_20 crop_input
           (λ q, 1000 * default 0 (q !! 0%nat) + default 0 (q !! 1%nat))
           [10; 20] [20; 40] [2; 5] [6; 15] [100; 100] empty_meta);
    try reflexivity.
  - apply array_slot_serves.
  - intros [|[|i]] x y; simpl; intros [= <-] [= <-]; lia.
  - intros [|[|i]] x y; simpl; intros [= <-] [= <-]; lia.
Defined.

(** The two crops evaluated on one cell: output point [(1, 2)] of the second
    crop is the input's cell [(13, 27)]. *)
Lemma subregion_crops_compose_cells :
  ∃ op1' op2' r',
    OpSubRegion.setupOutputs crop_10_20 = Ok op1' ∧
    OpSubRegion.setupOutputs
      (OpSubRegion.mk (OpSubRegion.Output op1') ([2; 5], [6; 15]) empty_meta None)
    = Ok op2' ∧
    OpSubRegionRequests.execute op2'
      (output_slot (OpSubRegion.Output op1')
         (OpSubRegionRequests.execute op1' crop_input))
      (mkRoi [1; 2] [2; 4]) (np_empty [1; 2]) = Ok r' ∧
    arr_at r' <$> ndindex [1; 2] = [Some 13027; Some 13028].
Proof. do 3 eexists. repeat split; reflexivity. Qed.

(** ** OpPixelOperator: an elementwise function *)

Lemma in_roi_in_box (st sp shp p : list Z) :
  roi_within st sp shp = true → in_roi st sp p = true → in_box shp p = true.
Proof.
  revert sp shp p.
  induction st as [|x st IH]; intros [|y sp] [|n shp] [|z p]; simpl; try done.
  intros [[[H0%Z.leb_le _]%andb_true_iff Hn%Z.leb_le]%andb_true_iff Hroi]%andb_true_iff.
  intros [[Hx%Z.leb_le Hy%Z.ltb_lt]%andb_true_iff Hin]%andb_true_iff.
  rewrite (IH _ _ _ Hroi Hin). by zbool.
Qed.

(** X21: for a function that maps every value [x] of an array to [g x],
    whatever the array's dtype, [setupOutputs] declares the value range
    [(g lo, g hi)] for an input range [(lo, hi)] and [execute] returns [g] of
    the input's cell at every point of the ROI, whether or not the result
    buffer is re-used for the input block.  If [g] is monotone and the cells
    of the input respect the input's range, every returned value lies in the
    declared range. *)
Theorem pixel_operator_elementwise
    (op : OpPixelOperator.t) (g : Z → Z) (fd : option Dtype → option Dtype)
    (A : Coord → Z) (ishape : list Z) (lo hi : Z) :
  (∀ d a, OpPixelOperator.Function op d a = Ok (fd d, np_map g a)) →
  shape (meta (OpPixelOperator.Input op)) = Some ishape →
  drange (meta (OpPixelOperator.Input op)) = Some [lo; hi] →
  serves (OpPixelOperator.Input op) A →
  ∃ op', OpPixelOperator.setupOutputs op = Ok op' ∧
    shape (OpPixelOperator.Output op') = Some ishape ∧
    drange (OpPixelOperator.Output op') = Some [g lo; g hi] ∧
    ∀ st sp, roi_within st sp ishape = true →
      ∃ r',
        OpPixelOperator.execute op' (mkRoi st sp) (np_empty (tv_sub sp st)) = Ok r' ∧
        arr_shape r' = tv_sub sp st ∧
        (∀ p, in_roi st sp p = true → arr_at r' (tv_sub p st) = Some (g (A p))) ∧
        ((∀ x y, x ≤ y → g x ≤ g y) →
         (∀ p, in_box ishape p = true → lo ≤ A p ≤ hi) →
         ∀ p, in_roi st sp p = true →
           ∃ v, arr_at r' (tv_sub p st) = Some v ∧ g lo ≤ v ≤ g hi).
Proof.
  intros Hfun Hshape Hdr Hserves.
  unfold OpPixelOperator.setupOutputs. rewrite !Hfun, Hdr.
  cbn [mbind res_bind]. rewrite Hfun. cbn [mbind res_bind].
  assert (np_tuple_1d (np_map g (np_array_1d [lo; hi])) = Ok [g lo; g hi]) as ->
    by reflexivity.
  cbn [mbind res_bind]. eexists. split; [reflexivity|].
  cbn [OpPixelOperator.Output OpPixelOperator.Input OpPixelOperator.function].
  unfold assignFrom. split; [done|]. split; [done|].
  intros st sp Hroi.
  destruct (roi_within_length _ _ _ Hroi) as [Hlst Hlsp].
  assert (∃ r',
            OpPixelOperator.execute
              (OpPixelOperator.mk (OpPixelOperator.Input op)
                 (OpPixelOperator.Function op)
                 (set_drange (Some [g lo; g hi])
                    (set_dtype
                       (fd match dtype (meta (OpPixelOperator.Input op)) with
                           | Some d => Some d
                           | None => Some int64
                           end)
                       (meta (OpPixelOperator.Input op))))
                 (OpPixelOperator.Function op))
              (mkRoi st sp) (np_empty (tv_sub sp st)) = Ok r' ∧
            arr_shape r' = tv_sub sp st ∧
            ∀ l, in_box (tv_sub sp st) l = true →
              arr_at r' l = Some (g (A (tv_add st l)))) as (r' & Hexec & Hs' & Hcell).
  { unfold OpPixelOperator.execute.
    cbn [OpPixelOperator.Output OpPixelOperator.Input OpPixelOperator.function
         start stop].
    unfold slot_getitem, get_shape. rewrite Hshape. cbn [or_raise mbind res_bind].
    rewrite sliceToRoi_roiToSlice by congruence. cbn [mbind res_bind].
    destruct (Hserves ishape st sp Hshape Hroi) as (blk & -> & Hbs & Hbc).
    cbn [mbind res_bind]. rewrite ?Hfun.
    destruct (bool_decide _).
    - destruct (writeInto_whole blk (np_empty (tv_sub sp st)))
        as (m & -> & Hms & Hmc); [done|].
      cbn [mbind res_bind]. rewrite Hfun. cbn [mbind res_bind].
      unfold assign_all, np_map. cbn [arr_shape arr_at].
      rewrite bool_decide_eq_true_2 by done.
      eexists. split; [reflexivity|]. cbn [arr_shape arr_at].
      split; [done|]. intros l Hl. rewrite Hms. cbn [np_empty arr_shape].
      rewrite Hl, Hmc. cbn [np_empty arr_shape]. rewrite Hl, Hbc by done. done.
    - cbn [mbind res_bind]. unfold assign_all, np_map. cbn [arr_shape arr_at np_empty].
      rewrite bool_decide_eq_true_2 by done.
      eexists. split; [reflexivity|]. cbn [arr_shape arr_at].
      split; [done|]. intros l Hl. rewrite Hl, Hbc by done. done. }
  exists r'. split; [done|]. split; [done|].
  assert (∀ p, in_roi st sp p = true → arr_at r' (tv_sub p st) = Some (g (A p)))
    as Hp.
  { intros p Hin. destruct (in_roi_box _ _ _ Hin) as [Hbox Hback].
    rewrite Hcell by done. by rewrite Hback. }
  split; [done|].
  intros Hmono Hrange p Hin. exists (g (A p)). split; [by apply Hp|].
  specialize (Hrange p (in_roi_in_box _ _ _ _ Hroi Hin)). split; apply Hmono; lia.
Qed.

Lemma pixel_operator_elementwise_witness :
  (∀ x y, x ≤ y → Z.min x 50 ≤ Z.min y 50) ∧
  (∀ p : Coord, in_box [4; 4] p = true →
     0 ≤ 30 * default 0 (p !! 0%nat) + default 0 (p !! 1%nat) ≤ 100) ∧
  ∃ op', OpPixelOperator.setupOutputs pixel_clipper = Ok op' ∧
    shape (OpPixelOperator.Output op') = Some [4; 4] ∧
    drange (OpPixelOperator.Output op') = Some [Z.min 0 50; Z.min 100 50] ∧
    ∀ st sp, roi_within st sp [4; 4] = true →
      ∃ r',
        OpPixelOperator.execute op' (mkRoi st sp) (np_empty (tv_sub sp st)) = Ok r' ∧
        arr_shape r' = tv_sub sp st ∧
        (∀ p, in_roi st sp p = true →
           arr_at r' (tv_sub p st)
           = Some (Z.min (30 * default 0 (p !! 0%nat) + default 0 (p !! 1%nat)) 50)) ∧
        ((∀ x y, x ≤ y → Z.min x 50 ≤ Z.min y 50) →
         (∀ p : Coord, in_box [4; 4] p = true →
            0 ≤ 30 * default 0 (p !! 0%nat) + default 0 (p !! 1%nat) ≤ 100) →
         ∀ p, in_roi st sp p = true →
           ∃ v, arr_at r' (tv_sub p st) = Some v ∧ Z.min 0 50 ≤ v ≤ Z.min 100 50).
Proof.
  split; [intros x y Hxy; lia|]. split.
  { intros [|x [|y p]] H; simpl in H; rewrite ?andb_false_r in H; try done.
    apply andb_true_iff in H
      as [[Hx0%Z.leb_le Hx4%Z.ltb_lt]%andb_true_iff
            [[Hy0%Z.leb_le Hy4%Z.ltb_lt]%andb_true_iff _]%andb_true_iff].
    simpl. lia. }
  apply (pixel_operator_elementwise pixel_clipper (λ x, Z.min x 50) (λ d, d)
           (λ q, 30 * default 0 (q !! 0%nat) + default 0 (q !! 1%nat)) [4; 4] 0 100);
    try reflexivity.
  apply array_slot_serves.
Defined.

(** The clipper evaluated on the box from [(1, 2)] to [(3, 4)]: the cells 32,
    33, 62 and 63 of the input, the last two clipped. *)
Lemma pixel_clipper_cells :
  ∃ op' r',
    OpPixelOperator.setupOutputs pixel_clipper = Ok op' ∧
    drange (OpPixelOperator.Output op') = Some [0; 50] ∧
    OpPixelOperator.execute op' (mkRoi [1; 2] [3; 4]) (np_empty [2; 2]) = Ok r' ∧
    arr_at r' <$> ndindex [2; 2] = [Some 32; Some 33; Some 50; Some 50].
Proof. do 2 eexists. repeat split; reflexivity. Qed.
